(** * thinkcyber_server: the REST handlers over the relational store

    A shallow embedding of the Express route handlers of the repository
    (categories, topics, topic actions, nested module/video upsert, video
    routes) over an explicit model of the PostgreSQL tables they read and
    write, followed by the properties of those handlers.

    Conventions.
    - A JavaScript string is a [string] of code units in U+0000..U+00FF.
    - A table with a SERIAL PRIMARY KEY is a finite map from the key to the
      remaining columns of the row; the sequence behind the key is a counter
      of the store.
    - A handler is a function from the request and the store to the HTTP
      status it answers with and the store it leaves behind. *)

From Stdlib Require Import ZArith String Ascii List Lia Bool.
From Stdlib Require Import DecimalString DecimalNat.
From stdpp Require Import base option list gmap strings.

Local Open Scope string_scope.
Local Open Scope Z_scope.

(* ===================================================================== *)
(** * JavaScript values and the built-ins the handlers call              *)
(* ===================================================================== *)

Module Js.

(** The values a JSON body field can hold, as far as the handlers tell them
    apart.  Numbers are the integers (a JSON id, order or duration) that
    print without an exponent; [JOther] stands for an object, or an array
    whose text does not begin like a number. *)
Inductive value : Type :=
| JUndef
| JNull
| JBool (b : bool)
| JNum (n : Z)
| JStr (s : string)
| JOther.

(** [if (v)], [v && ...], [v || ...]. *)
Definition truthy (v : value) : bool :=
  match v with
  | JUndef | JNull => false
  | JBool b => b
  | JNum n => negb (n =? 0)
  | JStr s => negb (String.eqb s "")
  | JOther => true
  end.

(** [a || b]. *)
Definition or_else (a b : value) : value := if truthy a then a else b.

Definition code (c : ascii) : nat := nat_of_ascii c.

(** WhiteSpace and LineTerminator below U+0100: TAB, LF, VT, FF, CR, SP and
    NBSP.  This is the class of [\s], of [trim] and of [parseInt]. *)
Definition is_space (c : ascii) : bool :=
  let n := code c in
  ((9 <=? n) && (n <=? 13) || (n =? 32) || (n =? 160))%nat.

Definition is_upper (c : ascii) : bool :=
  let n := code c in ((65 <=? n) && (n <=? 90))%nat.

Definition is_lower (c : ascii) : bool :=
  let n := code c in ((97 <=? n) && (n <=? 122))%nat.

Definition is_digit (c : ascii) : bool :=
  let n := code c in ((48 <=? n) && (n <=? 57))%nat.

(** [toLowerCase] on one code unit.  Only the letters A-Z are moved: a code
    unit of U+0080..U+00FF either stays or moves to another code unit outside
    ASCII, which none of the handlers distinguishes from the original. *)
Definition lower_char (c : ascii) : ascii :=
  if is_upper c then ascii_of_nat (code c + 32) else c.

Fixpoint toLowerCase (s : string) : string :=
  match s with
  | EmptyString => EmptyString
  | String c r => String (lower_char c) (toLowerCase r)
  end.

Fixpoint trimStart (s : string) : string :=
  match s with
  | String c r => if is_space c then trimStart r else s
  | EmptyString => EmptyString
  end.

(** Drop the white space at the end: a character is kept when something
    other than white space follows it or it is not white space itself. *)
Fixpoint trimEnd (s : string) : string :=
  match s with
  | EmptyString => EmptyString
  | String c r =>
      match trimEnd r with
      | EmptyString => if is_space c then EmptyString else String c EmptyString
      | r' => String c r'
      end
  end.

Definition trim (s : string) : string := trimEnd (trimStart s).

Fixpoint startsWith (s p : string) : bool :=
  match p, s with
  | EmptyString, _ => true
  | String a p', String b s' => Ascii.eqb a b && startsWith s' p'
  | String _ _, EmptyString => false
  end.

(** The value of a digit in radix 16 (and so in radix 10 when below 10). *)
Definition digit_value (c : ascii) : option Z :=
  let n := code c in
  if is_digit c then Some (Z.of_nat (n - 48))
  else if ((97 <=? n) && (n <=? 102))%nat then Some (Z.of_nat (n - 87))
  else if ((65 <=? n) && (n <=? 70))%nat then Some (Z.of_nat (n - 55))
  else None.

(** The longest prefix of digits of the radix, read as a number: [None] when
    there is no digit at all. *)
Fixpoint digits_prefix (radix : Z) (acc : option Z) (s : string) : option Z :=
  match s with
  | EmptyString => acc
  | String c r =>
      match digit_value c with
      | Some d =>
          if d <? radix
          then digits_prefix radix (Some (radix * default 0 acc + d)) r
          else acc
      | None => acc
      end
  end.

Definition strip_hex_prefix (s : string) : option string :=
  match s with
  | String "0" (String x r) =>
      if Ascii.eqb x "x" || Ascii.eqb x "X" then Some r else None
  | _ => None
  end.

(** [parseInt(s)] with no radix given; [None] is NaN.  The mathematical
    value of the digits is returned (the rounding of integers beyond 2^53 to
    a double is left out). *)
Definition parseInt_string (s : string) : option Z :=
  let s := trimStart s in
  let '(neg, s) :=
    match s with
    | String "-" r => (true, r)
    | String "+" r => (false, r)
    | _ => (false, s)
    end in
  let magnitude :=
    match strip_hex_prefix s with
    | Some r => digits_prefix 16 None r
    | None => digits_prefix 10 None s
    end in
  (fun m => if neg then - m else m) <$> magnitude.

(** [parseInt(v)]: the argument goes through ToString first. *)
Definition parseInt (v : value) : option Z :=
  match v with
  | JNum n => Some n
  | JStr s => parseInt_string s
  | JUndef | JNull | JBool _ | JOther => None
  end.

(** Number to string, for an integer: the decimal digits, with a sign. *)
Definition string_of_nat (n : nat) : string :=
  NilEmpty.string_of_uint (Nat.to_uint n).

Definition toString (n : Z) : string :=
  match n with
  | Z0 => "0"
  | Zpos p => string_of_nat (Pos.to_nat p)
  | Zneg p => String "-" (string_of_nat (Pos.to_nat p))
  end.

(** [!s || s.trim() === ''] for a field that is a string or absent. *)
Definition blank (s : option string) : bool :=
  match s with
  | None => true
  | Some s => String.eqb s "" || String.eqb (trim s) ""
  end.

End Js.

(* ===================================================================== *)
(** * The store: tables, constraints and parameter coercion              *)
(* ===================================================================== *)

Module Db.

(** ** Rows

    Only the columns that a modelled statement reads or writes are kept;
    the primary key is the key of the table's map. *)

(** [category]: name VARCHAR(50) NOT NULL, description TEXT NOT NULL,
    status VARCHAR(20) NOT NULL CHECK (status IN ('Active', 'Inactive',
    'Draft')), topics_count INTEGER NOT NULL. *)
Record category_row : Type := {
  c_name : string;
  c_description : string;
  c_status : string;
  c_topics_count : Z;
  c_updated_at : Z
}.

(** [subcategory]: category_id INTEGER REFERENCES category(id). *)
Record subcategory_row : Type := {
  s_name : string;
  s_category_id : option Z
}.

(** [topics]: title VARCHAR(255) NOT NULL, slug VARCHAR(255) UNIQUE NOT NULL,
    status VARCHAR(20) DEFAULT 'draft' CHECK (...), published_at TIMESTAMP,
    category_id INTEGER REFERENCES category(id) ON DELETE SET NULL,
    duration_minutes INTEGER DEFAULT 0.  ([t_is_featured] holds the value of
    is_featured when it is not NULL; the one route that computes with the
    column, toggle-featured, has its own table with the NULL.) *)
Record topic_row : Type := {
  t_title : string;
  t_slug : string;
  t_status : option string;
  t_is_featured : bool;
  t_category_id : option Z;
  t_duration_minutes : Z;
  t_published_at : option Z;
  t_updated_at : Z
}.

(** [topic_modules]: topic_id INTEGER REFERENCES topics(id) ON DELETE
    CASCADE, title VARCHAR(255) NOT NULL. *)
Record module_row : Type := {
  m_topic_id : Z;
  m_title : string;
  m_description : string;
  m_order_index : Z;
  m_duration_minutes : Z;
  m_is_active : bool;
  m_updated_at : Z
}.

(** [topic_videos]: topic_id REFERENCES topics(id) ON DELETE CASCADE,
    module_id REFERENCES topic_modules(id) ON DELETE CASCADE, title
    VARCHAR(255) NOT NULL, description TEXT, video_url TEXT, video_type
    VARCHAR(20) CHECK (video_type IN ('mp4', 'youtube', 'vimeo', 'stream')). *)
Record video_row : Type := {
  v_topic_id : Z;
  v_module_id : Z;
  v_title : string;
  v_description : option string;
  v_video_url : option string;
  v_video_type : string;
  v_duration_seconds : Z;
  v_order_index : Z;
  v_is_preview : bool;
  v_updated_at : Z
}.

Record store : Type := {
  categories : gmap Z category_row;
  subcategories : gmap Z subcategory_row;
  topics : gmap Z topic_row;
  topics_seq : Z;
  modules : gmap Z module_row;
  modules_seq : Z;
  videos : gmap Z video_row;
  videos_seq : Z
}.

(** ** Parameter coercion

    node-postgres sends every parameter as text and the server reads it with
    the input function of the column's type. *)

Definition int4_range (n : Z) : bool := (-2147483648 <=? n) && (n <=? 2147483647).

(** A JavaScript integer bound to an INTEGER column: the statement raises
    when the value does not fit. *)
Definition int4_of_Z (n : Z) : option Z := if int4_range n then Some n else None.

Fixpoint all_digits (s : string) : bool :=
  match s with
  | EmptyString => true
  | String c r => Js.is_digit c && all_digits r
  end.

(** The white space of C's [isspace]: TAB, LF, VT, FF, CR and SP. *)
Definition pg_space (c : ascii) : bool :=
  let n := Js.code c in ((9 <=? n) && (n <=? 13) || (n =? 32))%nat.

Fixpoint pg_trim_start (s : string) : string :=
  match s with
  | String c r => if pg_space c then pg_trim_start r else s
  | EmptyString => EmptyString
  end.

Fixpoint pg_trim_end (s : string) : string :=
  match s with
  | EmptyString => EmptyString
  | String c r =>
      match pg_trim_end r with
      | EmptyString => if pg_space c then EmptyString else String c EmptyString
      | r' => String c r'
      end
  end.

(** A text parameter bound to an INTEGER column ([int4in]): white space, an
    optional sign, decimal digits, white space; anything else, or a value
    that does not fit, raises "invalid input syntax for type integer" or
    "out of range".  (The non-decimal literals and the underscores that
    PostgreSQL 16 added are left out.) *)
Definition int4_of_string (s : string) : option Z :=
  let s := pg_trim_end (pg_trim_start s) in
  let '(neg, digits) :=
    match s with
    | String "-" r => (true, r)
    | String "+" r => (false, r)
    | _ => (false, s)
    end in
  if all_digits digits then
    m ← Js.digits_prefix 10 None digits;
    int4_of_Z (if neg then - m else m)
  else None.

(** A body value bound to an INTEGER column.  [Some None] is SQL NULL. *)
Definition int4_param (v : Js.value) : option (option Z) :=
  match v with
  | Js.JUndef | Js.JNull => Some None
  | Js.JNum n => Some <$> int4_of_Z n
  | Js.JStr s => Some <$> int4_of_string s
  | Js.JBool _ | Js.JOther => None
  end.

(** VARCHAR(n): a longer value raises "value too long". *)
Definition fits_varchar (n : nat) (s : string) : bool :=
  (String.length s <=? n)%nat.

End Db.

(* ===================================================================== *)
(** * HTTP responses                                                     *)
(* ===================================================================== *)

Module Http.

(** [res.status(code).json({ success, error | message, data })]: the status,
    the [success] flag and the text of [error] or [message]; for an answer
    that carries [data] and no message, [message] names what the data is
    (the slug of a created topic, for one). *)
Record response : Type := {
  status : Z;
  success : bool;
  message : string
}.

Definition ok (msg : string) : response :=
  {| status := 200; success := true; message := msg |}.

Definition created (msg : string) : response :=
  {| status := 201; success := true; message := msg |}.

Definition fail (code : Z) (msg : string) : response :=
  {| status := code; success := false; message := msg |}.

(** The [catch] block of every handler: 500 with the driver's message,
    whose text is not modelled. *)
Definition server_error : response := fail 500 "Internal server error".

End Http.

(* ===================================================================== *)
(** * routes/category.js                                                 *)
(* ===================================================================== *)

Module Category.
Import Db.

Definition validStatuses : list string := ["Active"; "Inactive"; "Draft"].

(** [status && validStatuses.includes(status) ? status : 'Active']. *)
Definition categoryStatus (status : Js.value) : string :=
  match status with
  | Js.JStr s =>
      if Js.truthy status && bool_decide (s ∈ validStatuses) then s else "Active"
  | _ => "Active"
  end.

(** [!categoryId || isNaN(categoryId)] after [parseInt(req.params.id)]. *)
Definition valid_id (id : string) : option Z :=
  match Js.parseInt_string id with
  | Some n => if n =? 0 then None else Some n
  | None => None
  end.





(** [SELECT COUNT( * ) FROM subcategory WHERE category_id = $1]. *)
Definition subcategory_count (cid : Z) (db : store) : Z :=
  Z.of_nat (size (filter (λ kv, s_category_id kv.2 = Some cid) (subcategories db))).

(** [DELETE FROM category WHERE id = $1].  A subcategory that still refers to
    the row makes the statement raise (the foreign key has no ON DELETE
    action); the topics that refer to it get a NULL category. *)
Definition delete_category_row (cid : Z) (db : store) : option store :=
  if bool_decide (subcategory_count cid db = 0) then
    Some {| categories := delete cid (categories db);
            subcategories := subcategories db;
            topics :=
              (λ t, if bool_decide (t_category_id t = Some cid)
                    then {| t_title := t_title t; t_slug := t_slug t;
                            t_status := t_status t;
                            t_is_featured := t_is_featured t;
                            t_category_id := None;
                            t_duration_minutes := t_duration_minutes t;
                            t_published_at := t_published_at t;
                            t_updated_at := t_updated_at t |}
                    else t) <$> topics db;
            topics_seq := topics_seq db;
            modules := modules db; modules_seq := modules_seq db;
            videos := videos db; videos_seq := videos_seq db |}
  else None.

Definition cannot_delete (count : Z) : string :=
  String.append "Cannot delete category. It has "
    (String.append (Js.toString count)
       " subcategories. Please delete subcategories first.").

Definition deleted_message (name : string) : string :=
  String.append "Category '" (String.append name "' deleted successfully").

(** [router.delete('/categories/:id', ...)]. *)
Definition delete_category (id : string) (db : store) : Http.response * store :=
  match valid_id id with
  | None => (Http.fail 400 "Valid category ID is required", db)
  | Some categoryId =>
      match int4_of_Z categoryId with
      | None => (Http.server_error, db)
      | Some key =>
          match categories db !! key with
          | None => (Http.fail 404 "Category not found", db)
          | Some existing =>
              let subcategoryCount := subcategory_count key db in
              if 0 <? subcategoryCount
              then (Http.fail 400 (cannot_delete subcategoryCount), db)
              else
                match delete_category_row key db with
                | Some db' => (Http.ok (deleted_message (c_name existing)), db')
                | None => (Http.server_error, db)
                end
          end
      end
  end.

End Category.

(* ===================================================================== *)
(** * routes/topics.js: the slug allocator and POST /api/topics          *)
(* ===================================================================== *)

Module Slug.
Import Db.

(** The class [a-z0-9 -]. *)
Definition slug_char (c : ascii) : bool :=
  Js.is_lower c || Js.is_digit c || Ascii.eqb c " " || Ascii.eqb c "-".

(** [.replace(/[^a-z0-9 -]/g, '')]. *)
Fixpoint strip (s : string) : string :=
  match s with
  | EmptyString => EmptyString
  | String c r => if slug_char c then String c (strip r) else strip r
  end.

Definition starts_in (p : ascii → bool) (s : string) : bool :=
  match s with
  | String c _ => p c
  | EmptyString => false
  end.

(** [.replace(/p+/g, by)]: every maximal run of characters of the class [p]
    becomes one [by]; the run is replaced when its last character is
    reached. *)
Fixpoint replace_runs (p : ascii → bool) (by_ : ascii) (s : string) : string :=
  match s with
  | EmptyString => EmptyString
  | String c r =>
      if p c
      then if starts_in p r then replace_runs p by_ r
           else String by_ (replace_runs p by_ r)
      else String c (replace_runs p by_ r)
  end.

Definition is_hyphen (c : ascii) : bool := Ascii.eqb c "-".

Definition drop_leading_hyphen (s : string) : string :=
  match s with
  | String c r => if is_hyphen c then r else s
  | EmptyString => EmptyString
  end.

Fixpoint drop_trailing_hyphen (s : string) : string :=
  match s with
  | EmptyString => EmptyString
  | String c EmptyString => if is_hyphen c then EmptyString else s
  | String c r => String c (drop_trailing_hyphen r)
  end.

(** [.replace(/^-|-$/g, '')]: one hyphen at the start and one at the end. *)
Definition trim_hyphens (s : string) : string :=
  drop_trailing_hyphen (drop_leading_hyphen s).

(** [function generateSlug(title)]. *)
Definition generateSlug (title : string) : string :=
  trim_hyphens
    (replace_runs is_hyphen "-"
       (replace_runs Js.is_space "-"
          (strip (Js.toLowerCase title)))).

(** [`${baseSlug}-${counter}`]. *)
Definition suffixed (baseSlug : string) (counter : Z) : string :=
  String.append baseSlug (String "-" (Js.toString counter)).

Definition slugs (tbl : gmap Z topic_row) : list string :=
  (λ kv, t_slug kv.2) <$> map_to_list tbl.

(** [SELECT id FROM topics WHERE slug = $1] has a row. *)
Definition slug_taken (tbl : gmap Z topic_row) (slug : string) : bool :=
  bool_decide (slug ∈ slugs tbl).

(** The [while (true)] loop that looks for a free slug, cut off after
    [fuel] queries: [None] would be a loop still running. *)
Fixpoint slug_loop (taken : string → bool) (baseSlug : string)
    (fuel : nat) (slug : string) (counter : Z) : option string :=
  match fuel with
  | O => None
  | S fuel' =>
      if taken slug
      then slug_loop taken baseSlug fuel' (suffixed baseSlug counter) (counter + 1)
      else Some slug
  end.

(** The loop as the handlers start it: [slug = baseSlug], [counter = 1].
    One query more than there are rows is always enough (see
    [unique_slug_total]). *)
Definition unique_slug (tbl : gmap Z topic_row) (baseSlug : string) : option string :=
  slug_loop (slug_taken tbl) baseSlug (S (size tbl)) baseSlug 1.

(** The [k]-th slug the loop tries. *)
Definition candidate (baseSlug : string) (k : nat) : string :=
  match k with
  | O => baseSlug
  | S _ => suffixed baseSlug (Z.of_nat k)
  end.

(** What a slug looks like: every character is one of a-z, 0-9 or a hyphen,
    no two hyphens touch, and neither end is a hyphen. *)
Definition out_char (c : ascii) : bool :=
  Js.is_lower c || Js.is_digit c || is_hyphen c.

Fixpoint all_chars (p : ascii → bool) (s : string) : bool :=
  match s with
  | EmptyString => true
  | String c r => p c && all_chars p r
  end.

Fixpoint no_double_hyphen (s : string) : bool :=
  match s with
  | EmptyString => true
  | String c r => negb (is_hyphen c && starts_in is_hyphen r) && no_double_hyphen r
  end.

Fixpoint ends_in (p : ascii → bool) (s : string) : bool :=
  match s with
  | EmptyString => false
  | String c EmptyString => p c
  | String _ r => ends_in p r
  end.

Definition well_formed_slug (s : string) : Prop :=
  all_chars out_char s = true
  ∧ no_double_hyphen s = true
  ∧ starts_in is_hyphen s = false
  ∧ ends_in is_hyphen s = false.

End Slug.

Module Topics.
Import Db.

Definition set_topics (t : gmap Z topic_row) (seq : Z) (db : store) : store :=
  {| categories := categories db; subcategories := subcategories db;
     topics := t; topics_seq := seq;
     modules := modules db; modules_seq := modules_seq db;
     videos := videos db; videos_seq := videos_seq db |}.

Definition valid_topic_status (s : option string) : bool :=
  match s with
  | None => true
  | Some s => bool_decide (s ∈ ["draft"; "published"; "archived"])
  end.

(** [INSERT INTO topics (...) VALUES (...) RETURNING *]: the key comes from
    the sequence, which is consumed whether or not the row is accepted; the
    row is refused when title or slug exceed VARCHAR(255), when the status
    fails its CHECK, when the slug is already there (UNIQUE) or the key is. *)
Definition insert_topic (row : topic_row) (db : store) : option Z * store :=
  let id := topics_seq db in
  if fits_varchar 255 (t_title row) && fits_varchar 255 (t_slug row)
     && valid_topic_status (t_status row)
     && negb (Slug.slug_taken (topics db) (t_slug row))
     && bool_decide (topics db !! id = None)
  then (Some id, set_topics (<[id := row]> (topics db)) (id + 1) db)
  else (None, set_topics (topics db) (id + 1) db).

(** POST /api/topics for a body that carries a title and nothing else: every
    other field takes its default and the [modules] array is empty, so the
    transaction holds the one INSERT.  The 201 carries the slug of the new
    row. *)
Definition post_topics (now : Z) (title : option string) (db : store)
    : Http.response * store :=
  if Js.blank title then (Http.fail 400 "Title is required", db)
  else
    let title := default "" title in
    let baseSlug := Slug.generateSlug title in
    match Slug.unique_slug (topics db) baseSlug with
    | None => (Http.server_error, db)
    | Some slug =>
        match insert_topic {| t_title := Js.trim title; t_slug := slug;
                              t_status := Some "draft"; t_is_featured := false;
                              t_category_id := None; t_duration_minutes := 0;
                              t_published_at := None; t_updated_at := now |} db with
        | (Some id, db') => (Http.created slug, db')
        | (None, db') => (Http.server_error, db')
        end
    end.

End Topics.

(* ===================================================================== *)
(** * routes/topicsActions.js: publish and duplicate                     *)
(* ===================================================================== *)

Module TopicActions.
Import Db.

Definition with_status (status : option string) (published_at : option Z)
    (now : Z) (t : topic_row) : topic_row :=
  {| t_title := t_title t; t_slug := t_slug t; t_status := status;
     t_is_featured := t_is_featured t; t_category_id := t_category_id t;
     t_duration_minutes := t_duration_minutes t;
     t_published_at := published_at; t_updated_at := now |}.

(** [status != 'published'] in SQL: a NULL status compares to NULL, which a
    WHERE clause takes as false. *)
Definition status_differs (status : option string) (s : string) : bool :=
  match status with
  | Some x => negb (String.eqb x s)
  | None => false
  end.

(** [router.post('/topics/:id/publish', ...)]:
    [UPDATE topics SET status = 'published', published_at =
    CURRENT_TIMESTAMP, updated_at = CURRENT_TIMESTAMP WHERE id = $1 AND
    status != 'published' RETURNING ...], 404 when no row comes back. *)
Definition publish (now : Z) (id : string) (db : store) : Http.response * store :=
  match int4_of_string id with
  | None => (Http.server_error, db)
  | Some key =>
      match topics db !! key with
      | Some row =>
          if status_differs (t_status row) "published"
          then (Http.ok "published",
                Topics.set_topics
                  (<[key := with_status (Some "published") (Some now) now row]>
                     (topics db))
                  (topics_seq db) db)
          else (Http.fail 404 "Topic not found or already published", db)
      | None => (Http.fail 404 "Topic not found or already published", db)
      end
  end.

(** ** The INSERT of the duplicate route, as the text of its VALUES list *)

Inductive value_expr : Type :=
| Placeholder (n : nat)
| Literal (text : string).

(** A bound parameter.  [PColumn c] is the value that the original row holds
    in a column [c] which the store model does not keep. *)
Inductive param : Type :=
| PText (s : string)
| PInt (n : Z)
| PBoolean (b : bool)
| PNull
| PColumn (c : string).

Definition duplicate_columns : list string :=
  ["title"; "description"; "content"; "slug"; "category_id"; "subcategory_id";
   "difficulty"; "status"; "is_featured"; "is_free"; "price"; "duration_minutes";
   "thumbnail_url"; "tags"; "meta_title"; "meta_description"; "meta_keywords";
   "author_id"].

(** [$1, $2, $3, $4, $5, $6, $7, 'draft', false, $9, $10, $11, $12, $13, $14,
    $15, $16, $17]. *)
Definition duplicate_values : list value_expr :=
  [Placeholder 1; Placeholder 2; Placeholder 3; Placeholder 4; Placeholder 5;
   Placeholder 6; Placeholder 7; Literal "'draft'"; Literal "false";
   Placeholder 9; Placeholder 10; Placeholder 11; Placeholder 12;
   Placeholder 13; Placeholder 14; Placeholder 15; Placeholder 16;
   Placeholder 17].

Definition param_of_option_Z (v : option Z) : param :=
  match v with
  | Some n => PInt n
  | None => PNull
  end.

(** The array passed with the statement. *)
Definition duplicate_params (newTitle newSlug : string) (topic : topic_row)
    : list param :=
  [PText newTitle; PColumn "description"; PColumn "content"; PText newSlug;
   param_of_option_Z (t_category_id topic); PColumn "subcategory_id";
   PColumn "difficulty"; PColumn "is_free"; PColumn "price";
   PInt (t_duration_minutes topic); PColumn "thumbnail_url"; PColumn "tags";
   PColumn "meta_title"; PColumn "meta_description"; PColumn "meta_keywords";
   PColumn "author_id"].

Definition placeholders (values : list value_expr) : list nat :=
  omap (λ e, match e with Placeholder n => Some n | Literal _ => None end) values.

(** The number of parameters of a statement: the highest [$n] in it. *)
Definition params_required (values : list value_expr) : nat :=
  foldr Nat.max 0%nat (placeholders values).

(** The extended query protocol accepts a statement with its parameters when
    every parameter up to the highest [$n] occurs in the text (otherwise
    Parse cannot give it a type) and Bind supplies exactly that many. *)
Definition statement_binds (values : list value_expr) (supplied : nat) : bool :=
  forallb (λ i, bool_decide (i ∈ placeholders values))
    (seq 1 (params_required values))
  && (supplied =? params_required values)%nat.

(** The value a column receives once the statement is bound. *)
Definition resolve (params : list param) (e : value_expr) : option param :=
  match e with
  | Placeholder n => params !! pred n
  | Literal "'draft'" => Some (PText "draft")
  | Literal "false" => Some (PBoolean false)
  | Literal _ => None
  end.

Definition column_value (params : list param) (column : string) : option param :=
  i ← list_find (String.eqb column) duplicate_columns;
  e ← duplicate_values !! i.1;
  resolve params e.

(** The row of the columns the store keeps, when each receives a value of
    its type. *)
Definition duplicate_row (now : Z) (params : list param) : option topic_row :=
  match column_value params "title", column_value params "slug",
        column_value params "status", column_value params "is_featured",
        column_value params "duration_minutes" with
  | Some (PText title), Some (PText slug), Some (PText status),
    Some (PBoolean featured), Some (PInt minutes) =>
      category ← match column_value params "category_id" with
                 | Some (PInt c) => Some (Some c)
                 | Some PNull => Some None
                 | _ => None
                 end;
      Some {| t_title := title; t_slug := slug; t_status := Some status;
              t_is_featured := featured; t_category_id := category;
              t_duration_minutes := minutes; t_published_at := None;
              t_updated_at := now |}
  | _, _, _, _, _ => None
  end.

(** [${topic.title} (Copy)] *)
Definition copy_title (title : string) : string := String.append title " (Copy)".

(** [router.post('/topics/:id/duplicate', ...)]. *)
Definition duplicate (now : Z) (id : string) (db : store) : Http.response * store :=
  match int4_of_string id with
  | None => (Http.server_error, db)
  | Some key =>
      match topics db !! key with
      | None => (Http.fail 404 "Topic not found", db)
      | Some topic =>
          let newTitle := copy_title (t_title topic) in
          let baseSlug := Slug.generateSlug newTitle in
          match Slug.unique_slug (topics db) baseSlug with
          | None => (Http.server_error, db)
          | Some newSlug =>
              let params := duplicate_params newTitle newSlug topic in
              if statement_binds duplicate_values (length params)
              then
                match duplicate_row now params with
                | Some row =>
                    match Topics.insert_topic row db with
                    | (Some _, db') => (Http.created newSlug, db')
                    | (None, db') => (Http.server_error, db')
                    end
                | None => (Http.server_error, db)
                end
              else (Http.server_error, db)
          end
      end
  end.

End TopicActions.

(* ===================================================================== *)
(** * app.js and the routers: which handler a request reaches            *)
(* ===================================================================== *)

Module Router.
Import Db.

Inductive method : Type := GET | POST | PUT | DELETE.

Global Instance method_eq_dec : EqDecision method.
Proof. solve_decision. Defined.

(** One piece of a registered path: a literal or a [:name] parameter. *)
Inductive segment : Type :=
| Lit (s : string)
| Param (name : string).

(** Cut a path at its slashes. *)
Fixpoint split_slash (s : string) (current : string) : list string :=
  match s with
  | EmptyString => [current]
  | String c r =>
      if Ascii.eqb c "/" then current :: split_slash r EmptyString
      else split_slash r (String.append current (String c EmptyString))
  end.

Definition drop_empty_head (l : list string) : list string :=
  match l with
  | EmptyString :: r => r
  | _ => l
  end.

(** The pieces of a path: the empty piece before the leading slash and the
    one after a trailing slash do not count (routing is not strict); an
    empty piece between two slashes stays and matches nothing. *)
Definition pieces (path : string) : list string :=
  reverse (drop_empty_head (reverse (drop_empty_head (split_slash path EmptyString)))).

Definition segment_of (piece : string) : segment :=
  match piece with
  | String ":" name => Param name
  | _ => Lit piece
  end.

Record route : Type := {
  r_method : method;
  r_path : string
}.

Global Instance route_eq_dec : EqDecision route.
Proof. solve_decision. Defined.

(** [/^\/topics\/(?:([^\/]+?))\/?$/i]: a literal matches its piece whatever
    the case, a parameter takes any non-empty piece.  The piece is bound as
    it is written; Express passes it through [decodeURIComponent] first,
    which changes only a piece that holds '%'. *)
Fixpoint match_path (pattern : list segment) (request : list string)
    : option (list (string * string)) :=
  match pattern, request with
  | [], [] => Some []
  | Lit s :: pattern', piece :: request' =>
      if String.eqb (Js.toLowerCase s) (Js.toLowerCase piece)
      then match_path pattern' request'
      else None
  | Param name :: pattern', piece :: request' =>
      if String.eqb piece EmptyString then None
      else (λ binds, (name, piece) :: binds) <$> match_path pattern' request'
  | _, _ => None
  end.

Definition match_route (m : method) (request : list string) (r : route)
    : option (route * list (string * string)) :=
  if bool_decide (r_method r = m)
  then (λ binds, (r, binds)) <$> match_path (segment_of <$> pieces (r_path r)) request
  else None.

(** The first route of a router, in registration order, that matches. *)
Fixpoint first_match (m : method) (request : list string) (routes : list route)
    : option (route * list (string * string)) :=
  match routes with
  | [] => None
  | r :: rest =>
      match match_route m request r with
      | Some hit => Some hit
      | None => first_match m request rest
      end
  end.

(** [app.use(mount, router)]. *)
Record router : Type := {
  mount : string;
  file : string;
  routes : list route
}.

(** Take the mount path off the front of the request path. *)
Fixpoint strip_mount (mount request : list string) : option (list string) :=
  match mount, request with
  | [], _ => Some request
  | a :: mount', b :: request' =>
      if String.eqb (Js.toLowerCase a) (Js.toLowerCase b)
      then strip_mount mount' request' else None
  | _ :: _, [] => None
  end.

(** The routers are tried in the order of their [app.use]; no handler of the
    repository calls [next], so the first route that matches answers. *)
Fixpoint dispatch_in (routers : list router) (m : method) (request : list string)
    : option (string * route * list (string * string)) :=
  match routers with
  | [] => None
  | rt :: rest =>
      match strip_mount (pieces (mount rt)) request
              ≫= (λ inner, first_match m inner (routes rt)) with
      | Some (r, binds) => Some (file rt, r, binds)
      | None => dispatch_in rest m request
      end
  end.

Definition on (m : method) (path : string) : route :=
  {| r_method := m; r_path := path |}.

Definition customer_routes : list route :=
  [on GET "/users"; on POST "/users/add"; on GET "/users/delete/:id";
   on GET "/users/edit/:id"; on POST "/users/update/:id";
   on GET "/categories"; on POST "/categories/add";
   on GET "/categories/delete/:id"; on GET "/categories/edit/:id";
   on POST "/categories/update/:id";
   on GET "/subcategories"; on POST "/subcategories/add";
   on GET "/subcategories/delete/:id"; on GET "/subcategories/edit/:id";
   on POST "/subcategories/update/:id"].

Definition category_routes : list route :=
  [on GET "/categories"; on POST "/categories"; on PUT "/categories/:id";
   on DELETE "/categories/:id"].

Definition subcategory_routes : list route :=
  [on GET "/subcategories"; on POST "/subcategories"; on GET "/subcategories/:id";
   on PUT "/subcategories/:id"; on DELETE "/subcategories/:id"].

Definition terms_routes : list route :=
  [on GET "/terms"; on POST "/terms"; on GET "/terms/:id"; on PUT "/terms/:id";
   on DELETE "/terms/:id"; on POST "/terms/:id/publish"].

Definition privacy_routes : list route :=
  [on GET "/privacy"; on POST "/privacy"; on GET "/privacy/:id";
   on PUT "/privacy/:id"; on DELETE "/privacy/:id"; on POST "/privacy/:id/publish"].

Definition homepage_routes : list route :=
  [on GET "/homepage/:language"; on POST "/homepage/content";
   on POST "/homepage/faqs"; on PUT "/homepage/faqs/:id";
   on DELETE "/homepage/faqs/:id"].

(** routes/topics.js, in the order of its [router.METHOD] calls. *)
Definition topics_routes : list route :=
  [on GET "/topics"; on POST "/topics"; on GET "/topics/:id";
   on PUT "/topics/:id"; on DELETE "/topics/:id";
   on GET "/topics/subcategory/:subcategoryId";
   on GET "/topics/category/:categoryId";
   on DELETE "/topics/bulk-delete"; on GET "/topics/search";
   on GET "/topics/list"; on GET "/topics/count"; on GET "/topics/published";
   on GET "/topics/draft"; on GET "/topics/featured"; on GET "/topics/free";
   on GET "/topics/paid"; on GET "/topics/difficulty/:difficulty";
   on GET "/topics/tag/:tag"].

Definition topics_actions_routes : list route :=
  [on POST "/topics/:id/toggle-status"; on POST "/topics/:id/toggle-featured";
   on POST "/topics/:id/duplicate"; on POST "/topics/:id/publish";
   on POST "/topics/:id/archive"; on GET "/topics/export";
   on POST "/topics/import"].

Definition topics_modules_routes : list route :=
  [on GET "/topics/:topicId/modules"; on POST "/topics/:topicId/modules";
   on GET "/topics/:topicId/modules/:moduleId";
   on PUT "/topics/:topicId/modules/:moduleId";
   on DELETE "/topics/:topicId/modules/:moduleId";
   on POST "/topics/:topicId/modules/reorder"].

Definition topics_videos_routes : list route :=
  [on GET "/topics/:topicId/modules/:moduleId/videos";
   on POST "/topics/:topicId/modules/:moduleId/videos";
   on GET "/topics/:topicId/modules/:moduleId/videos/:videoId";
   on PUT "/topics/:topicId/modules/:moduleId/videos/:videoId";
   on DELETE "/topics/:topicId/modules/:moduleId/videos/:videoId";
   on POST "/topics/:topicId/modules/:moduleId/videos/upload";
   on POST "/topics/:topicId/modules/:moduleId/videos/upload-multiple";
   on POST "/topics/:topicId/modules/:moduleId/videos/reorder"].

(** The [app.use] calls of app.js up to the video routes, in order (the
    upload and auth routers come after them). *)
Definition app : list router :=
  [{| mount := "/"; file := "customer"; routes := customer_routes |};
   {| mount := "/api"; file := "category"; routes := category_routes |};
   {| mount := "/api"; file := "subcategory"; routes := subcategory_routes |};
   {| mount := "/api"; file := "terms-conditions"; routes := terms_routes |};
   {| mount := "/api"; file := "privacy-policies"; routes := privacy_routes |};
   {| mount := "/api"; file := "homepage"; routes := homepage_routes |};
   {| mount := "/api"; file := "topics"; routes := topics_routes |};
   {| mount := "/api"; file := "topicsActions"; routes := topics_actions_routes |};
   {| mount := "/api"; file := "topicsModules"; routes := topics_modules_routes |};
   {| mount := "/api"; file := "topicsVideos"; routes := topics_videos_routes |}].

Definition dispatch (m : method) (url : string)
    : option (string * route * list (string * string)) :=
  dispatch_in app m (pieces url).

(** The literal paths of the topic routers that have one piece after
    [/topics], with their method. *)
Definition dedicated : list (method * string) :=
  [(GET, "search"); (GET, "list"); (GET, "count"); (GET, "published");
   (GET, "draft"); (GET, "featured"); (GET, "free"); (GET, "paid");
   (GET, "export"); (DELETE, "bulk-delete")].

(** [GET /api/topics/:id]: the status it answers with.  The id goes into
    [WHERE t.id = $1] as it came. *)
Definition get_topic (id : string) (db : store) : Http.response * store :=
  match int4_of_string id with
  | None => (Http.server_error, db)
  | Some key =>
      match topics db !! key with
      | None => (Http.fail 404 "Topic not found", db)
      | Some _ => (Http.ok "topic", db)
      end
  end.

(** [DELETE /api/topics/:id]: the modules and videos of the topic go with it
    (ON DELETE CASCADE). *)
Definition delete_topic (id : string) (db : store) : Http.response * store :=
  match int4_of_string id with
  | None => (Http.server_error, db)
  | Some key =>
      match topics db !! key with
      | None => (Http.fail 404 "Topic not found", db)
      | Some _ =>
          (Http.ok "deleted",
           {| categories := categories db; subcategories := subcategories db;
              topics := delete key (topics db); topics_seq := topics_seq db;
              modules := filter (λ kv, m_topic_id kv.2 ≠ key) (modules db);
              modules_seq := modules_seq db;
              videos :=
                filter (λ kv, v_topic_id kv.2 ≠ key
                              ∧ m_topic_id <$> modules db !! v_module_id kv.2
                                ≠ Some key) (videos db);
              videos_seq := videos_seq db |})
      end
  end.

(** The handler behind [/topics/:id] for a method, where one is modelled
    here (PUT is [TopicPut.put_topic]). *)
Definition by_id_handler (m : method) (id : string) (db : store)
    : Http.response * store :=
  match m with
  | DELETE => delete_topic id db
  | _ => get_topic id db
  end.

End Router.

(* ===================================================================== *)
(** * routes/topics.js: PUT /api/topics/:id                              *)
(* ===================================================================== *)

Module Tx.
Import Db.

(** A statement run on the transaction's client: it finishes with a result
    and a store, or it raises.  A raise keeps the store it happened in,
    because ROLLBACK restores the tables and not the sequences. *)
Inductive outcome (A : Type) : Type :=
| Done (a : A) (s : store)
| Raised (s : store).
Arguments Done {A} a s.
Arguments Raised {A} s.

Definition tx (A : Type) : Type := store → outcome A.

Definition ret {A : Type} (a : A) : tx A := λ s, Done a s.

Definition raise {A : Type} : tx A := λ s, Raised s.

Definition bind {A B : Type} (m : tx A) (k : A → tx B) : tx B :=
  λ s, match m s with
       | Done a s' => k a s'
       | Raised s' => Raised s'
       end.

(** A parameter that must convert: [None] raises. *)
Definition coerce {A : Type} (v : option A) : tx A :=
  match v with
  | Some a => ret a
  | None => raise
  end.

(** ROLLBACK to the store at BEGIN, seen from the store of the raise. *)
Definition rollback (begin raised : store) : store :=
  {| categories := categories begin; subcategories := subcategories begin;
     topics := topics begin; topics_seq := topics_seq raised;
     modules := modules begin; modules_seq := modules_seq raised;
     videos := videos begin; videos_seq := videos_seq raised |}.

(** [post m s Q]: when [m] finishes from [s], its result and store satisfy
    [Q]. *)
Definition post {A : Type} (m : tx A) (s : store) (Q : A → store → Prop) : Prop :=
  match m s with
  | Done a s' => Q a s'
  | Raised _ => True
  end.

End Tx.

Notation "'let*' x ':=' m 'in' k" := (Tx.bind m (λ x, k))
  (at level 10, x name, m at level 100, k at level 200, only parsing).

Module TopicPut.
Import Db Tx.

(** ** The body *)

(** One entry of a [videos] array.  The text fields are a string or absent,
    [isPreview] a boolean or absent; [id], [duration] and [order] are kept
    as they came. *)
Record video_entry : Type := {
  ve_id : Js.value;
  ve_title : option string;
  ve_description : option string;
  ve_videoUrl : option string;
  ve_duration : Js.value;
  ve_order : Js.value;
  ve_videoType : option string;
  ve_isPreview : option bool
}.

(** One entry of the [modules] array; [me_videos] is [None] when the entry
    has no [videos] array. *)
Record module_entry : Type := {
  me_id : Js.value;
  me_title : option string;
  me_description : option string;
  me_order : Js.value;
  me_videos : option (list video_entry)
}.

(** [s || d] for a field that is a string or absent. *)
Definition str_or (s : option string) (d : string) : string :=
  match s with
  | Some x => if String.eqb x "" then d else x
  | None => d
  end.

(** [id && typeof id === 'string' && id.startsWith('new-')]. *)
Definition is_placeholder (id : Js.value) : bool :=
  match id with
  | Js.JStr s => Js.truthy id && Js.startsWith s "new-"
  | _ => false
  end.

(** [id && !isNaN(parseInt(id))], with the number. *)
Definition numeric_id (id : Js.value) : option Z :=
  if Js.truthy id then Js.parseInt id else None.

(** [entry.order || index + 1], bound to an INTEGER column. *)
Definition order_index (order : Js.value) (index : Z) : option Z :=
  mjoin (int4_param (Js.or_else order (Js.JNum (index + 1)))).

(** [videoData.duration ? parseInt(videoData.duration) * 60 : 0], bound to
    an INTEGER column: NaN does not convert. *)
Definition durationSeconds (duration : Js.value) : option Z :=
  if Js.truthy duration
  then n ← Js.parseInt duration; int4_of_Z (n * 60)
  else Some 0.

Definition validVideoTypes : list string := ["mp4"; "youtube"; "vimeo"; "stream"].

(** ** The statements of the transaction *)

Definition set_modules (m : gmap Z module_row) (seq : Z) (s : store) : store :=
  {| categories := categories s; subcategories := subcategories s;
     topics := topics s; topics_seq := topics_seq s;
     modules := m; modules_seq := seq;
     videos := videos s; videos_seq := videos_seq s |}.

Definition set_videos (v : gmap Z video_row) (seq : Z) (s : store) : store :=
  {| categories := categories s; subcategories := subcategories s;
     topics := topics s; topics_seq := topics_seq s;
     modules := modules s; modules_seq := modules_seq s;
     videos := v; videos_seq := seq |}.

(** [SELECT id FROM topic_modules WHERE topic_id = $1]. *)
Definition module_ids (topic : Z) : tx (list Z) :=
  λ s, Done (map_to_list (filter (λ kv, m_topic_id kv.2 = topic) (modules s))).*1 s.

(** [SELECT id FROM topic_videos WHERE module_id = $1]. *)
Definition video_ids (module : Z) : tx (list Z) :=
  λ s, Done (map_to_list (filter (λ kv, v_module_id kv.2 = module) (videos s))).*1 s.

(** [INSERT INTO topic_modules (...) VALUES ($1, ..., 0, true) RETURNING id].
    The sequence value is consumed in any case. *)
Definition insert_module (row : module_row) : tx Z :=
  λ s, let id := modules_seq s in
       if int4_range id && fits_varchar 255 (m_title row)
          && bool_decide (is_Some (topics s !! m_topic_id row))
          && bool_decide (modules s !! id = None)
       then Done id (set_modules (<[id := row]> (modules s)) (id + 1) s)
       else Raised (set_modules (modules s) (id + 1) s).

(** The column constraints of [topic_videos]. *)
Definition video_columns_ok (row : video_row) : bool :=
  fits_varchar 255 (v_title row) && fits_varchar 20 (v_video_type row)
  && bool_decide (v_video_type row ∈ validVideoTypes).

(** Its foreign keys. *)
Definition video_references_ok (row : video_row) (s : store) : bool :=
  bool_decide (is_Some (topics s !! v_topic_id row))
  && bool_decide (is_Some (modules s !! v_module_id row)).

(** [INSERT INTO topic_videos (...) VALUES (...) RETURNING id]. *)
Definition insert_video (row : video_row) : tx Z :=
  λ s, let id := videos_seq s in
       if int4_range id && video_columns_ok row && video_references_ok row s
          && bool_decide (videos s !! id = None)
       then Done id (set_videos (<[id := row]> (videos s)) (id + 1) s)
       else Raised (set_videos (videos s) (id + 1) s).

(** [UPDATE topic_modules SET title = $1, description = $2, order_index =
    $3, updated_at = CURRENT_TIMESTAMP WHERE id = $4 AND topic_id = $5]. *)
Definition update_module (now : Z) (title description : string) (order : Z)
    (id topic : Z) : tx unit :=
  λ s, match modules s !! id with
       | Some row =>
           if bool_decide (m_topic_id row = topic)
           then if fits_varchar 255 title
                then Done () (set_modules
                                (<[id := {| m_topic_id := m_topic_id row;
                                            m_title := title;
                                            m_description := description;
                                            m_order_index := order;
                                            m_duration_minutes := m_duration_minutes row;
                                            m_is_active := m_is_active row;
                                            m_updated_at := now |}]> (modules s))
                                (modules_seq s) s)
                else Raised s
           else Done () s
       | None => Done () s
       end.

(** [UPDATE topic_videos SET title = $1, ..., is_preview = $7, updated_at =
    CURRENT_TIMESTAMP WHERE id = $8 AND module_id = $9]; [new] holds the
    seven values. *)
Definition update_video (new : video_row) (id module : Z) : tx unit :=
  λ s, match videos s !! id with
       | Some row =>
           if bool_decide (v_module_id row = module)
           then let row' := {| v_topic_id := v_topic_id row;
                               v_module_id := v_module_id row;
                               v_title := v_title new;
                               v_description := v_description new;
                               v_video_url := v_video_url new;
                               v_video_type := v_video_type new;
                               v_duration_seconds := v_duration_seconds new;
                               v_order_index := v_order_index new;
                               v_is_preview := v_is_preview new;
                               v_updated_at := v_updated_at new |} in
                if video_columns_ok row'
                then Done () (set_videos (<[id := row']> (videos s)) (videos_seq s) s)
                else Raised s
           else Done () s
       | None => Done () s
       end.

(** [DELETE FROM topic_videos WHERE id = $1]. *)
Definition delete_video (id : Z) : tx unit :=
  λ s, Done () (set_videos (delete id (videos s)) (videos_seq s) s).

(** [DELETE FROM topic_modules WHERE id = $1]; the videos of the module go
    with it (ON DELETE CASCADE). *)
Definition delete_module (id : Z) : tx unit :=
  λ s, Done () (set_videos
                  (filter (λ kv, v_module_id kv.2 ≠ id) (videos s))
                  (videos_seq s)
                  (set_modules (delete id (modules s)) (modules_seq s) s)).

Fixpoint for_each {A : Type} (f : A → tx unit) (l : list A) : tx unit :=
  match l with
  | [] => ret ()
  | x :: r => let* _ := f x in for_each f r
  end.

(** [const index = ids.indexOf(n); if (index > -1) ids.splice(index, 1)]. *)
Fixpoint remove_first (n : Z) (ids : list Z) : list Z :=
  match ids with
  | [] => []
  | x :: r => if bool_decide (x = n) then r else x :: remove_first n r
  end.

(** ** The nested reconciliation *)

(** The nine values of a video INSERT, or the seven of a video UPDATE. *)
Definition video_values (now topic module : Z) (index : Z) (v : video_entry)
    : option video_row :=
  seconds ← durationSeconds (ve_duration v);
  order ← order_index (ve_order v) index;
  Some {| v_topic_id := topic; v_module_id := module;
          v_title := str_or (ve_title v) "Untitled Video";
          v_description := Some (str_or (ve_description v) "");
          v_video_url := Some (str_or (ve_videoUrl v) "");
          v_video_type := str_or (ve_videoType v) "mp4";
          v_duration_seconds := seconds;
          v_order_index := order;
          v_is_preview := default false (ve_isPreview v);
          v_updated_at := now |}.

(** One video entry of a module that was just inserted: only a placeholder
    entry does anything. *)
Definition new_module_video (now topic module : Z) (index : Z)
    (v : video_entry) : tx unit :=
  if is_placeholder (ve_id v)
  then let* row := coerce (video_values now topic module index v) in
       let* _ := insert_video row in
       ret ()
  else ret ().

Fixpoint new_module_videos (now topic module : Z) (index : Z)
    (vs : list video_entry) : tx unit :=
  match vs with
  | [] => ret ()
  | v :: rest =>
      let* _ := new_module_video now topic module index v in
      new_module_videos now topic module (index + 1) rest
  end.

(** One video entry of a module that was matched: a placeholder entry is
    inserted, a numeric one updated and struck off [existingVideoIds], any
    other skipped. *)
Definition existing_module_video (now topic : Z) (moduleId : Z) (index : Z)
    (v : video_entry) (existingVideoIds : list Z) : tx (list Z) :=
  if is_placeholder (ve_id v)
  then let* row := coerce (video_values now topic moduleId index v) in
       let* _ := insert_video row in
       ret existingVideoIds
  else match numeric_id (ve_id v) with
       | Some videoIdNum =>
           let* row := coerce (video_values now topic moduleId index v) in
           let* id := coerce (mjoin (int4_param (ve_id v))) in
           let* _ := update_video row id moduleId in
           ret (remove_first videoIdNum existingVideoIds)
       | None => ret existingVideoIds
       end.

Fixpoint existing_module_videos (now topic : Z) (moduleId : Z) (index : Z)
    (vs : list video_entry) (existingVideoIds : list Z) : tx (list Z) :=
  match vs with
  | [] => ret existingVideoIds
  | v :: rest =>
      let* ids := existing_module_video now topic moduleId index v
                    existingVideoIds in
      existing_module_videos now topic moduleId (index + 1) rest ids
  end.

(** The six values of a module INSERT. *)
Definition new_module_row (now topic order : Z) (m : module_entry) : module_row :=
  {| m_topic_id := topic; m_title := str_or (me_title m) "Untitled Module";
     m_description := str_or (me_description m) "";
     m_order_index := order; m_duration_minutes := 0;
     m_is_active := true; m_updated_at := now |}.

(** The body of [for (const [moduleIndex, moduleData] of ...)]. *)
Definition reconcile_module (now topic : Z) (index : Z) (m : module_entry)
    (existingModuleIds : list Z) : tx (list Z) :=
  if is_placeholder (me_id m)
  then
    let* order := coerce (order_index (me_order m) index) in
    let* moduleId := insert_module (new_module_row now topic order m) in
    let* _ := match me_videos m with
              | Some vs => new_module_videos now topic moduleId 0 vs
              | None => ret ()
              end in
    ret existingModuleIds
  else
    match numeric_id (me_id m) with
    | Some moduleIdNum =>
        let* order := coerce (order_index (me_order m) index) in
        let* moduleId := coerce (mjoin (int4_param (me_id m))) in
        let* _ := update_module now (str_or (me_title m) "Untitled Module")
                    (str_or (me_description m) "") order moduleId topic in
        let* _ := match me_videos m with
                  | Some vs =>
                      let* existingVideoIds := video_ids moduleId in
                      let* left := existing_module_videos now topic moduleId 0 vs
                                     existingVideoIds in
                      for_each delete_video left
                  | None => ret ()
                  end in
        ret (remove_first moduleIdNum existingModuleIds)
    | None => ret existingModuleIds
    end.

Fixpoint reconcile_modules (now topic : Z) (index : Z) (ms : list module_entry)
    (existingModuleIds : list Z) : tx (list Z) :=
  match ms with
  | [] => ret existingModuleIds
  | m :: rest =>
      let* ids := reconcile_module now topic index m existingModuleIds in
      reconcile_modules now topic (index + 1) rest ids
  end.

(** Everything between BEGIN and COMMIT.  (After a video whose URL starts
    with /api/uploads/ the handler also links the file in the [uploads]
    table; that statement touches no other table and [uploads] is not part
    of the store.) *)
Definition reconcile (now topic : Z) (ms : list module_entry) : tx unit :=
  let* existingModuleIds := module_ids topic in
  let* left := reconcile_modules now topic 0 ms existingModuleIds in
  for_each delete_module left.

(** ** What a payload names *)

(** The ids that the matched entries of a [modules] array strike off
    [existingModuleIds]. *)
Definition kept_modules (ms : list module_entry) : list Z :=
  omap (λ m, if is_placeholder (me_id m) then None else numeric_id (me_id m)) ms.

Definition kept_videos (vs : list video_entry) : list Z :=
  omap (λ v, if is_placeholder (ve_id v) then None else numeric_id (ve_id v)) vs.

(** The number of placeholder entries. *)
Definition minted (ms : list module_entry) : Z :=
  Z.of_nat (length (filter (λ m, is_placeholder (me_id m) = true) ms)).

(** The topic a module id belongs to, if the row is there; the module a
    video id belongs to. *)
Definition topic_of (s : store) (k : Z) : option Z := m_topic_id <$> modules s !! k.

Definition module_of (s : store) (k : Z) : option Z := v_module_id <$> videos s !! k.

(** ** Relations between the stores of a transaction *)

(** A step that leaves the module table and its sequence alone. *)
Definition keeps_modules (s s' : store) : Prop :=
  modules s' = modules s ∧ modules_seq s' = modules_seq s
  ∧ topics s' = topics s.

(** From [s] to [s'] the module table gained rows of [topic] under the keys
    that the sequence gave out, which were free, and no other key changed
    the topic it belongs to. *)
Definition grows (topic : Z) (s s' : store) : Prop :=
  modules_seq s ≤ modules_seq s'
  ∧ (∀ k, modules_seq s ≤ k < modules_seq s' → topic_of s k = None)
  ∧ (∀ k, topic_of s' k
          = if bool_decide (modules_seq s ≤ k < modules_seq s')
            then Some topic else topic_of s k).

(** From [s] to [s'] a video key that the sequence had already passed is
    either gone or still in its module. *)
Definition ages (s s' : store) : Prop :=
  videos_seq s ≤ videos_seq s'
  ∧ (∀ k, k < videos_seq s →
          module_of s' k = None ∨ module_of s' k = module_of s k).

(** What one module entry strikes off [existingModuleIds], and one video
    entry off [existingVideoIds]. *)
Definition strike_module (ids : list Z) (m : module_entry) : list Z :=
  if is_placeholder (me_id m) then ids
  else match numeric_id (me_id m) with
       | Some n => remove_first n ids
       | None => ids
       end.

Definition strike_video (ids : list Z) (v : video_entry) : list Z :=
  if is_placeholder (ve_id v) then ids
  else match numeric_id (ve_id v) with
       | Some n => remove_first n ids
       | None => ids
       end.


(** ** The scalar fields *)

(** [key.replace(/([A-Z])/g, '_$1').toLowerCase()]. *)
Fixpoint camel_to_snake (key : string) : string :=
  match key with
  | EmptyString => EmptyString
  | String c r =>
      if Js.is_upper c
      then String "_" (String (Js.lower_char c) (camel_to_snake r))
      else String (Js.lower_char c) (camel_to_snake r)
  end.

Definition allowedFields : list string :=
  ["title"; "description"; "content"; "slug"; "category_id"; "subcategory_id";
   "difficulty"; "status"; "is_featured"; "is_free"; "price"; "duration_minutes";
   "thumbnail_url"; "tags"; "meta_title"; "meta_description"; "meta_keywords";
   "author_id"; "emoji"; "learning_objectives"; "target_audience";
   "prerequisites"].

(** A value pushed on [updateValues]: a body value as it is, or the text of
    [JSON.stringify(value || [])]. *)
Inductive bound : Type :=
| Raw (v : Js.value)
| Json (v : Js.value).

(** [.replace(/-/g, ' ')]. *)
Fixpoint hyphens_to_spaces (s : string) : string :=
  match s with
  | EmptyString => EmptyString
  | String c r =>
      String (if Ascii.eqb c "-" then " "%char else c) (hyphens_to_spaces r)
  end.

(** [SELECT id FROM t WHERE LOWER(name) = LOWER($1)], first row (LOWER as in
    the C locale, on A-Z). *)
Definition id_by_name (names : list (Z * string)) (name : string) : option Z :=
  fst <$> head (filter (λ kv, Js.toLowerCase kv.2 = Js.toLowerCase name) names).

(** The two name queries of the [category] and [subcategory] keys: the
    value with its hyphens turned to spaces and its words capitalised (which
    LOWER undoes), then the value itself. *)
Definition resolve_name (names : list (Z * string)) (value : string) : option Z :=
  match id_by_name names (hyphens_to_spaces value) with
  | Some id => Some id
  | None => id_by_name names value
  end.

(** A [category] or [subcategory] value: a string that parses as a number
    is that number, any other string is looked up by name ([None] is the
    [continue] of a name that is not found), any other value stays. *)
Definition reference_value (names : list (Z * string)) (value : Js.value)
    : option Js.value :=
  match value with
  | Js.JStr v =>
      match Js.parseInt_string v with
      | Some n => Some (Js.JNum n)
      | None => Js.JNum <$> resolve_name names v
      end
  | _ => Some value
  end.

Definition category_names (s : store) : list (Z * string) :=
  prod_map id c_name <$> map_to_list (categories s).

Definition subcategory_names (s : store) : list (Z * string) :=
  prod_map id s_name <$> map_to_list (subcategories s).

Definition lookup_field (key : string) (fields : list (string * Js.value))
    : Js.value :=
  default Js.JUndef (snd <$> head (filter (λ kv, kv.1 = key) fields)).

(** [updateData[key] = v]: in place when the key is there, at the end
    otherwise. *)
Fixpoint set_field (key : string) (v : Js.value)
    (fields : list (string * Js.value)) : list (string * Js.value) :=
  match fields with
  | [] => [(key, v)]
  | (k, x) :: r =>
      if String.eqb k key then (k, v) :: r else (k, x) :: set_field key v r
  end.

Section Handler.

(** What the server makes of the dynamic [UPDATE topics SET ... WHERE id =
    $n RETURNING *] once its columns and values are fixed: the new topics
    table, or [None] when the statement raises. *)
Variable exec_update :
  list (string * bound) → Z → gmap Z topic_row → option (gmap Z topic_row).

(** [Math.round(parseFloat(s) * 60)], [None] when [parseFloat(s)] is NaN. *)
Variable minutes_of_hours : string → option Z.

(** One turn of [for (const [key, value] of Object.entries(updateData))]:
    the column and value it pushes, if any. *)
Definition update_field (s : store) (entry : string * Js.value)
    : option (string * bound) :=
  let '(key, value) := entry in
  let plain := (camel_to_snake key, value) in
  let renamed :=
    if String.eqb key "featured" then Some ("is_featured", value)
    else if String.eqb key "thumbnail" then Some ("thumbnail_url", value)
    else if String.eqb key "category"
    then pair "category_id" <$> reference_value (category_names s) value
    else if String.eqb key "subcategory"
    then pair "subcategory_id" <$> reference_value (subcategory_names s) value
    else if String.eqb key "duration"
    then match value with
         | Js.JStr v =>
             match minutes_of_hours v with
             | Some m => Some ("duration_minutes", Js.JNum m)
             | None => Some plain
             end
         | _ => Some plain
         end
    else Some plain in
  '(dbField, current) ← renamed;
  if bool_decide (dbField ∈ allowedFields)
  then Some (dbField,
             if String.eqb key "tags" || String.eqb key "targetAudience"
             then Json value else Raw current)
  else None.

Definition update_fields (s : store) (fields : list (string * Js.value))
    : list (string * bound) :=
  omap (update_field s) fields.

Record body : Type := {
  fields : list (string * Js.value);
  modules_array : option (list module_entry)
}.

(** The title branch: [Some fields'] carries the regenerated slug when the
    title changes; [None] is the TypeError of a title that is not a string,
    or a loop that never ends. *)
Definition with_slug (key : Z) (existing : topic_row) (tbl : gmap Z topic_row)
    (fields : list (string * Js.value)) : option (list (string * Js.value)) :=
  let title := lookup_field "title" fields in
  if Js.truthy title
  then match title with
       | Js.JStr t =>
           if String.eqb t (t_title existing) then Some fields
           else
             slug ← Slug.unique_slug (delete key tbl) (Slug.generateSlug t);
             Some (set_field "slug" (Js.JStr slug) fields)
       | _ => None
       end
  else Some fields.

(** [router.put('/topics/:id', ...)]. *)
Definition put_topic (now : Z) (id : string) (b : body) (db : store)
    : Http.response * store :=
  match int4_of_string id with
  | None => (Http.server_error, db)
  | Some key =>
      match topics db !! key with
      | None => (Http.fail 404 "Topic not found", db)
      | Some existing =>
          match with_slug key existing (topics db) (fields b) with
          | None => (Http.server_error, db)
          | Some fields' =>
              match update_fields db fields' with
              | [] => (Http.fail 400 "No valid fields to update", db)
              | updates =>
                  match exec_update updates key (topics db) with
                  | None => (Http.server_error, db)
                  | Some topics' =>
                      let updated := Topics.set_topics topics' (topics_seq db) db in
                      match modules_array b with
                      | None => (Http.ok "updated", updated)
                      | Some ms =>
                          match reconcile now key ms updated with
                          | Done _ committed => (Http.ok "updated", committed)
                          | Raised s => (Http.server_error, rollback updated s)
                          end
                      end
                  end
              end
          end
      end
  end.

End Handler.

End TopicPut.

(* ===================================================================== *)
(** * routes/topicsVideos.js: the video routes                           *)
(* ===================================================================== *)

Module Videos.
Import Db Tx.

Definition total (l : list Z) : Z := foldr Z.add 0 l.

(** [SELECT COALESCE(SUM(duration_seconds), 0) / 60 FROM topic_videos WHERE
    module_id = $1]: the division is the integer one. *)
Definition module_minutes (module : Z) (s : store) : Z :=
  Z.quot
    (total ((λ kv, v_duration_seconds kv.2)
              <$> map_to_list (filter (λ kv, v_module_id kv.2 = module) (videos s))))
    60.

(** [SELECT COALESCE(SUM(tm.duration_minutes), 0) FROM topic_modules tm
    WHERE tm.topic_id = $1]. *)
Definition topic_minutes (topic : Z) (s : store) : Z :=
  total ((λ kv, m_duration_minutes kv.2)
           <$> map_to_list (filter (λ kv, m_topic_id kv.2 = topic) (modules s))).

(** [UPDATE topic_modules SET duration_minutes = (...), updated_at =
    CURRENT_TIMESTAMP WHERE id = $1]. *)
Definition update_module_duration (now module : Z) : tx unit :=
  λ s, match modules s !! module with
       | Some row =>
           match int4_of_Z (module_minutes module s) with
           | Some minutes =>
               Done () (TopicPut.set_modules
                          (<[module := {| m_topic_id := m_topic_id row;
                                          m_title := m_title row;
                                          m_description := m_description row;
                                          m_order_index := m_order_index row;
                                          m_duration_minutes := minutes;
                                          m_is_active := m_is_active row;
                                          m_updated_at := now |}]> (modules s))
                          (modules_seq s) s)
           | None => Raised s
           end
       | None => Done () s
       end.

(** [UPDATE topics SET duration_minutes = (...), updated_at =
    CURRENT_TIMESTAMP WHERE id = $1]. *)
Definition update_topic_duration (now topic : Z) : tx unit :=
  λ s, match topics s !! topic with
       | Some row =>
           match int4_of_Z (topic_minutes topic s) with
           | Some minutes =>
               Done () (Topics.set_topics
                          (<[topic := {| t_title := t_title row; t_slug := t_slug row;
                                         t_status := t_status row;
                                         t_is_featured := t_is_featured row;
                                         t_category_id := t_category_id row;
                                         t_duration_minutes := minutes;
                                         t_published_at := t_published_at row;
                                         t_updated_at := now |}]> (topics s))
                          (topics_seq s) s)
           | None => Raised s
           end
       | None => Done () s
       end.

(** What the specification asks of the two denormalised columns. *)
Definition module_duration_ok (module : Z) (s : store) : Prop :=
  match modules s !! module with
  | Some row => m_duration_minutes row = module_minutes module s
  | None => True
  end.

Definition topic_duration_ok (topic : Z) (s : store) : Prop :=
  match topics s !! topic with
  | Some row => t_duration_minutes row = topic_minutes topic s
  | None => True
  end.

(** [SELECT id FROM topic_modules WHERE id = $1 AND topic_id = $2] has a
    row. *)
Definition module_in_topic (module topic : Z) (s : store) : bool :=
  bool_decide (TopicPut.topic_of s module = Some topic).

(** [SELECT COALESCE(MAX(order_index), 0) + 1 FROM topic_videos WHERE
    module_id = $1]. *)
Definition next_order (module : Z) (s : store) : Z :=
  foldr Z.max 0
    ((λ kv, v_order_index kv.2)
       <$> map_to_list (filter (λ kv, v_module_id kv.2 = module) (videos s)))
  + 1.

(** The JSON body of POST .../videos.  The text fields are a string or
    absent, [isPreview] a boolean or absent; [None] for [videoType] is a
    missing key, which takes the default 'mp4'. *)
Record post_body : Type := {
  pb_title : option string;
  pb_description : option string;
  pb_videoUrl : option string;
  pb_videoType : option string;
  pb_durationSeconds : Js.value;
  pb_orderIndex : Js.value;
  pb_isPreview : option bool
}.

Definition text_or_null (s : option string) : option string :=
  match s with
  | Some x => if String.eqb x "" then None else Some x
  | None => None
  end.

(** [router.post('/topics/:topicId/modules/:moduleId/videos', ...)]. *)
Definition post_video (now : Z) (topicId moduleId : string) (b : post_body)
    (db : store) : Http.response * store :=
  if Js.blank (pb_title b) then (Http.fail 400 "Video title is required", db)
  else
    match int4_of_string moduleId, int4_of_string topicId with
    | Some module, Some topic =>
        if module_in_topic module topic db then
          let videoOrder :=
            if Js.truthy (pb_orderIndex b) then mjoin (int4_param (pb_orderIndex b))
            else int4_of_Z (next_order module db) in
          let videoType := default "mp4" (pb_videoType b) in
          if bool_decide (videoType ∈ TopicPut.validVideoTypes) then
            let seconds :=
              match pb_durationSeconds b with
              | Js.JUndef => Some 0
              | v => Js.parseInt v ≫= int4_of_Z
              end in
            match seconds, videoOrder with
            | Some seconds, Some order =>
                match TopicPut.insert_video
                        {| v_topic_id := topic; v_module_id := module;
                           v_title := Js.trim (default "" (pb_title b));
                           v_description := text_or_null (pb_description b);
                           v_video_url := text_or_null (pb_videoUrl b);
                           v_video_type := videoType;
                           v_duration_seconds := seconds;
                           v_order_index := order;
                           v_is_preview := default false (pb_isPreview b);
                           v_updated_at := now |} db with
                | Done _ db' => (Http.created "video", db')
                | Raised db' => (Http.server_error, db')
                end
            | _, _ => (Http.server_error, db)
            end
          else (Http.fail 400 "Invalid video type", db)
        else (Http.fail 404 "Module not found", db)
    | _, _ => (Http.server_error, db)
    end.

(** [router.delete('/topics/:topicId/modules/:moduleId/videos/:videoId',
    ...)]. *)
Definition delete_video (moduleId videoId : string) (db : store)
    : Http.response * store :=
  match int4_of_string videoId, int4_of_string moduleId with
  | Some video, Some module =>
      if bool_decide (TopicPut.module_of db video = Some module)
      then match TopicPut.delete_video video db with
           | Done _ db' => (Http.ok "deleted", db')
           | Raised db' => (Http.server_error, db')
           end
      else (Http.fail 404 "Video not found", db)
  | _, _ => (Http.server_error, db)
  end.

(** The statements of POST .../videos/upload once the file and the title
    are accepted and the topic and module are found: the video row, then the
    two duration columns.  ([seconds] is [parseFloat(duration) * 60]; the
    row of the [uploads] table that follows is not modelled.) *)
Definition save_upload (now topic module : Z) (title description url : string)
    (seconds order : Z) : tx Z :=
  let* id := TopicPut.insert_video
               {| v_topic_id := topic; v_module_id := module; v_title := title;
                  v_description := Some description; v_video_url := Some url;
                  v_video_type := "mp4"; v_duration_seconds := seconds;
                  v_order_index := order; v_is_preview := false;
                  v_updated_at := now |} in
  let* _ := update_module_duration now module in
  let* _ := update_topic_duration now topic in
  ret id.

End Videos.

(* ===================================================================== *)
(** * routes/topics.js: the turn of each entry in PUT /api/topics/:id    *)
(* ===================================================================== *)

Module PutTurns.
Import Db Tx TopicPut.








End PutTurns.

(* ===================================================================== *)
(** * routes/topicsActions.js: toggle-status, toggle-featured, archive   *)
(* ===================================================================== *)

Module TopicToggles.
Import Db.

(** The [switch (currentStatus)] of toggle-status: draft, published,
    archived and round again; the [default] branch (a NULL status, the only
    other value the CHECK lets in) gives draft. *)
Definition next_status (currentStatus : option string) : string :=
  match currentStatus with
  | Some s =>
      if String.eqb s "draft" then "published"
      else if String.eqb s "published" then "archived"
      else if String.eqb s "archived" then "draft"
      else "draft"
  | None => "draft"
  end.

(** [newStatus === 'published' && currentStatus !== 'published']. *)
Definition publishes (newStatus : string) (currentStatus : option string) : bool :=
  String.eqb newStatus "published"
  && negb (bool_decide (currentStatus = Some "published")).

(** [router.post('/topics/:id/toggle-status', ...)]: the SELECT of the
    status, 404 when there is no row, then [UPDATE topics SET status = $1,
    updated_at = CURRENT_TIMESTAMP (, published_at = CURRENT_TIMESTAMP)
    WHERE id = $2].  The 200 carries the new status. *)
Definition toggle_status (now : Z) (id : string) (db : store)
    : Http.response * store :=
  match int4_of_string id with
  | None => (Http.server_error, db)
  | Some key =>
      match topics db !! key with
      | None => (Http.fail 404 "Topic not found", db)
      | Some row =>
          let currentStatus := t_status row in
          let newStatus := next_status currentStatus in
          let published_at :=
            if publishes newStatus currentStatus then Some now
            else t_published_at row in
          (Http.ok newStatus,
           Topics.set_topics
             (<[key := TopicActions.with_status (Some newStatus) published_at
                         now row]> (topics db))
             (topics_seq db) db)
      end
  end.

(** The two columns of [topics] that toggle-featured reads and writes:
    is_featured BOOLEAN DEFAULT false, which a row may hold as NULL, and
    updated_at.  The statement touches no other column, so the table is
    kept as the map from the id to these two. *)
Record featured_row : Type := {
  f_is_featured : option bool;
  f_updated_at : Z
}.

(** SQL [NOT]: NULL stays NULL. *)
Definition sql_not (b : option bool) : option bool := negb <$> b.

(** [router.post('/topics/:id/toggle-featured', ...)]: [UPDATE topics SET
    is_featured = NOT is_featured, updated_at = CURRENT_TIMESTAMP WHERE id =
    $1 RETURNING ...], 404 when no row comes back. *)
Definition toggle_featured (now : Z) (id : string) (tbl : gmap Z featured_row)
    : Http.response * gmap Z featured_row :=
  match int4_of_string id with
  | None => (Http.server_error, tbl)
  | Some key =>
      match tbl !! key with
      | None => (Http.fail 404 "Topic not found", tbl)
      | Some row =>
          (Http.ok "featured",
           <[key := {| f_is_featured := sql_not (f_is_featured row);
                       f_updated_at := now |}]> tbl)
      end
  end.

(** [router.post('/topics/:id/archive', ...)]: [UPDATE topics SET status =
    'archived', updated_at = CURRENT_TIMESTAMP WHERE id = $1 AND status !=
    'archived' RETURNING ...], 404 when no row comes back. *)
Definition archive (now : Z) (id : string) (db : store) : Http.response * store :=
  match int4_of_string id with
  | None => (Http.server_error, db)
  | Some key =>
      match topics db !! key with
      | Some row =>
          if TopicActions.status_differs (t_status row) "archived"
          then (Http.ok "archived",
                Topics.set_topics
                  (<[key := TopicActions.with_status (Some "archived")
                              (t_published_at row) now row]> (topics db))
                  (topics_seq db) db)
          else (Http.fail 404 "Topic not found or already archived", db)
      | None => (Http.fail 404 "Topic not found or already archived", db)
      end
  end.

End TopicToggles.

(* ===================================================================== *)
(** * routes/topicsActions.js: POST /api/topics/import                   *)
(* ===================================================================== *)

Module TopicsImport.
Import Db.

(** One entry of the [topics] array that carries a title and a status and
    no other key, so that every other column takes the default the handler
    gives it ([null], 'beginner', [false], [true], 0, '[]').  The title is
    kept as it came; the status is a string or absent. *)
Record entry : Type := {
  ie_title : Js.value;
  ie_status : option string
}.

(** [topic.title.toLowerCase().replace(/[^a-z0-9 -]/g, '').replace(/\s+/g,
    '-')]: the hyphen runs and the hyphens at the ends stay. *)
Definition baseSlug (title : string) : string :=
  Slug.replace_runs Js.is_space "-" (Slug.strip (Js.toLowerCase title)).

(** What one turn of the loop pushes: on [results] the id and the slug of
    the new row, or on [errors]. *)
Inductive item : Type :=
| Imported (index : nat) (id : Z) (slug : string)
| Failed (index : nat).

(** The row of the INSERT for a title, a slug and a status. *)
Definition imported_row (now : Z) (title slug : string) (status : option string)
    : topic_row :=
  {| t_title := title; t_slug := slug;
     t_status := Some (TopicPut.str_or status "draft");
     t_is_featured := false; t_category_id := None; t_duration_minutes := 0;
     t_published_at := None; t_updated_at := now |}.

(** The body of the [for] loop, with its own [try]/[catch]: a missing title
    is an error, a title that is not a string raises the TypeError of
    [toLowerCase], an INSERT that the table refuses raises; each of them is
    pushed on [errors] and the loop goes on.  The statements run on the pool,
    outside any transaction.  [None] is a slug loop that does not end. *)
Definition import_one (now : Z) (index : nat) (e : entry) (db : store)
    : option (item * store) :=
  if Js.truthy (ie_title e)
  then match ie_title e with
       | Js.JStr title =>
           slug ← Slug.unique_slug (topics db) (baseSlug title);
           match Topics.insert_topic
                   (imported_row now title slug (ie_status e)) db with
           | (Some id, db') => Some (Imported index id slug, db')
           | (None, db') => Some (Failed index, db')
           end
       | _ => Some (Failed index, db)
       end
  else Some (Failed index, db).

Fixpoint import_loop (now : Z) (index : nat) (entries : list entry) (db : store)
    : option (list item * store) :=
  match entries with
  | [] => Some ([], db)
  | e :: rest =>
      '(it, db1) ← import_one now index e db;
      '(items, db2) ← import_loop now (S index) rest db1;
      Some (it :: items, db2)
  end.

Definition is_imported (it : item) : bool :=
  match it with
  | Imported _ _ _ => true
  | Failed _ => false
  end.

(** [results.length] and [errors.length]. *)
Definition imported (items : list item) : nat :=
  length (filter (λ it, is_imported it = true) items).

Definition failed (items : list item) : nat :=
  length (filter (λ it, is_imported it = false) items).

(** [router.post('/topics/import', ...)]: [topics] is [None] when the body
    has no array under that key.  The answer is 200 whatever the entries
    did. *)
Definition import (now : Z) (topics : option (list entry)) (db : store)
    : option (Http.response * list item * store) :=
  match topics with
  | None => Some (Http.fail 400 "Topics array is required", [], db)
  | Some entries =>
      '(items, db') ← import_loop now 0 entries db;
      Some (Http.ok "imported", items, db')
  end.

End TopicsImport.

(* ===================================================================== *)
(** * routes/topics.js: the columns of the dynamic UPDATE                *)
(* ===================================================================== *)

Module TopicColumns.

(** The body keys of PUT /api/topics/:id that are renamed rather than
    converted, with the column each one becomes. *)
Definition renamed_keys : list (string * string) :=
  [("featured", "is_featured"); ("thumbnail", "thumbnail_url");
   ("category", "category_id"); ("subcategory", "subcategory_id");
   ("duration", "duration_minutes")].

(** The columns of [topics] that [allowedFields] does not list. *)
Definition protected_columns : list string :=
  ["id"; "published_at"; "view_count"; "like_count"; "enrollment_count";
   "created_at"; "updated_at"].

End TopicColumns.

(* ===================================================================== *)
(** * routes/topicsModules.js: DELETE and reorder                        *)
(* ===================================================================== *)

Module TopicModules.
Import Db Tx.

(** The store a run ends in, finished or raised. *)
Definition final {A : Type} (o : outcome A) : store :=
  match o with
  | Done _ s => s
  | Raised s => s
  end.

(** [router.delete('/topics/:topicId/modules/:moduleId', ...)]: the SELECT
    with both ids, 404 when there is no row, then the DELETE by id. *)
Definition delete_route (topicId moduleId : string) (db : store)
    : Http.response * store :=
  match int4_of_string moduleId, int4_of_string topicId with
  | Some module, Some topic =>
      if Videos.module_in_topic module topic db
      then match TopicPut.delete_module module db with
           | Done _ db' => (Http.ok "deleted", db')
           | Raised db' => (Http.server_error, db')
           end
      else (Http.fail 404 "Module not found", db)
  | _, _ => (Http.server_error, db)
  end.

Definition with_order (order now : Z) (row : module_row) : module_row :=
  {| m_topic_id := m_topic_id row; m_title := m_title row;
     m_description := m_description row; m_order_index := order;
     m_duration_minutes := m_duration_minutes row;
     m_is_active := m_is_active row; m_updated_at := now |}.

(** [UPDATE topic_modules SET order_index = $1, updated_at =
    CURRENT_TIMESTAMP WHERE id = $2 AND topic_id = $3]; a NULL id matches no
    row. *)
Definition set_order (now order : Z) (id : option Z) (topic : Z) : tx unit :=
  λ s, match id with
       | Some id =>
           match modules s !! id with
           | Some row =>
               if bool_decide (m_topic_id row = topic)
               then Done () (TopicPut.set_modules
                               (<[id := with_order order now row]> (modules s))
                               (modules_seq s) s)
               else Done () s
           | None => Done () s
           end
       | None => Done () s
       end.

(** [for (let i = 0; i < moduleIds.length; i++)], from index [i] on: the
    three parameters [i + 1, moduleIds[i], topicId] are read as integers by
    the server, which raises on one that is not. *)
Fixpoint reorder_loop (now : Z) (topicId : string) (i : Z)
    (moduleIds : list Js.value) : tx unit :=
  match moduleIds with
  | [] => ret ()
  | v :: rest =>
      let* order := coerce (int4_of_Z (i + 1)) in
      let* id := coerce (int4_param v) in
      let* topic := coerce (int4_of_string topicId) in
      let* _ := set_order now order id topic in
      reorder_loop now topicId (i + 1) rest
  end.

(** [router.post('/topics/:topicId/modules/reorder', ...)]: [moduleIds] is
    [None] when the body has no array under that key.  The 200 carries
    [moduleIds.length]. *)
Definition reorder (now : Z) (topicId : string)
    (moduleIds : option (list Js.value)) (db : store) : Http.response * store :=
  match moduleIds with
  | None => (Http.fail 400 "Array of module IDs is required", db)
  | Some ids =>
      match reorder_loop now topicId 0 ids db with
      | Done _ db' => (Http.ok (Js.toString (Z.of_nat (length ids))), db')
      | Raised s => (Http.server_error, rollback db s)
      end
  end.

(** The position (from 1) of the last entry of the array, counted from
    index [i], that names the key [k]. *)
Fixpoint last_position (k : Z) (i : Z) (ids : list Js.value) : option Z :=
  match ids with
  | [] => None
  | v :: rest =>
      match last_position k (i + 1) rest with
      | Some p => Some p
      | None => if bool_decide (int4_param v = Some (Some k)) then Some (i + 1)
                else None
      end
  end.

End TopicModules.

(* ===================================================================== *)
(** * routes/topicsVideos.js: reorder                                    *)
(* ===================================================================== *)

Module VideoOrder.
Import Db Tx.

Definition with_order (order now : Z) (row : video_row) : video_row :=
  {| v_topic_id := v_topic_id row; v_module_id := v_module_id row;
     v_title := v_title row; v_description := v_description row;
     v_video_url := v_video_url row; v_video_type := v_video_type row;
     v_duration_seconds := v_duration_seconds row; v_order_index := order;
     v_is_preview := v_is_preview row; v_updated_at := now |}.

(** [UPDATE topic_videos SET order_index = $1, updated_at =
    CURRENT_TIMESTAMP WHERE id = $2 AND module_id = $3]. *)
Definition set_order (now order : Z) (id : option Z) (module : Z) : tx unit :=
  λ s, match id with
       | Some id =>
           match videos s !! id with
           | Some row =>
               if bool_decide (v_module_id row = module)
               then Done () (TopicPut.set_videos
                               (<[id := with_order order now row]> (videos s))
                               (videos_seq s) s)
               else Done () s
           | None => Done () s
           end
       | None => Done () s
       end.

Fixpoint reorder_loop (now : Z) (moduleId : string) (i : Z)
    (videoIds : list Js.value) : tx unit :=
  match videoIds with
  | [] => ret ()
  | v :: rest =>
      let* order := coerce (int4_of_Z (i + 1)) in
      let* id := coerce (int4_param v) in
      let* module := coerce (int4_of_string moduleId) in
      let* _ := set_order now order id module in
      reorder_loop now moduleId (i + 1) rest
  end.

(** [router.post('/topics/:topicId/modules/:moduleId/videos/reorder',
    ...)]; the statements do not mention [topicId]. *)
Definition reorder (now : Z) (topicId moduleId : string)
    (videoIds : option (list Js.value)) (db : store) : Http.response * store :=
  match videoIds with
  | None => (Http.fail 400 "Array of video IDs is required", db)
  | Some ids =>
      match reorder_loop now moduleId 0 ids db with
      | Done _ db' => (Http.ok (Js.toString (Z.of_nat (length ids))), db')
      | Raised s => (Http.server_error, rollback db s)
      end
  end.

End VideoOrder.

(* ===================================================================== *)
(** * routes/category.js: GET /api/categories                            *)
(* ===================================================================== *)

Module CategoryList.
Import Db.

Definition allowedSortFields : list string :=
  ["id"; "name"; "description"; "status"; "topicsCount"; "topics_count";
   "createdAt"; "created_at"; "updatedAt"; "updated_at"].

(** The columns of the [category] table. *)
Definition columns : list string :=
  ["id"; "name"; "description"; "topics_count"; "status"; "created_at";
   "updated_at"].

(** [req.query.sortBy || 'id'], the allow-list, and the camelCase names
    turned into columns: the text that goes after ORDER BY.  A query value
    that is not a string (an array, an object) is not in the list. *)
Definition sortField (sortBy : Js.value) : string :=
  let field :=
    match Js.or_else sortBy (Js.JStr "id") with
    | Js.JStr s => if bool_decide (s ∈ allowedSortFields) then s else "id"
    | _ => "id"
    end in
  if String.eqb field "createdAt" then "created_at"
  else if String.eqb field "updatedAt" then "updated_at"
  else if String.eqb field "topicsCount" then "topics_count"
  else field.

(** [req.query.sortOrder === 'desc' ? 'DESC' : 'ASC']. *)
Definition sortOrder (order : Js.value) : string :=
  match order with
  | Js.JStr s => if String.eqb s "desc" then "DESC" else "ASC"
  | _ => "ASC"
  end.

(** [parseInt(v) || d]: NaN and 0 give the default. *)
Definition int_or (v : Js.value) (d : Z) : Z :=
  match Js.parseInt v with
  | Some n => if n =? 0 then d else n
  | None => d
  end.

(** The [pagination] object of the answer. *)
Record pagination : Type := {
  page : Z;
  limit : Z;
  total : Z;
  totalPages : Z;
  hasNext : bool;
  hasPrev : bool
}.

(** [Math.ceil(a / b)] on integers (below 2^53 the double quotient rounds
    to the same integer). *)
Definition ceil_div (a b : Z) : Z := - ((- a) / b).

Definition int8_range (n : Z) : bool :=
  (-9223372036854775808 <=? n) && (n <=? 9223372036854775807).

(** [LIMIT $1 OFFSET $2]: both are read as BIGINT, and the statement raises
    when one is negative. *)
Definition limit_offset_ok (limit offset : Z) : bool :=
  int8_range limit && int8_range offset && (0 <=? limit) && (0 <=? offset).

(** [router.get('/categories', ...)]: the pagination of the 200, or [None]
    for the 500 of a page query that raises.  (The rows of the page are not
    modelled: their order on a text column is the collation's.) *)
Definition get_categories (page limit : Js.value) (db : store)
    : option pagination :=
  let page := int_or page 1 in
  let limit := int_or limit 10 in
  let offset := (page - 1) * limit in
  if limit_offset_ok limit offset then
    let total := Z.of_nat (size (categories db)) in
    let totalPages := ceil_div total limit in
    Some {| page := page; limit := limit; total := total;
            totalPages := totalPages;
            hasNext := page <? totalPages; hasPrev := 1 <? page |}
  else None.

End CategoryList.

(* ===================================================================== *)
(** * The foreign keys of the topic tables                               *)
(* ===================================================================== *)

Module Integrity.
Import Db.

(** Every module row points at a topic row, every video row at a topic row
    and at a module row: what the REFERENCES clauses of [topic_modules] and
    [topic_videos] ask. *)
Definition references_ok (s : store) : Prop :=
  map_Forall (λ _ m, is_Some (topics s !! m_topic_id m)) (modules s)
  ∧ map_Forall (λ _ v, is_Some (topics s !! v_topic_id v)
                       ∧ is_Some (modules s !! v_module_id v)) (videos s).

Global Instance references_ok_dec (s : store) : Decision (references_ok s).
Proof. unfold references_ok. apply _. Defined.

End Integrity.

(* ===================================================================== *)
(** * Requests that reach a route                                        *)
(* ===================================================================== *)

Module Reach.
Import Router.

(** A request path for a registered path: each [:name] piece replaced by
    [value]. *)
Definition fill (value : string) (piece : string) : string :=
  match segment_of piece with
  | Param _ => value
  | Lit s => s
  end.

Definition request_for (value : string) (rt : router) (r : route) : list string :=
  (pieces (mount rt) ++ (fill value <$> pieces (r_path r)))%list.

(** Express hands a parameter to its handler after [decodeURIComponent]
    (and answers 400 itself when the escape is malformed); a piece without
    '%' comes through as it is written. *)
Definition plain (piece : string) : bool :=
  Slug.all_chars (λ c, negb (Ascii.eqb c "%")) piece.

(** The route is the one that answers the request made for it. *)
Definition reached (value : string) (rt : router) (r : route) : bool :=
  match dispatch_in app (r_method r) (request_for value rt r) with
  | Some (f, r', _) => String.eqb f (file rt) && bool_decide (r' = r)
  | None => false
  end.

(** The routes of [/topics/<literal>] that C8 is about. *)
Definition is_dedicated (r : route) : bool :=
  bool_decide (r ∈ (λ ml, on ml.1 (String.append "/topics/" ml.2)) <$> dedicated).

End Reach.

(* ===================================================================== *)
(** * Sample stores and requests                                         *)
(* ===================================================================== *)

Module Samples.
Import Db.

Definition sample_categories : store :=
  {| categories := {[ 3 := {| c_name := "Networks"; c_description := "All about networks";
                              c_status := "Draft"; c_topics_count := 2;
                              c_updated_at := 10 |} ]};
     subcategories := {[ 1 := {| s_name := "Firewalls"; s_category_id := Some 3 |} ]};
     topics := ∅; topics_seq := 1;
     modules := ∅; modules_seq := 1;
     videos := ∅; videos_seq := 1 |}.

Definition empty_store : store :=
  {| categories := ∅; subcategories := ∅;
     topics := ∅; topics_seq := 1;
     modules := ∅; modules_seq := 1;
     videos := ∅; videos_seq := 1 |}.

Definition draft_topic : topic_row :=
  {| t_title := "Basic Security"; t_slug := "basic-security";
     t_status := Some "draft"; t_is_featured := false;
     t_category_id := None; t_duration_minutes := 0;
     t_published_at := None; t_updated_at := 1 |}.

Definition one_topic : store :=
  {| categories := ∅; subcategories := ∅;
     topics := {[ 5 := draft_topic ]}; topics_seq := 6;
     modules := ∅; modules_seq := 1;
     videos := ∅; videos_seq := 1 |}.

(** A course with two modules and two videos of a minute each, and a second
    topic; the duration columns agree with the videos. *)
Definition module_row_of (topic : Z) (title : string) (minutes : Z) : module_row :=
  {| m_topic_id := topic; m_title := title; m_description := "";
     m_order_index := 1; m_duration_minutes := minutes; m_is_active := true;
     m_updated_at := 0 |}.

Definition video_row_of (topic module : Z) (title : string) : video_row :=
  {| v_topic_id := topic; v_module_id := module; v_title := title;
     v_description := Some ""; v_video_url := Some ""; v_video_type := "mp4";
     v_duration_seconds := 60; v_order_index := 1; v_is_preview := false;
     v_updated_at := 0 |}.

Definition other_topic : topic_row :=
  {| t_title := "Networks"; t_slug := "networks";
     t_status := Some "published"; t_is_featured := false;
     t_category_id := None; t_duration_minutes := 1;
     t_published_at := Some 1; t_updated_at := 1 |}.

Definition course_topic : topic_row :=
  {| t_title := "Basic Security"; t_slug := "basic-security";
     t_status := Some "draft"; t_is_featured := false;
     t_category_id := None; t_duration_minutes := 2;
     t_published_at := None; t_updated_at := 1 |}.

Definition course : store :=
  {| categories := ∅; subcategories := ∅;
     topics := {[ 5 := course_topic; 7 := other_topic ]}; topics_seq := 8;
     modules := {[ 5 := module_row_of 5 "Risk" 2; 6 := module_row_of 5 "Crypto" 0;
                   9 := module_row_of 7 "Routing" 1 ]};
     modules_seq := 10;
     videos := {[ 7 := video_row_of 5 5 "Intro"; 8 := video_row_of 5 5 "Threats";
                  3 := video_row_of 7 9 "BGP" ]};
     videos_seq := 10 |}.

Definition video_entry_of (id : Js.value) (title : string) (videoType : option string)
    : TopicPut.video_entry :=
  {| TopicPut.ve_id := id; TopicPut.ve_title := Some title;
     TopicPut.ve_description := None; TopicPut.ve_videoUrl := None;
     TopicPut.ve_duration := Js.JStr "15"; TopicPut.ve_order := Js.JUndef;
     TopicPut.ve_videoType := videoType; TopicPut.ve_isPreview := None |}.

Definition module_entry_of (id : Js.value) (title : string)
    (videos : option (list TopicPut.video_entry)) : TopicPut.module_entry :=
  {| TopicPut.me_id := id; TopicPut.me_title := Some title;
     TopicPut.me_description := None; TopicPut.me_order := Js.JUndef;
     TopicPut.me_videos := videos |}.

(** A server that takes the title and the slug of the dynamic UPDATE and
    ignores the other columns. *)
Definition text_of (column : string) (updates : list (string * TopicPut.bound))
    (old : string) : string :=
  match snd <$> head (filter (λ kv, kv.1 = column) updates) with
  | Some (TopicPut.Raw (Js.JStr t)) => t
  | _ => old
  end.

Definition exec_title_slug (now : Z) (updates : list (string * TopicPut.bound))
    (key : Z) (tbl : gmap Z topic_row) : option (gmap Z topic_row) :=
  row ← tbl !! key;
  let title := text_of "title" updates (t_title row) in
  let slug := text_of "slug" updates (t_slug row) in
  if fits_varchar 255 title && fits_varchar 255 slug
  then Some (<[key := {| t_title := title; t_slug := slug;
                         t_status := t_status row;
                         t_is_featured := t_is_featured row;
                         t_category_id := t_category_id row;
                         t_duration_minutes := t_duration_minutes row;
                         t_published_at := t_published_at row;
                         t_updated_at := now |}]> tbl)
  else None.

Definition no_hours (s : string) : option Z := None.

(** Module 5 kept with video 7 and a new video, a new module with a new
    video, an entry without id; module 6 and video 8 are not named. *)
Definition replace_children : TopicPut.body :=
  {| TopicPut.fields := [("title", Js.JStr "Security Basics")];
     TopicPut.modules_array :=
       Some [module_entry_of (Js.JNum 5) "Risk management"
               (Some [video_entry_of (Js.JNum 7) "Intro" None;
                      video_entry_of (Js.JStr "new-1") "Assets" None]);
             module_entry_of (Js.JStr "new-a") "Access control"
               (Some [video_entry_of (Js.JStr "new-b") "Passwords" None]);
             module_entry_of Js.JUndef "No id" None] |}.

(** A new module, then a new video whose type fails the CHECK. *)
Definition failing_children : TopicPut.body :=
  {| TopicPut.fields := [("title", Js.JStr "Security Basics")];
     TopicPut.modules_array :=
       Some [module_entry_of (Js.JStr "new-a") "Access control"
               (Some [video_entry_of (Js.JStr "new-b") "Passwords" (Some "avi")])] |}.

(** Only a modules array. *)
Definition children_only : TopicPut.body :=
  {| TopicPut.fields := []; TopicPut.modules_array := Some [] |}.

(** A module id that no row has, and an entry without id. *)
Definition unknown_children : TopicPut.body :=
  {| TopicPut.fields := [("description", Js.JStr "text")];
     TopicPut.modules_array :=
       Some [module_entry_of (Js.JNum 999) "Ghost" None;
             module_entry_of (Js.JNum 5) "Risk" None;
             module_entry_of (Js.JNum 6) "Crypto" None;
             module_entry_of Js.JUndef "No id" None] |}.

(** A two-minute clip for module 5 of topic 5. *)
Definition clip : Videos.post_body :=
  {| Videos.pb_title := Some "Clip"; Videos.pb_description := None;
     Videos.pb_videoUrl := None; Videos.pb_videoType := None;
     Videos.pb_durationSeconds := Js.JNum 120; Videos.pb_orderIndex := Js.JUndef;
     Videos.pb_isPreview := None |}.

End Samples.

(** Further sample rows and stores. *)

Module MoreSamples.
Import Db.

(** A topic whose status is NULL, as an INSERT with an explicit null
    leaves it: the DEFAULT does not apply and the CHECK lets NULL pass. *)
Definition unset_topic : topic_row :=
  {| t_title := "Untitled"; t_slug := "untitled";
     t_status := None; t_is_featured := false;
     t_category_id := None; t_duration_minutes := 0;
     t_published_at := None; t_updated_at := 1 |}.

Definition unset_store : store :=
  {| categories := ∅; subcategories := ∅;
     topics := {[ 4 := unset_topic ]}; topics_seq := 5;
     modules := ∅; modules_seq := 1;
     videos := ∅; videos_seq := 1 |}.

End MoreSamples.

(* ===================================================================== *)
(** * Properties                                                         *)
(* ===================================================================== *)

(** ** Categories *)

Section CategoryFacts.
Import Db Category.


Lemma categoryStatus_valid (status : Js.value) :
  categoryStatus status ∈ validStatuses.
Proof.
  unfold categoryStatus. destruct status as [| |b|n|s|];
    try (unfold validStatuses; set_solver).
  destruct (Js.truthy _); simpl; [|unfold validStatuses; set_solver].
  case_bool_decide; [done|unfold validStatuses; set_solver].
Qed.



(** C7.  DELETE /api/categories/:id on an existing category with at least
    one subcategory answers 400 with the explanatory message and leaves the
    store as it was; and whenever the handler does change the store, the
    subcategory count of the addressed category was zero and exactly that
    row left the category table. *)
Theorem delete_category_guarded (id : string) (db : store) :
  (∀ key existing,
      valid_id id = Some key →
      int4_range key = true →
      categories db !! key = Some existing →
      0 < subcategory_count key db →
      delete_category id db
      = (Http.fail 400 (cannot_delete (subcategory_count key db)), db))
  ∧ (∀ resp db',
      delete_category id db = (resp, db') →
      db' ≠ db →
      ∃ key, valid_id id = Some key
             ∧ subcategory_count key db = 0
             ∧ Http.status resp = 200
             ∧ categories db' = delete key (categories db)).
Proof.
  split.
  - intros key existing Hid Hrange Hrow Hcount.
    unfold delete_category. rewrite Hid. unfold int4_of_Z. rewrite Hrange, Hrow.
    by rewrite (proj2 (Z.ltb_lt _ _) Hcount).
  - intros resp db'. unfold delete_category.
    destruct (valid_id id) as [key|]; [|by intros [= <- <-]].
    unfold int4_of_Z. destruct (int4_range key); [|by intros [= <- <-]].
    destruct (categories db !! key) as [existing|]; [|by intros [= <- <-]].
    destruct (0 <? subcategory_count key db) eqn:Hpos; [by intros [= <- <-]|].
    unfold delete_category_row. case_bool_decide as Hzero; [|by intros [= <- <-]].
    intros [= <- <-] _. exists key. done.
Qed.

Lemma delete_category_guarded_witness :
  delete_category "3" Samples.sample_categories
  = (Http.fail 400 "Cannot delete category. It has 1 subcategories. Please delete subcategories first.",
     Samples.sample_categories).
Proof.
  apply (proj1 (delete_category_guarded "3" Samples.sample_categories) 3
           {| c_name := "Networks"; c_description := "All about networks";
              c_status := "Draft"; c_topics_count := 2; c_updated_at := 10 |});
    [reflexivity|reflexivity|reflexivity|].
  vm_compute. reflexivity.
Defined.

End CategoryFacts.

(** ** The slug allocator *)

Section SlugShape.
Import Slug.
#[local] Arguments is_hyphen : simpl never.
#[local] Arguments slug_char : simpl never.
#[local] Arguments out_char : simpl never.

Lemma strip_all_chars (s : string) : all_chars slug_char (strip s) = true.
Proof.
  induction s as [|c r IH]; simpl; [done|].
  destruct (slug_char c) eqn:Hc; simpl; [by rewrite Hc|done].
Qed.

Lemma space_is_space (c : ascii) : Ascii.eqb c " " = true → Js.is_space c = true.
Proof. intros ->%Ascii.eqb_eq. reflexivity. Qed.

Lemma slug_char_not_space (c : ascii) :
  slug_char c = true → Js.is_space c = false → out_char c = true.
Proof.
  unfold slug_char, out_char, is_hyphen. intros Hc Hs.
  destruct (Ascii.eqb c " ") eqn:Hsp.
  - apply space_is_space in Hsp. congruence.
  - by rewrite orb_false_r in Hc.
Qed.

Lemma replace_spaces_out_chars (s : string) :
  all_chars slug_char s = true →
  all_chars out_char (replace_runs Js.is_space "-" s) = true.
Proof.
  induction s as [|c r IH]; simpl; [done|].
  intros [Hc Hr]%andb_true_iff. specialize (IH Hr).
  destruct (Js.is_space c) eqn:Hs.
  - destruct (starts_in Js.is_space r); simpl; [done|by rewrite IH].
  - simpl. by rewrite (slug_char_not_space c Hc Hs), IH.
Qed.

Lemma replace_runs_all_chars (p q : ascii → bool) (by_ : ascii) (s : string) :
  q by_ = true →
  all_chars q s = true → all_chars q (replace_runs p by_ s) = true.
Proof.
  intros Hby. induction s as [|c r IH]; simpl; [done|].
  intros [Hc Hr]%andb_true_iff. specialize (IH Hr).
  destruct (p c); [destruct (starts_in p r)|]; simpl; rewrite ?Hby, ?Hc, ?IH; done.
Qed.

Lemma starts_in_replace_runs (p : ascii → bool) (by_ : ascii) (s : string) :
  p by_ = true → starts_in p (replace_runs p by_ s) = starts_in p s.
Proof.
  intros Hby. induction s as [|c r IH]; simpl; [done|].
  destruct (p c) eqn:Hc; [destruct (starts_in p r) eqn:Hr|]; simpl; congruence.
Qed.

Lemma replace_hyphens_no_double (s : string) :
  no_double_hyphen (replace_runs is_hyphen "-" s) = true.
Proof.
  induction s as [|c r IH]; simpl; [done|].
  destruct (is_hyphen c) eqn:Hc; [destruct (starts_in is_hyphen r) eqn:Hr|]; simpl.
  - done.
  - rewrite starts_in_replace_runs, Hr, IH by done. done.
  - by rewrite Hc, IH.
Qed.

Lemma drop_trailing_all_chars (q : ascii → bool) (s : string) :
  all_chars q s = true → all_chars q (drop_trailing_hyphen s) = true.
Proof.
  induction s as [|c r IH]; [done|].
  intros [Hc Hr]%andb_true_iff. specialize (IH Hr).
  destruct r as [|d r']; simpl in *.
  - destruct (is_hyphen c); simpl; [done|by rewrite Hc].
  - by rewrite Hc, IH.
Qed.

Lemma drop_trailing_starts (s : string) :
  starts_in is_hyphen s = false →
  starts_in is_hyphen (drop_trailing_hyphen s) = false.
Proof.
  destruct s as [|c [|d r]]; simpl; [done| |done].
  intros H. rewrite H. exact H.
Qed.

Lemma drop_trailing_no_double (s : string) :
  no_double_hyphen s = true → no_double_hyphen (drop_trailing_hyphen s) = true.
Proof.
  induction s as [|c r IH]; [done|].
  intros [Hc Hr]%andb_true_iff. specialize (IH Hr).
  destruct r as [|d r'];
    [simpl; destruct (is_hyphen c) eqn:E; simpl; rewrite ?E; done|].
  change (drop_trailing_hyphen (String c (String d r')))
    with (String c (drop_trailing_hyphen (String d r'))).
  cbn [no_double_hyphen]. rewrite IH, andb_true_r.
  destruct (is_hyphen c) eqn:Hhc; [|done].
  simpl in Hc. apply negb_true_iff in Hc.
  rewrite drop_trailing_starts by done. done.
Qed.

Lemma drop_trailing_ends (s : string) :
  no_double_hyphen s = true →
  ends_in is_hyphen (drop_trailing_hyphen s) = false.
Proof.
  induction s as [|c r IH]; [done|].
  intros [Hc Hr]%andb_true_iff. specialize (IH Hr).
  destruct r as [|d r'].
  - simpl. destruct (is_hyphen c) eqn:Hhc; simpl; done.
  - change (drop_trailing_hyphen (String c (String d r')))
      with (String c (drop_trailing_hyphen (String d r'))).
    destruct (drop_trailing_hyphen (String d r')) as [|e t] eqn:Ht.
    + simpl. destruct r' as [|e r'']; simpl in Ht.
      * destruct (is_hyphen d) eqn:Hd; [|done].
        simpl in Hc. rewrite Hd, andb_true_r in Hc. by apply negb_true_iff.
      * done.
    + exact IH.
Qed.

Lemma drop_leading_shape (q : ascii → bool) (s : string) :
  all_chars q s = true →
  no_double_hyphen s = true →
  all_chars q (drop_leading_hyphen s) = true
  ∧ no_double_hyphen (drop_leading_hyphen s) = true
  ∧ starts_in is_hyphen (drop_leading_hyphen s) = false.
Proof.
  destruct s as [|c r]; [done|].
  intros Hq Hnd.
  pose proof Hq as [Hc Hr]%andb_true_iff.
  pose proof Hnd as [Hd Hnr]%andb_true_iff.
  unfold drop_leading_hyphen. destruct (is_hyphen c) eqn:Hhc.
  - repeat split; [done..|]. simpl in Hd. by apply negb_true_iff.
  - repeat split; [done..|]. exact Hhc.
Qed.

(** The slug of any title is well formed. *)
Lemma generateSlug_well_formed (title : string) :
  well_formed_slug (generateSlug title).
Proof.
  unfold generateSlug, trim_hyphens.
  set (s := replace_runs is_hyphen "-" _).
  assert (Hchars : all_chars out_char s = true).
  { apply replace_runs_all_chars; [done|].
    apply replace_spaces_out_chars, strip_all_chars. }
  assert (Hnd : no_double_hyphen s = true) by apply replace_hyphens_no_double.
  destruct (drop_leading_shape out_char s Hchars Hnd) as (Hchars' & Hnd' & Hst).
  repeat split.
  - by apply drop_trailing_all_chars.
  - by apply drop_trailing_no_double.
  - by apply drop_trailing_starts.
  - by apply drop_trailing_ends.
Qed.

End SlugShape.

Section SlugLoop.
Import Db Slug.

Lemma string_of_nat_inj (a b : nat) :
  Js.string_of_nat a = Js.string_of_nat b → a = b.
Proof.
  unfold Js.string_of_nat. intros H.
  apply Unsigned.to_uint_inj.
  apply (f_equal NilEmpty.uint_of_string) in H.
  rewrite !NilEmpty.usu in H. congruence.
Qed.

Lemma toString_succ (k : nat) :
  Js.toString (Z.of_nat (S k)) = Js.string_of_nat (S k).
Proof. simpl. by rewrite SuccNat2Pos.id_succ. Qed.

Lemma append_inj_l (a x y : string) :
  String.append a x = String.append a y → x = y.
Proof. induction a as [|c a IH]; simpl; [done|]. intros [= H]. auto. Qed.

Lemma append_nonempty_ne (s t : string) (c : ascii) :
  s ≠ String.append s (String c t).
Proof. induction s as [|a s IH]; simpl; [done|]. intros [= H]. auto. Qed.

Lemma candidate_succ (baseSlug : string) (k : nat) :
  candidate baseSlug (S k) = suffixed baseSlug (Z.of_nat k + 1).
Proof. unfold candidate. f_equal. lia. Qed.

Lemma candidate_inj (baseSlug : string) (j k : nat) :
  candidate baseSlug j = candidate baseSlug k → j = k.
Proof.
  destruct j as [|j], k as [|k]; unfold candidate, suffixed; [done| | |].
  - intros H. by apply append_nonempty_ne in H.
  - intros H. symmetry in H. by apply append_nonempty_ne in H.
  - intros H%append_inj_l. rewrite !toString_succ in H.
    injection H as H. apply string_of_nat_inj in H. lia.
Qed.

(** The loop returns the first candidate that is free, as soon as the fuel
    reaches it. *)
Lemma slug_loop_finds (taken : string → bool) (baseSlug : string)
    (fuel k j : nat) :
  (k ≤ j < k + fuel)%nat →
  taken (candidate baseSlug j) = false →
  (∀ i, (k ≤ i < j)%nat → taken (candidate baseSlug i) = true) →
  slug_loop taken baseSlug fuel (candidate baseSlug k) (Z.of_nat k + 1)
  = Some (candidate baseSlug j).
Proof.
  revert k. induction fuel as [|fuel IH]; intros k Hk Hfree Hbelow; [lia|].
  simpl. destruct (decide (k = j)) as [->|Hne].
  - by rewrite Hfree.
  - rewrite Hbelow by lia. rewrite <- candidate_succ.
    replace (Z.of_nat k + 1 + 1) with (Z.of_nat (S k) + 1) by lia.
    apply IH; [lia|done|]. intros i Hi. apply Hbelow. lia.
Qed.

Lemma first_false (P : nat → bool) (n : nat) :
  (∀ i, (i ≤ n)%nat → P i = true)
  ∨ (∃ j, (j ≤ n)%nat ∧ P j = false ∧ ∀ i, (i < j)%nat → P i = true).
Proof.
  induction n as [|n [IH|(j & Hj & Hf & Hb)]].
  - destruct (P 0%nat) eqn:H0.
    + left. intros i Hi. by replace i with 0%nat by lia.
    + right. exists 0%nat. split_and!; [lia|done|]. intros i Hi. lia.
  - destruct (P (S n)) eqn:HS.
    + left. intros i Hi. destruct (decide (i = S n)) as [->|]; [done|].
      apply IH. lia.
    + right. exists (S n). split_and!; [lia|done|]. intros i Hi. apply IH. lia.
  - right. exists j. split_and!; [lia|done|done].
Qed.

Lemma length_slugs (tbl : gmap Z topic_row) : length (slugs tbl) = size tbl.
Proof. unfold slugs. by rewrite length_fmap, length_map_to_list. Qed.

(** There are more candidates than rows, so they cannot all be taken. *)
Lemma candidates_not_all_taken (tbl : gmap Z topic_row) (baseSlug : string) :
  ¬ (∀ i, (i ≤ size tbl)%nat → slug_taken tbl (candidate baseSlug i) = true).
Proof.
  intros Hall.
  set (L := candidate baseSlug <$> seq 0 (S (size tbl))).
  assert (Hnd : NoDup L).
  { apply NoDup_fmap_2_strong; [|apply NoDup_seq].
    intros j k _ _. apply candidate_inj. }
  assert (Hsub : L ⊆+ slugs tbl).
  { apply NoDup_submseteq; [done|].
    intros x (i & -> & Hi)%list_elem_of_fmap.
    apply elem_of_seq in Hi.
    specialize (Hall i ltac:(lia)). by apply bool_decide_eq_true in Hall. }
  apply submseteq_length in Hsub.
  rewrite length_slugs in Hsub. unfold L in Hsub.
  rewrite length_fmap, length_seq in Hsub. lia.
Qed.

(** The uniqueness loop terminates within its fuel and returns the first
    candidate of [baseSlug], [baseSlug-1], [baseSlug-2], ... that no row
    uses. *)
Lemma unique_slug_total (tbl : gmap Z topic_row) (baseSlug : string) :
  ∃ k, (k ≤ size tbl)%nat
       ∧ unique_slug tbl baseSlug = Some (candidate baseSlug k)
       ∧ slug_taken tbl (candidate baseSlug k) = false
       ∧ ∀ i, (i < k)%nat → slug_taken tbl (candidate baseSlug i) = true.
Proof.
  destruct (first_false (λ i, slug_taken tbl (candidate baseSlug i)) (size tbl))
    as [Hall|(j & Hj & Hfree & Hbelow)].
  - by apply candidates_not_all_taken in Hall.
  - exists j. split_and!; [done| |done|done].
    unfold unique_slug.
    apply (slug_loop_finds _ baseSlug (S (size tbl)) 0 j); [lia|done|].
    intros i Hi. apply Hbelow. lia.
Qed.

End SlugLoop.

Section PostTopics.
Import Db Slug Topics.

Lemma slugs_insert (tbl : gmap Z topic_row) (id : Z) (row : topic_row) :
  tbl !! id = None → slugs (<[id := row]> tbl) ≡ₚ t_slug row :: slugs tbl.
Proof.
  intros Hfresh. unfold slugs.
  by rewrite (map_to_list_insert tbl id row Hfresh).
Qed.

Lemma slug_taken_insert (tbl : gmap Z topic_row) (id : Z) (row : topic_row)
    (s : string) :
  tbl !! id = None →
  slug_taken (<[id := row]> tbl) s
  = bool_decide (s = t_slug row) || slug_taken tbl s.
Proof.
  intros Hfresh. unfold slug_taken.
  apply eq_true_iff_eq. rewrite orb_true_iff, !bool_decide_eq_true.
  rewrite (slugs_insert tbl id row Hfresh). apply elem_of_cons.
Qed.

(** What a 201 from POST /api/topics means for the table. *)
Lemma post_topics_created (now : Z) (title : string) (db : store)
    (r : Http.response) (db1 : store) :
  post_topics now (Some title) db = (r, db1) →
  Http.status r = 201 →
  ∃ row k,
    topics db !! topics_seq db = None
    ∧ topics db1 = <[topics_seq db := row]> (topics db)
    ∧ t_slug row = Http.message r
    ∧ t_slug row = candidate (generateSlug title) k
    ∧ slug_taken (topics db) (candidate (generateSlug title) k) = false
    ∧ (∀ i, (i < k)%nat →
         slug_taken (topics db) (candidate (generateSlug title) i) = true).
Proof.
  unfold post_topics.
  destruct (Js.blank (Some title)); [by intros [= <- <-]|].
  change (default "" (Some title)) with title.
  destruct (unique_slug_total (topics db) (generateSlug title))
    as (k & _ & -> & Hfree & Hbelow).
  unfold insert_topic; simpl.
  destruct (_ && _) eqn:Hok; [|by intros [= <- <-]].
  intros [= <- <-] _. simpl.
  apply andb_true_iff in Hok as [_ Hkey%bool_decide_eq_true].
  eexists _, k. split_and!; done.
Qed.

End PostTopics.

Section SlugAllocation.
Import Db Slug Topics.

(** Two creations with one title take the first two candidates that were
    free, in order. *)
Lemma two_posts_first_two_free (now1 now2 : Z) (title : string) (db : store)
    (r1 : Http.response) (db1 : store) (r2 : Http.response) (db2 : store) :
  post_topics now1 (Some title) db = (r1, db1) →
  post_topics now2 (Some title) db1 = (r2, db2) →
  Http.status r1 = 201 →
  Http.status r2 = 201 →
  ∃ k1 k2,
    (k1 < k2)%nat
    ∧ Http.message r1 = candidate (generateSlug title) k1
    ∧ Http.message r2 = candidate (generateSlug title) k2
    ∧ (∀ i, (i < k2)%nat →
         slug_taken (topics db) (candidate (generateSlug title) i)
         = negb (bool_decide (i = k1)))
    ∧ slug_taken (topics db) (candidate (generateSlug title) k2) = false.
Proof.
  intros Hpost1 Hpost2 H1 H2.
  destruct (post_topics_created _ _ _ _ _ Hpost1 H1)
    as (row1 & k1 & Hfresh1 & Htbl1 & Hmsg1 & Hcand1 & Hfree1 & Hbelow1).
  destruct (post_topics_created _ _ _ _ _ Hpost2 H2)
    as (row2 & k2 & Hfresh2 & Htbl2 & Hmsg2 & Hcand2 & Hfree2 & Hbelow2).
  set (base := generateSlug title) in *.
  assert (Htaken1 : ∀ s, slug_taken (topics db1) s
                         = bool_decide (s = candidate base k1)
                           || slug_taken (topics db) s).
  { intros s. by rewrite Htbl1, slug_taken_insert, Hcand1. }
  rewrite Htaken1 in Hfree2.
  apply orb_false_iff in Hfree2 as [Hne%bool_decide_eq_false Hfree2].
  assert (Hk : k1 ≠ k2) by (intros ->; done).
  assert (Hlt : (k1 < k2)%nat).
  { destruct (decide (k2 < k1)%nat) as [Hlt|]; [|lia].
    specialize (Hbelow1 k2 Hlt). congruence. }
  exists k1, k2. split_and!; [done|congruence|congruence| |done].
  intros i Hi. specialize (Hbelow2 i Hi). rewrite Htaken1 in Hbelow2.
  destruct (decide (i = k1)) as [->|Hik].
  - by rewrite bool_decide_eq_true_2.
  - rewrite bool_decide_eq_false_2 by done. simpl.
    rewrite bool_decide_eq_false_2 in Hbelow2; [done|].
    by intros ?%candidate_inj.
Qed.

Example generateSlug_sample :
  generateSlug "  Intro:  Web -- Security (2024)! " = "intro-web-security-2024".
Proof. reflexivity. Qed.

(** C5, as the code has it.  The base slug of a title is the title
    lowercased, stripped to [a-z0-9 -], with white-space runs and then
    hyphen runs collapsed to one hyphen and the hyphen at either end
    removed, which leaves a well-formed slug; the uniqueness loop ends and
    returns the first of base, base-1, base-2, ... that no topic uses; a
    topic created by POST /api/topics stores that slug, which no earlier
    topic has, so slugs stay pairwise distinct; two creations with one title
    store the first two of base, base-1, base-2, ... that no topic used
    before, in that order; these are base and base-1 when both were free,
    and not otherwise. *)
Theorem slug_allocation (now1 now2 : Z) (title : string) (db : store) :
  let baseSlug := generateSlug title in
  baseSlug
  = trim_hyphens (replace_runs is_hyphen "-" (replace_runs Js.is_space "-"
                    (strip (Js.toLowerCase title))))
  ∧ well_formed_slug baseSlug
  ∧ (∃ k, unique_slug (topics db) baseSlug = Some (candidate baseSlug k)
          ∧ slug_taken (topics db) (candidate baseSlug k) = false
          ∧ ∀ i, (i < k)%nat → slug_taken (topics db) (candidate baseSlug i) = true)
  ∧ (∀ r db1,
       post_topics now1 (Some title) db = (r, db1) →
       Http.status r = 201 →
       ∃ row, topics db1 = <[topics_seq db := row]> (topics db)
              ∧ topics db !! topics_seq db = None
              ∧ t_slug row = Http.message r
              ∧ (t_slug row ∉ slugs (topics db))
              ∧ (NoDup (slugs (topics db)) → NoDup (slugs (topics db1))))
  ∧ (∀ r1 db1 r2 db2,
       post_topics now1 (Some title) db = (r1, db1) →
       post_topics now2 (Some title) db1 = (r2, db2) →
       Http.status r1 = 201 →
       Http.status r2 = 201 →
       ∃ k1 k2,
         (k1 < k2)%nat
         ∧ Http.message r1 = candidate baseSlug k1
         ∧ Http.message r2 = candidate baseSlug k2
         ∧ (∀ i, (i < k2)%nat →
              slug_taken (topics db) (candidate baseSlug i)
              = negb (bool_decide (i = k1)))
         ∧ slug_taken (topics db) (candidate baseSlug k2) = false)
  ∧ (∀ r1 db1 r2 db2,
       post_topics now1 (Some title) db = (r1, db1) →
       post_topics now2 (Some title) db1 = (r2, db2) →
       Http.status r1 = 201 →
       Http.status r2 = 201 →
       (slug_taken (topics db) baseSlug = false
        ∧ slug_taken (topics db) (suffixed baseSlug 1) = false)
       ↔ (Http.message r1 = baseSlug ∧ Http.message r2 = suffixed baseSlug 1)).
Proof.
  intros baseSlug. split_and!.
  - reflexivity.
  - apply generateSlug_well_formed.
  - destruct (unique_slug_total (topics db) baseSlug) as (k & _ & ? & ? & ?).
    by exists k.
  - intros r db1 Hpost H201.
    destruct (post_topics_created _ _ _ _ _ Hpost H201)
      as (row & k & Hfresh & Htbl & Hmsg & Hcand & Hfree & _).
    exists row. split_and!; [done..| |].
    + rewrite Hcand. by apply bool_decide_eq_false in Hfree.
    + intros Hnd. rewrite Htbl, (slugs_insert _ _ row Hfresh).
      apply NoDup_cons. split; [|done].
      rewrite Hcand. by apply bool_decide_eq_false in Hfree.
  - intros r1 db1 r2 db2 Hpost1 Hpost2 H1 H2.
    destruct (two_posts_first_two_free _ _ _ _ _ _ _ _ Hpost1 Hpost2 H1 H2)
      as (k1 & k2 & Hlt & Hm1 & Hm2 & Hbelow & Hfree).
    by exists k1, k2.
  - intros r1 db1 r2 db2 Hpost1 Hpost2 H1 H2.
    destruct (two_posts_first_two_free _ _ _ _ _ _ _ _ Hpost1 Hpost2 H1 H2)
      as (k1 & k2 & Hlt & Hm1 & Hm2 & Hbelow & Hfree).
    fold baseSlug in Hm1, Hm2, Hbelow, Hfree.
    change (suffixed baseSlug 1) with (candidate baseSlug 1).
    change baseSlug with (candidate baseSlug 0) at 1 3.
    split.
    + intros [Hbase Hnext].
      assert (k1 = 0%nat) as ->.
      { destruct k1 as [|k1]; [done|].
        rewrite (Hbelow 0%nat) in Hbase by lia.
        by rewrite bool_decide_eq_false_2 in Hbase. }
      assert (k2 = 1%nat) as ->.
      { destruct k2 as [|[|k2]]; [lia|done|].
        rewrite (Hbelow 1%nat) in Hnext by lia.
        by rewrite bool_decide_eq_false_2 in Hnext. }
      done.
    + rewrite Hm1, Hm2. intros [Hk1%candidate_inj Hk2%candidate_inj].
      subst k1 k2. split; [|done].
      by rewrite (Hbelow 0%nat) by lia.
Qed.

Lemma slug_allocation_witness :
  ∃ r1 db1 r2 db2,
    post_topics 5 (Some "Intro to Security") Samples.empty_store = (r1, db1)
    ∧ post_topics 6 (Some "Intro to Security") db1 = (r2, db2)
    ∧ Http.message r1 = "intro-to-security"
    ∧ Http.message r2 = "intro-to-security-1".
Proof.
  destruct (post_topics 5 (Some "Intro to Security") Samples.empty_store)
    as [r1 db1] eqn:H1.
  destruct (post_topics 6 (Some "Intro to Security") db1) as [r2 db2] eqn:H2.
  exists r1, db1, r2, db2. split; [done|]. split; [done|].
  assert (Hdb1 : db1 = (post_topics 5 (Some "Intro to Security") Samples.empty_store).2)
    by (by rewrite H1).
  refine (proj1 (proj2 (proj2 (proj2 (proj2 (proj2
            (slug_allocation 5 6 "Intro to Security" Samples.empty_store)))))
            r1 db1 r2 db2 H1 H2 _ _) _).
  - by injection H1 as <- _.
  - rewrite Hdb1 in H2. by injection H2 as <- _.
  - split; reflexivity.
Defined.

(** The claim as the specification words it does not hold: when base-1
    already belongs to another topic, two creations with one title store
    base and base-2. *)
Lemma second_copy_skips_taken_suffix :
  let first := post_topics 1 (Some "Intro 1") Samples.empty_store in
  let second := post_topics 2 (Some "Intro") first.2 in
  let third := post_topics 3 (Some "Intro") second.2 in
  Http.status first.1 = 201 ∧ Http.message first.1 = "intro-1"
  ∧ Http.status second.1 = 201 ∧ Http.message second.1 = "intro"
  ∧ Http.status third.1 = 201 ∧ Http.message third.1 = "intro-2"
  ∧ Http.message third.1 ≠ "intro-1".
Proof.
  cbv zeta. split_and!; try (vm_compute; reflexivity).
  vm_compute. discriminate.
Qed.

End SlugAllocation.

(** ** Topic actions *)

Section TopicActionFacts.
Import Db TopicActions.

(** C6, as the code has it.  POST /api/topics/:id/publish on a topic whose
    status is a value (not NULL) other than 'published' answers 200, stores
    status 'published' with a non-null published_at and touches no other
    topic; on a topic that is already 'published', and on a topic whose
    status is NULL (for which [status != 'published'] is not true), it
    answers 404 and leaves the store, published_at included, as it was. *)
Theorem publish_once (now : Z) (id : string) (db : store) (key : Z)
    (row : topic_row) :
  int4_of_string id = Some key →
  topics db !! key = Some row →
  (∀ s, t_status row = Some s → s ≠ "published" →
     ∃ db' row',
       publish now id db = (Http.ok "published", db')
       ∧ topics db' !! key = Some row'
       ∧ t_status row' = Some "published"
       ∧ t_published_at row' = Some now
       ∧ t_title row' = t_title row ∧ t_slug row' = t_slug row
       ∧ ∀ other, other ≠ key → topics db' !! other = topics db !! other)
  ∧ (t_status row = Some "published" ∨ t_status row = None →
     publish now id db
     = (Http.fail 404 "Topic not found or already published", db)).
Proof.
  intros Hid Hrow. unfold publish. rewrite Hid, Hrow. split.
  - intros s Hs Hne. rewrite Hs. simpl.
    rewrite (proj2 (String.eqb_neq s "published") Hne). simpl.
    eexists _, _. split; [reflexivity|]. simpl.
    rewrite lookup_insert_eq. split_and!; try done.
    intros other Hother. by rewrite lookup_insert_ne.
  - intros [-> | ->]; reflexivity.
Qed.

Lemma publish_once_witness :
  (∃ db' row',
     publish 42 "5" Samples.one_topic = (Http.ok "published", db')
     ∧ topics db' !! 5 = Some row'
     ∧ t_status row' = Some "published"
     ∧ t_published_at row' = Some 42
     ∧ t_title row' = "Basic Security" ∧ t_slug row' = "basic-security"
     ∧ ∀ other, other ≠ 5 → topics db' !! other = topics Samples.one_topic !! other)
  ∧ publish 43 "5" (publish 42 "5" Samples.one_topic).2
    = (Http.fail 404 "Topic not found or already published",
       (publish 42 "5" Samples.one_topic).2).
Proof.
  split.
  - apply (proj1 (publish_once 42 "5" Samples.one_topic 5 Samples.draft_topic eq_refl eq_refl)
             "draft" eq_refl).
    discriminate.
  - apply (proj2 (publish_once 43 "5" (publish 42 "5" Samples.one_topic).2 5
                    (with_status (Some "published") (Some 42) 42 Samples.draft_topic)
                    eq_refl eq_refl)).
    left. reflexivity.
Defined.

(** The claim as the specification words it does not hold: a topic whose
    status is NULL passes the CHECK of the column and is not 'published',
    yet the route answers 404 and leaves it unpublished. *)
Lemma publish_null_status_refused :
  Topics.valid_topic_status (t_status MoreSamples.unset_topic) = true
  ∧ t_status MoreSamples.unset_topic ≠ Some "published"
  ∧ publish 42 "4" MoreSamples.unset_store
    = (Http.fail 404 "Topic not found or already published",
       MoreSamples.unset_store)
  ∧ t_status <$> topics (publish 42 "4" MoreSamples.unset_store).2 !! 4
    = Some None.
Proof. split_and!; [reflexivity|discriminate|reflexivity|reflexivity]. Qed.

Lemma duplicate_statement_shape (newTitle newSlug : string) (topic : topic_row) :
  placeholders duplicate_values
  = [1; 2; 3; 4; 5; 6; 7; 9; 10; 11; 12; 13; 14; 15; 16; 17]%nat
  ∧ params_required duplicate_values = 17%nat
  ∧ length (duplicate_params newTitle newSlug topic) = 16%nat
  ∧ statement_binds duplicate_values
      (length (duplicate_params newTitle newSlug topic)) = false.
Proof. split_and!; reflexivity. Qed.

(** C9.  POST /api/topics/:id/duplicate on an existing topic always answers
    500 and leaves the store as it was: the INSERT names $1..$7 and $9..$17
    and is sent with 16 values, so it is never bound. *)
Theorem duplicate_never_binds (now : Z) (id : string) (db : store) (key : Z)
    (topic : topic_row) :
  int4_of_string id = Some key →
  topics db !! key = Some topic →
  (8%nat ∉ placeholders duplicate_values)
  ∧ params_required duplicate_values = 17%nat
  ∧ (∀ newTitle newSlug,
       length (duplicate_params newTitle newSlug topic) = 16%nat)
  ∧ duplicate now id db = (Http.server_error, db)
  ∧ Http.status (duplicate now id db).1 = 500.
Proof.
  intros Hid Hrow.
  assert (Hdup : duplicate now id db = (Http.server_error, db)).
  { unfold duplicate. rewrite Hid, Hrow.
    destruct (Slug.unique_slug _ _) as [newSlug|]; [|done].
    cbv zeta.
    by rewrite (proj2 (proj2 (proj2 (duplicate_statement_shape _ newSlug topic)))). }
  split_and!; [|reflexivity|reflexivity|done|by rewrite Hdup].
  apply (proj1 (bool_decide_eq_false _)). reflexivity.
Qed.

Lemma duplicate_never_binds_witness :
  duplicate 42 "5" Samples.one_topic = (Http.server_error, Samples.one_topic).
Proof.
  apply (duplicate_never_binds 42 "5" Samples.one_topic 5 Samples.draft_topic eq_refl eq_refl).
Defined.

End TopicActionFacts.

(** ** Routing *)

Section RouterFacts.
Import Db Router.

(** Any single non-empty piece after [/topics] is taken by [/topics/:id]
    within routes/topics.js, for GET and for DELETE alike. *)
Lemma topics_id_route_takes_all (piece : string) :
  piece ≠ "" →
  first_match GET ["topics"; piece] topics_routes
  = Some (on GET "/topics/:id", [("id", piece)])
  ∧ first_match DELETE ["topics"; piece] topics_routes
    = Some (on DELETE "/topics/:id", [("id", piece)]).
Proof.
  intros Hne. destruct piece as [|c piece]; [done|].
  split; reflexivity.
Qed.

(** C8.  Each of GET /api/topics/search, list, count, published, draft,
    featured, free, paid, export and DELETE /api/topics/bulk-delete has a
    route of its own registered, yet the request reaches the [/topics/:id]
    handler of routes/topics.js with the literal bound to [id]; that handler
    answers 500 and changes nothing, so the dedicated handler never runs. *)
Theorem literal_topic_routes_shadowed (m : method) (literal : string) :
  (m, literal) ∈ dedicated →
  on m (String.append "/topics/" literal)
    ∈ (topics_routes ++ topics_actions_routes)%list
  ∧ dispatch m (String.append "/api/topics/" literal)
    = Some ("topics", on m "/topics/:id", [("id", literal)])
  ∧ dispatch m (String.append "/api/topics/" literal)
    ≠ Some ("topics", on m (String.append "/topics/" literal), [])
  ∧ dispatch m (String.append "/api/topics/" literal)
    ≠ Some ("topicsActions", on m (String.append "/topics/" literal), [])
  ∧ ∀ db, by_id_handler m literal db = (Http.server_error, db).
Proof.
  unfold dedicated. rewrite !elem_of_cons, elem_of_nil.
  intros H. destruct_or!; try done; simplify_eq;
    (split_and!;
     [apply (bool_decide_unpack _); vm_compute; exact I
     |vm_compute; reflexivity
     |vm_compute; discriminate
     |vm_compute; discriminate
     |intros db; reflexivity]).
Qed.

Lemma literal_topic_routes_shadowed_witness :
  dispatch GET "/api/topics/search"
  = Some ("topics", on GET "/topics/:id", [("id", "search")])
  ∧ dispatch DELETE "/api/topics/bulk-delete"
    = Some ("topics", on DELETE "/topics/:id", [("id", "bulk-delete")]).
Proof.
  split.
  - apply (literal_topic_routes_shadowed GET "search").
    apply (bool_decide_unpack _). vm_compute. exact I.
  - apply (literal_topic_routes_shadowed DELETE "bulk-delete").
    apply (bool_decide_unpack _). vm_compute. exact I.
Defined.

End RouterFacts.

(** ** PUT /api/topics/:id: the transaction around the children *)

Section PutTransaction.
Import Db Tx TopicPut.

Variable exec_update :
  list (string * bound) → Z → gmap Z topic_row → option (gmap Z topic_row).
Variable minutes_of_hours : string → option Z.

Local Abbreviation put_topic := (put_topic exec_update minutes_of_hours).
Local Abbreviation update_fields := (update_fields minutes_of_hours).

(** The answers of the handler, one by one. *)
Lemma put_topic_cases (now : Z) (id : string) (b : body) (db : store)
    (resp : Http.response) (db' : store) :
  put_topic now id b db = (resp, db') →
  (Http.status resp ≠ 200 ∧ Http.status resp ≠ 500 ∧ db' = db)
  ∨ (resp = Http.server_error ∧ db' = db)
  ∨ ∃ key existing fields' topics',
      int4_of_string id = Some key
      ∧ topics db !! key = Some existing
      ∧ with_slug key existing (topics db) (fields b) = Some fields'
      ∧ update_fields db fields' ≠ []
      ∧ exec_update (update_fields db fields') key (topics db) = Some topics'
      ∧ let updated := Topics.set_topics topics' (topics_seq db) db in
        match modules_array b with
        | None => resp = Http.ok "updated" ∧ db' = updated
        | Some ms =>
            match reconcile now key ms updated with
            | Done _ committed => resp = Http.ok "updated" ∧ db' = committed
            | Raised s => resp = Http.server_error ∧ db' = rollback updated s
            end
        end.
Proof.
  unfold TopicPut.put_topic.
  destruct (int4_of_string id) as [key|] eqn:Hid;
    [|intros [= <- <-]; right; left; done].
  destruct (topics db !! key) as [existing|] eqn:Hrow; [|intros [= <- <-]; left; split_and!; [simpl; lia|simpl; lia|done]].
  destruct (with_slug _ _ _ _) as [fields'|] eqn:Hslug;
    [|intros [= <- <-]; right; left; done].
  destruct (TopicPut.update_fields _ db fields') as [|u us] eqn:Hupd;
    [intros [= <- <-]; left; split_and!; [simpl; lia|simpl; lia|done]|].
  destruct (exec_update _ _ _) as [topics'|] eqn:Hexec;
    [|intros [= <- <-]; right; left; done].
  intros Hput. right. right. exists key, existing, fields', topics'.
  rewrite Hupd. split_and!; [done..|].
  destruct (modules_array b) as [ms|]; [|by injection Hput as <- <-].
  destruct (reconcile _ _ _ _) as [[] committed|s]; by injection Hput as <- <-.
Qed.

Lemma put_topic_after_update (now : Z) (id : string) (b : body) (db : store)
    (key : Z) (existing : topic_row) (fields' : list (string * Js.value))
    (topics' : gmap Z topic_row) :
  int4_of_string id = Some key →
  topics db !! key = Some existing →
  with_slug key existing (topics db) (fields b) = Some fields' →
  update_fields db fields' ≠ [] →
  exec_update (update_fields db fields') key (topics db) = Some topics' →
  put_topic now id b db
  = let updated := Topics.set_topics topics' (topics_seq db) db in
    match modules_array b with
    | None => (Http.ok "updated", updated)
    | Some ms =>
        match reconcile now key ms updated with
        | Done _ committed => (Http.ok "updated", committed)
        | Raised s => (Http.server_error, rollback updated s)
        end
    end.
Proof.
  intros Hid Hrow Hslug Hne Hexec. unfold TopicPut.put_topic.
  rewrite Hid, Hrow, Hslug.
  destruct (TopicPut.update_fields _ db fields') as [|u us]; [done|].
  by rewrite Hexec.
Qed.

(** With a modules array, the handler either commits the transaction and
    answers 200, or leaves the module and video rows alone. *)
Lemma put_topic_commit_or_keep (now : Z) (id : string) (b : body) (db : store)
    (ms : list module_entry) (resp : Http.response) (db' : store) :
  modules_array b = Some ms →
  put_topic now id b db = (resp, db') →
  (Http.status resp = 200 →
     ∃ key topics',
       int4_of_string id = Some key
       ∧ reconcile now key ms (Topics.set_topics topics' (topics_seq db) db)
         = Done () db')
  ∧ (Http.status resp ≠ 200 → modules db' = modules db ∧ videos db' = videos db).
Proof.
  intros Hms Hput.
  destruct (put_topic_cases _ _ _ _ _ _ Hput)
    as [(H200 & _ & ->)|[[-> ->]|
        (key & existing & fields' & topics' & Hid & Hrow & Hslug & Hne & Hexec & Hrest)]];
    [done..|].
  rewrite Hms in Hrest. cbv zeta in Hrest.
  destruct (reconcile _ _ _ _) as [[] committed|s] eqn:Hrec;
    destruct Hrest as [-> ->].
  - split; [|done]. intros _. by exists key, topics'.
  - split; [done|]. intros _. done.
Qed.

(** C4.  In a PUT /api/topics/:id with a modules array the child operations
    are one transaction: an answer other than 200 leaves every module and
    video row as it was, and when the child transaction raises after the
    topic's own UPDATE went through, the answer is 500, the topic keeps the
    updated fields and the children are rolled back; an answer of 200 is the
    store of the committed transaction. *)
Theorem put_topic_children_atomic (now : Z) (id : string) (b : body)
    (db : store) (ms : list module_entry) (resp : Http.response) (db' : store) :
  modules_array b = Some ms →
  put_topic now id b db = (resp, db') →
  (Http.status resp ≠ 200 → modules db' = modules db ∧ videos db' = videos db)
  ∧ (∀ key existing fields' topics' s,
       int4_of_string id = Some key →
       topics db !! key = Some existing →
       with_slug key existing (topics db) (fields b) = Some fields' →
       exec_update (update_fields db fields') key (topics db) = Some topics' →
       reconcile now key ms (Topics.set_topics topics' (topics_seq db) db)
       = Raised s →
       update_fields db fields' ≠ [] →
       resp = Http.server_error
       ∧ topics db' = topics'
       ∧ modules db' = modules db ∧ videos db' = videos db)
  ∧ (Http.status resp = 200 →
     ∃ key topics',
       int4_of_string id = Some key
       ∧ reconcile now key ms (Topics.set_topics topics' (topics_seq db) db)
         = Done () db').
Proof.
  intros Hms Hput.
  assert (Hraised : ∀ key existing fields' topics' s,
       int4_of_string id = Some key →
       topics db !! key = Some existing →
       with_slug key existing (topics db) (fields b) = Some fields' →
       exec_update (update_fields db fields') key (topics db) = Some topics' →
       reconcile now key ms (Topics.set_topics topics' (topics_seq db) db)
       = Raised s →
       update_fields db fields' ≠ [] →
       resp = Http.server_error
       ∧ topics db' = topics'
       ∧ modules db' = modules db ∧ videos db' = videos db).
  { intros key existing fields' topics' s Hid Hrow Hslug Hexec Hraise Hne.
    rewrite (put_topic_after_update _ _ _ _ _ _ _ _ Hid Hrow Hslug Hne Hexec) in Hput.
    cbv zeta in Hput. rewrite Hms, Hraise in Hput. by injection Hput as <- <-. }
  split_and!; [|exact Hraised|].
  - destruct (put_topic_cases _ _ _ _ _ _ Hput)
      as [(_ & _ & ->)|[[-> ->]|
          (key & existing & fields' & topics' & Hid & Hrow & Hslug & Hne & Hexec & Hrest)]];
      [done..|].
    rewrite Hms in Hrest. cbv zeta in Hrest.
    destruct (reconcile _ _ _ _) as [[] committed|s] eqn:Hrec;
      destruct Hrest as [-> ->]; [done|].
    intros _. by destruct (Hraised _ _ _ _ _ Hid Hrow Hslug Hexec Hrec Hne) as (_ & _ & ? & ?).
  - destruct (put_topic_cases _ _ _ _ _ _ Hput)
      as [(H200 & _ & ->)|[[-> ->]|
          (key & existing & fields' & topics' & Hid & Hrow & Hslug & Hne & Hexec & Hrest)]];
      [done..|].
    rewrite Hms in Hrest. cbv zeta in Hrest. intros H200.
    exists key, topics'. split; [done|].
    destruct (reconcile _ _ _ _) as [[] committed|s]; destruct Hrest as [-> ->];
      done.
Qed.

End PutTransaction.

Lemma put_topic_children_atomic_witness :
  ∃ resp db',
    TopicPut.put_topic (Samples.exec_title_slug 100) Samples.no_hours 100 "5"
      Samples.failing_children Samples.course = (resp, db')
    ∧ resp = Http.server_error
    ∧ Db.t_title <$> Db.topics db' !! 5 = Some "Security Basics"
    ∧ Db.t_slug <$> Db.topics db' !! 5 = Some "security-basics"
    ∧ Db.modules db' = Db.modules Samples.course
    ∧ Db.videos db' = Db.videos Samples.course.
Proof.
  destruct (TopicPut.put_topic (Samples.exec_title_slug 100) Samples.no_hours
              100 "5" Samples.failing_children Samples.course)
    as [resp db'] eqn:Hput.
  exists resp, db'. split; [done|].
  destruct (put_topic_children_atomic (Samples.exec_title_slug 100)
              Samples.no_hours 100 "5" Samples.failing_children Samples.course
              _ resp db' eq_refl Hput) as (_ & Hraised & _).
  edestruct (Hraised 5 Samples.course_topic) as (-> & Htopics & Hmodules & Hvideos).
  - reflexivity.
  - reflexivity.
  - vm_compute. reflexivity.
  - vm_compute. reflexivity.
  - vm_compute. reflexivity.
  - vm_compute. discriminate.
  - rewrite Htopics. split_and!; [done| | |done..]; vm_compute; reflexivity.
Defined.

(** ** Reasoning about the statements of a transaction *)

Section TxFacts.
Import Db Tx.

Lemma post_done {A : Type} (m : tx A) (s : store) (Q : A → store → Prop)
    (a : A) (s' : store) :
  m s = Done a s' → post m s Q → Q a s'.
Proof. unfold post. by intros ->. Qed.

Lemma post_ret {A : Type} (a : A) (s : store) (Q : A → store → Prop) :
  Q a s → post (ret a) s Q.
Proof. done. Qed.

Lemma post_bind {A B : Type} (m : tx A) (k : A → tx B) (s : store)
    (Q : B → store → Prop) :
  post m s (λ a s', post (k a) s' Q) → post (bind m k) s Q.
Proof. unfold post, bind. by destruct (m s). Qed.

Lemma post_mono {A : Type} (m : tx A) (s : store) (Q Q' : A → store → Prop) :
  (∀ a s', Q a s' → Q' a s') → post m s Q → post m s Q'.
Proof. unfold post. destruct (m s); auto. Qed.

Lemma post_coerce {A : Type} (v : option A) (s : store) (Q : A → store → Prop) :
  (∀ a, v = Some a → Q a s) → post (coerce v) s Q.
Proof. destruct v; simpl; intros H; [by apply H|done]. Qed.

Lemma bind_done {A B : Type} (m : tx A) (k : A → tx B) (s : store)
    (b : B) (s' : store) :
  bind m k s = Done b s' → ∃ a s1, m s = Done a s1 ∧ k a s1 = Done b s'.
Proof. unfold bind. destruct (m s) as [a s1|]; [eauto|done]. Qed.

Lemma coerce_done {A : Type} (v : option A) (s : store) (a : A) (s' : store) :
  coerce v s = Done a s' → v = Some a ∧ s' = s.
Proof. destruct v; simpl; [|done]. by intros [= -> ->]. Qed.

End TxFacts.

(** ** PUT /api/topics/:id: what one entry does *)

Section PutEntries.
Import Db Tx TopicPut.

Lemma keeps_modules_trans (s1 s2 s3 : store) :
  keeps_modules s1 s2 → keeps_modules s2 s3 → keeps_modules s1 s3.
Proof. unfold keeps_modules. intros (-> & -> & ->) (-> & -> & ->). done. Qed.

Lemma insert_video_done (row : video_row) (s : store) (id : Z) (s' : store) :
  insert_video row s = Done id s' →
  id = videos_seq s
  ∧ videos s !! id = None
  ∧ video_columns_ok row = true
  ∧ video_references_ok row s = true
  ∧ s' = set_videos (<[id := row]> (videos s)) (id + 1) s.
Proof.
  unfold insert_video. destruct (_ && _) eqn:Hok; [|done].
  intros [= <- <-].
  apply andb_true_iff in Hok as [Hok Hfresh%bool_decide_eq_true].
  apply andb_true_iff in Hok as [Hok Hrefs].
  apply andb_true_iff in Hok as [_ Hcols]. done.
Qed.

Lemma insert_module_done (row : module_row) (s : store) (id : Z) (s' : store) :
  insert_module row s = Done id s' →
  id = modules_seq s
  ∧ modules s !! id = None
  ∧ s' = set_modules (<[id := row]> (modules s)) (id + 1) s.
Proof.
  unfold insert_module. destruct (_ && _) eqn:Hok; [|done].
  intros [= <- <-].
  by apply andb_true_iff in Hok as [_ Hfresh%bool_decide_eq_true].
Qed.

Lemma new_module_video_keeps (now topic module index : Z) (v : video_entry)
    (s : store) :
  post (new_module_video now topic module index v) s (λ _ s', keeps_modules s s').
Proof.
  unfold new_module_video. destruct (is_placeholder _); [|done].
  apply post_bind, post_coerce. intros row _.
  apply post_bind. unfold post at 1.
  destruct (insert_video row s) as [id s'|] eqn:Hins; [|done].
  apply insert_video_done in Hins as (_ & _ & _ & _ & ->). done.
Qed.

Lemma new_module_videos_keeps (now topic module : Z) (vs : list video_entry) :
  ∀ index s,
    post (new_module_videos now topic module index vs) s (λ _ s', keeps_modules s s').
Proof.
  induction vs as [|v vs IH]; intros index s; [done|].
  simpl. apply post_bind.
  eapply post_mono; [|apply new_module_video_keeps].
  intros [] s1 H1. simpl. eapply post_mono; [|apply IH].
  intros [] s2 H2. by eapply keeps_modules_trans.
Qed.

End PutEntries.

Section PutEntryCases.
Import Db Tx TopicPut.




End PutEntryCases.

(** ** PUT /api/topics/:id: the module rows after the transaction *)

Section PutModules.
Import Db Tx TopicPut.

Lemma elem_of_remove_first (n k : Z) (ids : list Z) :
  NoDup ids → k ∈ remove_first n ids ↔ k ∈ ids ∧ k ≠ n.
Proof.
  induction ids as [|x ids IH]; simpl; intros Hnd; [set_solver|].
  apply NoDup_cons in Hnd as [Hx Hnd]. case_bool_decide as Hxn.
  - subst x. set_solver.
  - rewrite !elem_of_cons, IH by done. naive_solver.
Qed.

Lemma NoDup_remove_first (n : Z) (ids : list Z) :
  NoDup ids → NoDup (remove_first n ids).
Proof.
  induction ids as [|x ids IH]; simpl; intros Hnd; [done|].
  apply NoDup_cons in Hnd as [Hx Hnd]. case_bool_decide; [done|].
  apply NoDup_cons. split; [|auto].
  rewrite elem_of_remove_first by done. tauto.
Qed.

Lemma strike_modules_spec (ms : list module_entry) :
  ∀ ids, NoDup ids →
    NoDup (foldl strike_module ids ms)
    ∧ ∀ k, k ∈ foldl strike_module ids ms ↔ k ∈ ids ∧ k ∉ kept_modules ms.
Proof.
  induction ms as [|m ms IH]; intros ids Hnd; simpl.
  - split; [done|]. set_solver.
  - assert (Hstep : NoDup (strike_module ids m)).
    { unfold strike_module. destruct (is_placeholder _); [done|].
      destruct (numeric_id _); [by apply NoDup_remove_first|done]. }
    destruct (IH _ Hstep) as [Hnd' Hin]. split; [done|].
    intros k. rewrite Hin. unfold kept_modules, strike_module. simpl.
    destruct (is_placeholder (me_id m)); [done|].
    destruct (numeric_id (me_id m)) as [n|]; [|done].
    rewrite elem_of_remove_first by done. set_solver.
Qed.

Lemma strike_videos_spec (vs : list video_entry) :
  ∀ ids, NoDup ids →
    NoDup (foldl strike_video ids vs)
    ∧ ∀ k, k ∈ foldl strike_video ids vs ↔ k ∈ ids ∧ k ∉ kept_videos vs.
Proof.
  induction vs as [|v vs IH]; intros ids Hnd; simpl.
  - split; [done|]. set_solver.
  - assert (Hstep : NoDup (strike_video ids v)).
    { unfold strike_video. destruct (is_placeholder _); [done|].
      destruct (numeric_id _); [by apply NoDup_remove_first|done]. }
    destruct (IH _ Hstep) as [Hnd' Hin]. split; [done|].
    intros k. rewrite Hin. unfold kept_videos, strike_video. simpl.
    destruct (is_placeholder (ve_id v)); [done|].
    destruct (numeric_id (ve_id v)) as [n|]; [|done].
    rewrite elem_of_remove_first by done. set_solver.
Qed.

Lemma grows_refl (topic : Z) (s : store) : grows topic s s.
Proof.
  split_and!; [lia|intros k ?; lia|].
  intros k. rewrite bool_decide_eq_false_2; [done|lia].
Qed.

Lemma grows_trans (topic : Z) (s1 s2 s3 : store) :
  grows topic s1 s2 → grows topic s2 s3 → grows topic s1 s3.
Proof.
  intros (Hle1 & Hfree1 & Htop1) (Hle2 & Hfree2 & Htop2). split_and!; [lia| |].
  - intros k Hk. destruct (decide (k < modules_seq s2)); [apply Hfree1; lia|].
    specialize (Hfree2 k ltac:(lia)). rewrite Htop1 in Hfree2.
    rewrite bool_decide_eq_false_2 in Hfree2 by lia. done.
  - intros k. rewrite Htop2, Htop1.
    repeat case_bool_decide; try done; lia.
Qed.

Lemma keeps_modules_grows (topic : Z) (s s' : store) :
  keeps_modules s s' → grows topic s s'.
Proof.
  intros (Hm & Hseq & _). unfold grows, topic_of. rewrite Hm, Hseq.
  split_and!; [lia|intros k ?; lia|].
  intros k. rewrite bool_decide_eq_false_2; [done|lia].
Qed.

Lemma existing_module_video_keeps (now topic module index : Z)
    (v : video_entry) (ids : list Z) (s : store) :
  post (existing_module_video now topic module index v ids) s
    (λ ids' s', keeps_modules s s' ∧ ids' = strike_video ids v).
Proof.
  unfold existing_module_video, strike_video.
  destruct (is_placeholder _).
  - apply post_bind, post_coerce. intros row _.
    apply post_bind. unfold post at 1.
    destruct (insert_video row s) as [id s'|] eqn:Hins; [|done].
    apply insert_video_done in Hins as (_ & _ & _ & _ & ->). done.
  - destruct (numeric_id _) as [n|]; [|done].
    apply post_bind, post_coerce. intros row _.
    apply post_bind, post_coerce. intros id _.
    apply post_bind. unfold post at 1, update_video.
    destruct (videos s !! id) as [old|]; [|done].
    case_bool_decide; [|done].
    destruct (video_columns_ok _); done.
Qed.

Lemma existing_module_videos_keeps (now topic module : Z) (vs : list video_entry) :
  ∀ index ids s,
    post (existing_module_videos now topic module index vs ids) s
      (λ ids' s', keeps_modules s s' ∧ ids' = foldl strike_video ids vs).
Proof.
  induction vs as [|v vs IH]; intros index ids s; [done|].
  simpl. apply post_bind.
  eapply post_mono; [|apply existing_module_video_keeps].
  intros ids1 s1 [H1 ->]. simpl. eapply post_mono; [|apply IH].
  intros ids2 s2 [H2 ->]. split; [by eapply keeps_modules_trans|done].
Qed.

Lemma delete_videos_keeps (ids : list Z) :
  ∀ s, post (for_each delete_video ids) s (λ _ s', keeps_modules s s').
Proof.
  induction ids as [|id ids IH]; intros s; [done|].
  simpl. apply post_bind. unfold post at 1. simpl.
  eapply post_mono; [|apply IH]. intros [] s' H. exact H.
Qed.

Lemma insert_module_grows (row : module_row) (s : store) :
  post (insert_module row) s
    (λ id s', grows (m_topic_id row) s s' ∧ modules_seq s' = modules_seq s + 1).
Proof.
  unfold post. destruct (insert_module row s) as [id s'|] eqn:Hins; [|done].
  apply insert_module_done in Hins as (-> & Hfresh & ->). split; [|done].
  unfold grows, topic_of. simpl. split_and!; [lia| |].
  - intros k Hk. replace k with (modules_seq s) by lia. by rewrite Hfresh.
  - intros k. case_bool_decide as Hk.
    + replace k with (modules_seq s) by lia. by rewrite lookup_insert_eq.
    + rewrite lookup_insert_ne by lia. done.
Qed.

Lemma update_module_grows (now : Z) (title description : string)
    (order id topic : Z) (s : store) :
  post (update_module now title description order id topic) s
    (λ _ s', grows topic s s' ∧ modules_seq s' = modules_seq s).
Proof.
  unfold post, update_module.
  destruct (modules s !! id) as [row|] eqn:Hrow;
    [|split; [apply grows_refl|done]].
  case_bool_decide as Htopic; [|split; [apply grows_refl|done]].
  destruct (fits_varchar _ _); [|done]. split; [|done].
  unfold grows, topic_of. simpl. split_and!; [lia|intros k ?; lia|].
  intros k. rewrite bool_decide_eq_false_2 by lia.
  destruct (decide (k = id)) as [->|Hne].
  - by rewrite lookup_insert_eq, Hrow.
  - by rewrite lookup_insert_ne.
Qed.

Lemma minted_singleton (m : module_entry) :
  minted [m] = if is_placeholder (me_id m) then 1 else 0.
Proof.
  unfold minted. rewrite filter_cons, filter_nil.
  destruct (is_placeholder (me_id m)); by case_decide.
Qed.

(** One module entry: rows are only added, for this topic and under fresh
    keys; the sequence moves by one for a placeholder entry; the list of
    ids loses what the entry names. *)
Lemma reconcile_module_grows (now topic index : Z) (m : module_entry)
    (ids : list Z) (s : store) :
  post (reconcile_module now topic index m ids) s
    (λ ids' s',
       grows topic s s'
       ∧ modules_seq s' = modules_seq s + minted [m]
       ∧ ids' = strike_module ids m).
Proof.
  unfold reconcile_module, strike_module. rewrite minted_singleton.
  destruct (is_placeholder (me_id m)) eqn:Hnew.
  - apply post_bind, post_coerce. intros order _.
    apply post_bind.
    eapply post_mono; [|apply insert_module_grows].
    intros moduleId s1 [Hg1 Hseq1]. simpl in Hg1.
    apply post_bind.
    assert (Hvideos : post (match me_videos m with
                            | Some vs => new_module_videos now topic moduleId 0 vs
                            | None => ret ()
                            end) s1 (λ _ s2, keeps_modules s1 s2)).
    { destruct (me_videos m); [apply new_module_videos_keeps|done]. }
    eapply post_mono; [|exact Hvideos].
    intros [] s2 Hk. simpl. split_and!; [|destruct Hk as (_ & -> & _); lia|done].
    eapply grows_trans; [exact Hg1|by apply keeps_modules_grows].
  - destruct (numeric_id (me_id m)) as [n|];
      [|simpl; split_and!; [apply grows_refl|lia|done]].
    apply post_bind, post_coerce. intros order _.
    apply post_bind, post_coerce. intros moduleId _.
    apply post_bind.
    eapply post_mono; [|apply update_module_grows].
    intros [] s1 [Hg1 Hseq1].
    apply post_bind.
    assert (Hvideos : post (match me_videos m with
                            | Some vs =>
                                let* existingVideoIds := video_ids moduleId in
                                let* left := existing_module_videos now topic
                                               moduleId 0 vs existingVideoIds in
                                for_each delete_video left
                            | None => ret ()
                            end) s1 (λ _ s2, keeps_modules s1 s2)).
    { destruct (me_videos m) as [vs|]; [|done].
      apply post_bind. unfold post at 1, video_ids.
      apply post_bind.
      eapply post_mono; [|apply existing_module_videos_keeps].
      intros left s2 [Hk2 _].
      eapply post_mono; [|apply delete_videos_keeps].
      intros [] s3 Hk3. by eapply keeps_modules_trans. }
    eapply post_mono; [|exact Hvideos].
    intros [] s2 Hk. simpl. split_and!; [|destruct Hk as (_ & -> & _); lia|done].
    eapply grows_trans; [exact Hg1|by apply keeps_modules_grows].
Qed.

Lemma minted_cons (m : module_entry) (ms : list module_entry) :
  minted (m :: ms) = minted [m] + minted ms.
Proof.
  rewrite minted_singleton. unfold minted. rewrite filter_cons.
  destruct (is_placeholder (me_id m)); case_decide; try done; simpl; lia.
Qed.

Lemma reconcile_modules_grows (now topic : Z) (ms : list module_entry) :
  ∀ index ids s,
    post (reconcile_modules now topic index ms ids) s
      (λ ids' s',
         grows topic s s'
         ∧ modules_seq s' = modules_seq s + minted ms
         ∧ ids' = foldl strike_module ids ms).
Proof.
  induction ms as [|m ms IH]; intros index ids s.
  - simpl. split_and!; [apply grows_refl|unfold minted; simpl; lia|done].
  - simpl. apply post_bind.
    eapply post_mono; [|apply reconcile_module_grows].
    intros ids1 s1 (Hg1 & Hseq1 & ->). simpl.
    eapply post_mono; [|apply IH].
    intros ids2 s2 (Hg2 & Hseq2 & ->).
    split_and!; [by eapply grows_trans| |done].
    rewrite minted_cons. lia.
Qed.

Lemma delete_modules_spec (ids : list Z) :
  ∀ s, post (for_each delete_module ids) s
         (λ _ s', modules_seq s' = modules_seq s
                  ∧ ∀ k, modules s' !! k
                         = if bool_decide (k ∈ ids) then None else modules s !! k).
Proof.
  induction ids as [|id ids IH]; intros s.
  - split; [done|]. intros k.
    by rewrite bool_decide_eq_false_2 by set_solver.
  - cbn [for_each]. apply post_bind. unfold post at 1. cbn [delete_module].
    eapply post_mono; [|apply IH]. intros [] s' [Hseq Hlook].
    cbn [modules modules_seq set_videos set_modules] in *.
    split; [done|]. intros k. rewrite Hlook.
    destruct (decide (k = id)) as [->|Hne].
    + rewrite (bool_decide_eq_true_2 (id ∈ id :: ids)) by set_solver.
      case_bool_decide; [done|]. by rewrite lookup_delete_eq.
    + rewrite lookup_delete_ne by done.
      repeat case_bool_decide; set_solver.
Qed.

Lemma elem_of_module_ids (topic : Z) (s : store) (k : Z) :
  k ∈ (map_to_list (filter (λ kv, m_topic_id kv.2 = topic) (modules s))).*1
  ↔ topic_of s k = Some topic.
Proof.
  unfold topic_of. rewrite list_elem_of_fmap. split.
  - intros ([k' row] & -> & Hin). apply elem_of_map_to_list in Hin.
    apply map_lookup_filter_Some in Hin as [Hrow Htopic]. simpl in *.
    by rewrite Hrow; simpl; rewrite Htopic.
  - destruct (modules s !! k) as [row|] eqn:Hrow; [|done].
    intros [= Htopic]. exists (k, row). split; [done|].
    apply elem_of_map_to_list, map_lookup_filter_Some. done.
Qed.

(** The module rows of the topic once everything between BEGIN and COMMIT
    has run. *)
Lemma reconcile_modules_of_topic (now topic : Z) (ms : list module_entry)
    (s s' : store) :
  reconcile now topic ms s = Done () s' →
  (∀ k, topic_of s' k = Some topic
        ↔ (topic_of s k = Some topic ∧ k ∈ kept_modules ms)
          ∨ modules_seq s ≤ k < modules_seq s + minted ms)
  ∧ (∀ k, topic_of s k = Some topic → k ∉ kept_modules ms →
          modules s' !! k = None)
  ∧ (∀ k t, t ≠ topic → topic_of s' k = Some t ↔ topic_of s k = Some t).
Proof.
  unfold reconcile. intros Hrec.
  apply bind_done in Hrec as (L0 & s0 & [= <- <-] & Hrec).
  apply bind_done in Hrec as (left & s1 & Hloop & Hdel).
  pose proof (post_done _ _ _ _ _ Hloop (reconcile_modules_grows _ _ _ _ _ _))
    as ((Hle & Hfree & Htop) & Hseq & ->).
  pose proof (post_done _ _ _ _ _ Hdel (delete_modules_spec _ _)) as [_ Hlook].
  cbv beta in Hlook.
  set (L0 := (map_to_list _).*1) in *.
  assert (Hnd : NoDup L0) by apply NoDup_fst_map_to_list.
  destruct (strike_modules_spec ms L0 Hnd) as [_ Hleft].
  assert (HL0 : ∀ k, k ∈ L0 ↔ topic_of s k = Some topic)
    by (intros k; apply elem_of_module_ids).
  assert (Hfinal : ∀ k, topic_of s' k
                        = if bool_decide (k ∈ foldl strike_module L0 ms)
                          then None else topic_of s1 k).
  { intros k. unfold topic_of. rewrite Hlook. by case_bool_decide. }
  rewrite Hseq in Hfree, Htop.
  split_and!.
  - intros k. rewrite Hfinal, Htop.
    destruct (decide (modules_seq s ≤ k < modules_seq s + minted ms)) as [Hk|Hk].
    + rewrite (bool_decide_eq_true_2 _ Hk).
      assert (k ∉ L0) by (rewrite HL0, (Hfree k Hk); done).
      rewrite bool_decide_eq_false_2 by (rewrite Hleft; tauto). tauto.
    + rewrite (bool_decide_eq_false_2 _ Hk). case_bool_decide as Hin.
      * apply Hleft in Hin as [Hin Hkept]. split; [done|]. intros [[_ ?]|?]; done.
      * split; [|intros [[? _]|?]; done].
        intros Hk0. left. split; [done|].
        destruct (decide (k ∈ kept_modules ms)); [done|].
        exfalso. apply Hin, Hleft. by rewrite HL0.
  - intros k Hk0 Hkept. rewrite Hlook.
    rewrite bool_decide_eq_true_2; [done|]. apply Hleft. by rewrite HL0.
  - intros k t Ht. rewrite Hfinal, Htop. case_bool_decide as Hin.
    + apply Hleft in Hin as [Hin _]. apply HL0 in Hin. rewrite Hin.
      split; [done|]. intros [= ?]. done.
    + case_bool_decide as Hk; [|done].
      rewrite (Hfree k Hk). split; [|done]. intros [= ?]. done.
Qed.

End PutModules.

(** ** PUT /api/topics/:id: the video rows after the transaction *)

Section PutVideos.
Import Db Tx TopicPut.

Lemma post_and {A : Type} (m : tx A) (s : store) (Q1 Q2 : A → store → Prop) :
  post m s Q1 → post m s Q2 → post m s (λ a s', Q1 a s' ∧ Q2 a s').
Proof. unfold post. destruct (m s); auto. Qed.

Lemma ages_refl (s : store) : ages s s.
Proof. split; [lia|auto]. Qed.

Lemma ages_trans (s1 s2 s3 : store) : ages s1 s2 → ages s2 s3 → ages s1 s3.
Proof.
  intros [Hle1 H1] [Hle2 H2]. split; [lia|].
  intros k Hk. destruct (H2 k ltac:(lia)) as [->| ->]; [by left|by apply H1].
Qed.

Lemma same_videos_ages (s s' : store) :
  videos s' = videos s → videos_seq s' = videos_seq s → ages s s'.
Proof.
  intros Hv Hseq. unfold ages, module_of. rewrite Hv, Hseq. split; [lia|auto].
Qed.

Lemma module_of_None (s : store) (k : Z) :
  module_of s k = None ↔ videos s !! k = None.
Proof. unfold module_of. apply fmap_None. Qed.

Lemma insert_video_ages (row : video_row) (s : store) :
  post (insert_video row) s (λ _ s', ages s s').
Proof.
  unfold post. destruct (insert_video row s) as [id s'|] eqn:Hins; [|done].
  apply insert_video_done in Hins as (-> & _ & _ & _ & ->).
  unfold ages, module_of. simpl. split; [lia|].
  intros k Hk. right. by rewrite lookup_insert_ne by lia.
Qed.

Lemma update_video_ages (new : video_row) (id module : Z) (s : store) :
  post (update_video new id module) s (λ _ s', ages s s').
Proof.
  unfold post, update_video.
  destruct (videos s !! id) as [old|] eqn:Hold; [|apply ages_refl].
  case_bool_decide; [|apply ages_refl].
  destruct (video_columns_ok _); [|done].
  unfold ages, module_of. simpl. split; [lia|].
  intros k Hk. right. destruct (decide (k = id)) as [->|Hne].
  - by rewrite lookup_insert_eq, Hold.
  - by rewrite lookup_insert_ne.
Qed.

Lemma delete_video_ages (id : Z) (s : store) :
  post (delete_video id) s (λ _ s', ages s s').
Proof.
  unfold post, delete_video, ages, module_of. simpl. split; [lia|].
  intros k Hk. destruct (decide (k = id)) as [->|Hne].
  - left. by rewrite lookup_delete_eq.
  - right. by rewrite lookup_delete_ne.
Qed.

Lemma delete_module_ages (id : Z) (s : store) :
  post (delete_module id) s (λ _ s', ages s s').
Proof.
  unfold post, delete_module, ages, module_of. simpl. split; [lia|].
  intros k Hk.
  destruct (filter _ (videos s) !! k) as [row|] eqn:Hrow; [|by left].
  right. apply map_lookup_filter_Some in Hrow as [-> _]. done.
Qed.

Lemma for_each_ages {A : Type} (f : A → tx unit) (l : list A) :
  (∀ x s, post (f x) s (λ _ s', ages s s')) →
  ∀ s, post (for_each f l) s (λ _ s', ages s s').
Proof.
  intros Hf. induction l as [|x l IH]; intros s; [apply ages_refl|].
  cbn [for_each]. apply post_bind.
  eapply post_mono; [|apply Hf]. intros [] s1 H1.
  eapply post_mono; [|apply IH]. intros [] s2 H2. by eapply ages_trans.
Qed.

Lemma new_module_video_ages (now topic module index : Z) (v : video_entry)
    (s : store) :
  post (new_module_video now topic module index v) s (λ _ s', ages s s').
Proof.
  unfold new_module_video. destruct (is_placeholder _); [|apply ages_refl].
  apply post_bind, post_coerce. intros row _. apply post_bind.
  eapply post_mono; [|apply insert_video_ages]. intros id s' H. exact H.
Qed.

Lemma new_module_videos_ages (now topic module : Z) (vs : list video_entry) :
  ∀ index s,
    post (new_module_videos now topic module index vs) s (λ _ s', ages s s').
Proof.
  induction vs as [|v vs IH]; intros index s; [apply ages_refl|].
  cbn [new_module_videos]. apply post_bind.
  eapply post_mono; [|apply new_module_video_ages]. intros [] s1 H1.
  eapply post_mono; [|apply IH]. intros [] s2 H2. by eapply ages_trans.
Qed.

Lemma existing_module_video_ages (now topic module index : Z)
    (v : video_entry) (ids : list Z) (s : store) :
  post (existing_module_video now topic module index v ids) s (λ _ s', ages s s').
Proof.
  unfold existing_module_video. destruct (is_placeholder _).
  - apply post_bind, post_coerce. intros row _. apply post_bind.
    eapply post_mono; [|apply insert_video_ages]. intros id s' H. exact H.
  - destruct (numeric_id _) as [n|]; [|apply ages_refl].
    apply post_bind, post_coerce. intros row _.
    apply post_bind, post_coerce. intros id _. apply post_bind.
    eapply post_mono; [|apply update_video_ages]. intros [] s' H. exact H.
Qed.

Lemma existing_module_videos_ages (now topic module : Z) (vs : list video_entry) :
  ∀ index ids s,
    post (existing_module_videos now topic module index vs ids) s
      (λ _ s', ages s s').
Proof.
  induction vs as [|v vs IH]; intros index ids s; [apply ages_refl|].
  cbn [existing_module_videos]. apply post_bind.
  eapply post_mono; [|apply existing_module_video_ages]. intros ids1 s1 H1.
  eapply post_mono; [|apply IH]. intros ids2 s2 H2. cbv beta in *.
  by eapply ages_trans.
Qed.

Lemma insert_module_ages (row : module_row) (s : store) :
  post (insert_module row) s (λ _ s', ages s s').
Proof.
  unfold post. destruct (insert_module row s) as [id s'|] eqn:Hins; [|done].
  apply insert_module_done in Hins as (_ & _ & ->). by apply same_videos_ages.
Qed.

Lemma update_module_ages (now : Z) (title description : string)
    (order id topic : Z) (s : store) :
  post (update_module now title description order id topic) s (λ _ s', ages s s').
Proof.
  unfold post, update_module.
  destruct (modules s !! id) as [row|]; [|apply ages_refl].
  case_bool_decide; [|apply ages_refl].
  destruct (fits_varchar _ _); [|done]. by apply same_videos_ages.
Qed.

Lemma update_module_same_videos (now : Z) (title description : string)
    (order id topic : Z) (s : store) :
  post (update_module now title description order id topic) s
    (λ _ s', videos s' = videos s ∧ videos_seq s' = videos_seq s).
Proof.
  unfold post, update_module.
  destruct (modules s !! id) as [row|]; [|done].
  case_bool_decide; [|done].
  destruct (fits_varchar _ _); done.
Qed.

Lemma delete_videos_spec (ids : list Z) :
  ∀ s, post (for_each delete_video ids) s
         (λ _ s', ∀ k, videos s' !! k
                       = if bool_decide (k ∈ ids) then None else videos s !! k).
Proof.
  induction ids as [|id ids IH]; intros s.
  - intros k. by rewrite bool_decide_eq_false_2 by set_solver.
  - cbn [for_each]. apply post_bind. unfold post at 1. cbn [delete_video].
    eapply post_mono; [|apply IH]. intros [] s' Hlook.
    cbn [videos set_videos] in *.
    intros k. rewrite Hlook.
    destruct (decide (k = id)) as [->|Hne].
    + rewrite (bool_decide_eq_true_2 (id ∈ id :: ids)) by set_solver.
      case_bool_decide; [done|]. by rewrite lookup_delete_eq.
    + rewrite lookup_delete_ne by done.
      repeat case_bool_decide; set_solver.
Qed.

Lemma elem_of_video_ids (module : Z) (s : store) (k : Z) :
  k ∈ (map_to_list (filter (λ kv, v_module_id kv.2 = module) (videos s))).*1
  ↔ module_of s k = Some module.
Proof.
  unfold module_of. rewrite list_elem_of_fmap. split.
  - intros ([k' row] & -> & Hin). apply elem_of_map_to_list in Hin.
    apply map_lookup_filter_Some in Hin as [Hrow Hmodule]. simpl in *.
    by rewrite Hrow; simpl; rewrite Hmodule.
  - destruct (videos s !! k) as [row|] eqn:Hrow; [|done].
    intros [= Hmodule]. exists (k, row). split; [done|].
    apply elem_of_map_to_list, map_lookup_filter_Some. done.
Qed.

(** The video part of a matched module entry, from the SELECT to the last
    DELETE: a video of the module that the entry does not name is gone. *)
Lemma matched_videos_struck (now topic moduleId : Z) (vs : list video_entry)
    (s : store) :
  post (let* existingVideoIds := video_ids moduleId in
        let* left := existing_module_videos now topic moduleId 0 vs
                       existingVideoIds in
        for_each delete_video left) s
    (λ _ s', ages s s'
             ∧ ∀ v, module_of s v = Some moduleId → v ∉ kept_videos vs →
                    module_of s' v = None).
Proof.
  apply post_bind. unfold post at 1, video_ids.
  set (E := (map_to_list _).*1).
  assert (Hnd : NoDup E) by apply NoDup_fst_map_to_list.
  destruct (strike_videos_spec vs E Hnd) as [_ Hleft].
  apply post_bind.
  eapply post_mono;
    [|apply post_and;
       [apply existing_module_videos_keeps|apply existing_module_videos_ages]].
  intros left s1 [[_ ->] Hages1]. cbv beta.
  eapply post_mono;
    [|apply post_and;
       [apply delete_videos_spec
       |apply (for_each_ages delete_video _ delete_video_ages)]].
  intros [] s2 [Hgone Hages2]. cbv beta in *. split; [by eapply ages_trans|].
  intros v Hv Hkept. apply module_of_None. rewrite Hgone.
  rewrite bool_decide_eq_true_2; [done|].
  apply Hleft. split; [|done]. by apply elem_of_video_ids.
Qed.

(** One module entry, seen from the video table. *)
Lemma reconcile_module_videos (now topic index : Z) (m : module_entry)
    (ids : list Z) (s : store) :
  post (reconcile_module now topic index m ids) s
    (λ _ s',
       ages s s'
       ∧ ∀ vs mid v,
           is_placeholder (me_id m) = false →
           is_Some (numeric_id (me_id m)) →
           int4_param (me_id m) = Some (Some mid) →
           me_videos m = Some vs →
           module_of s v = Some mid → v ∉ kept_videos vs →
           module_of s' v = None).
Proof.
  unfold reconcile_module.
  destruct (is_placeholder (me_id m)) eqn:Hnew.
  - apply post_bind, post_coerce. intros order _. apply post_bind.
    eapply post_mono; [|apply insert_module_ages]. intros moduleId s1 H1.
    cbv beta. apply post_bind.
    assert (Hvideos : post (match me_videos m with
                            | Some vs => new_module_videos now topic moduleId 0 vs
                            | None => ret ()
                            end) s1 (λ _ s2, ages s1 s2)).
    { destruct (me_videos m); [apply new_module_videos_ages|apply ages_refl]. }
    eapply post_mono; [|exact Hvideos]. intros [] s2 H2.
    cbv beta in *. apply post_ret.
    split; [by eapply ages_trans|]. intros; done.
  - destruct (numeric_id (me_id m)) as [n|] eqn:Hnum.
    2:{ apply post_ret. split; [apply ages_refl|]. intros ???? []; done. }
    apply post_bind, post_coerce. intros order _.
    apply post_bind, post_coerce. intros moduleId Hmid.
    apply post_bind.
    eapply post_mono;
      [|apply post_and; [apply update_module_same_videos|apply update_module_ages]].
    intros [] s1 [[Hv1 Hseq1] Hages1]. cbv beta in *.
    apply post_bind.
    destruct (me_videos m) as [vs|].
    + eapply post_mono; [|apply matched_videos_struck].
      intros [] s2 [Hages2 Hstruck]. cbv beta in *. apply post_ret.
      split; [by eapply ages_trans|].
      intros vs' mid v _ _ Hparam [= <-] Hv Hkept.
      rewrite Hparam in Hmid. simpl in Hmid. injection Hmid as <-.
      apply Hstruck; [|done]. unfold module_of in *. by rewrite Hv1.
    + split; [exact Hages1|]. intros ??? _ _ _ [=].
Qed.

(** The loop over the modules array, seen from the video table. *)
Lemma reconcile_modules_videos (now topic : Z) (ms : list module_entry) :
  ∀ index ids s,
    post (reconcile_modules now topic index ms ids) s
      (λ _ s',
         ages s s'
         ∧ ∀ m vs mid v,
             m ∈ ms →
             is_placeholder (me_id m) = false →
             is_Some (numeric_id (me_id m)) →
             int4_param (me_id m) = Some (Some mid) →
             me_videos m = Some vs →
             v < videos_seq s →
             module_of s v = Some mid → v ∉ kept_videos vs →
             module_of s' v = None).
Proof.
  induction ms as [|m ms IH]; intros index ids s.
  - split; [apply ages_refl|]. intros m vs mid v Hin. set_solver.
  - cbn [reconcile_modules]. apply post_bind.
    eapply post_mono; [|apply reconcile_module_videos].
    intros ids1 s1 [Hages1 Hhead]. cbv beta.
    eapply post_mono; [|apply IH].
    intros ids2 s2 [Hages2 Htail]. split; [by eapply ages_trans|].
    intros m' vs mid v Hin Hnew Hnum Hparam Hvs Hold Hv Hkept.
    destruct Hages1 as [Hle1 Hstep1]. destruct Hages2 as [Hle2 Hstep2].
    assert (Hgone : module_of s1 v = None → module_of s2 v = None).
    { intros Hnone. destruct (Hstep2 v ltac:(lia)) as [?|Heq]; [done|congruence]. }
    apply elem_of_cons in Hin as [->|Hin].
    + apply Hgone. by eapply Hhead.
    + destruct (Hstep1 v Hold) as [Hnone|Hsame]; [by apply Hgone|].
      eapply Htail; [done..|lia|congruence|done].
Qed.

(** Everything between BEGIN and COMMIT, seen from the video table. *)
Lemma reconcile_videos_struck (now topic : Z) (ms : list module_entry)
    (s s' : store) :
  reconcile now topic ms s = Done () s' →
  ∀ m vs mid v,
    m ∈ ms →
    is_placeholder (me_id m) = false →
    is_Some (numeric_id (me_id m)) →
    int4_param (me_id m) = Some (Some mid) →
    me_videos m = Some vs →
    v < videos_seq s →
    module_of s v = Some mid → v ∉ kept_videos vs →
    videos s' !! v = None.
Proof.
  unfold reconcile. intros Hrec.
  apply bind_done in Hrec as (L0 & s0 & [= <- <-] & Hrec).
  apply bind_done in Hrec as (left & s1 & Hloop & Hdel).
  pose proof (post_done _ _ _ _ _ Hloop (reconcile_modules_videos _ _ _ _ _ _))
    as [[Hle1 _] Hstruck].
  pose proof (post_done _ _ _ _ _ Hdel
                (for_each_ages delete_module _ delete_module_ages _))
    as [_ Hstep2].
  intros m vs mid v Hin Hnew Hnum Hparam Hvs Hold Hv Hkept.
  apply module_of_None.
  destruct (Hstep2 v ltac:(lia)) as [?|Heq]; [done|].
  rewrite Heq. by eapply Hstruck.
Qed.

End PutVideos.

(** ** PUT /api/topics/:id: the children after a request *)

Section PutChildren.
Import Db Tx TopicPut.

Variable exec_update :
  list (string * bound) → Z → gmap Z topic_row → option (gmap Z topic_row).
Variable minutes_of_hours : string → option Z.

Local Abbreviation put_topic := (put_topic exec_update minutes_of_hours).

(** C1, as the code has it.  A PUT /api/topics/:id with a modules array
    that answers 200 leaves, as the module rows of the topic, the rows that
    were there and whose id is the number of a payload entry, and one newly
    minted row for each placeholder entry; a row of the topic that no entry
    names is deleted; and for a matched entry that carries a videos array,
    every video that was in that module and that the array does not name is
    deleted.  A request that does not answer 200 changes no module or video
    row. *)
Theorem put_topic_reconciles_children (now : Z) (id : string) (b : body)
    (db : store) (ms : list module_entry) (key : Z) (resp : Http.response)
    (db' : store) :
  modules_array b = Some ms →
  int4_of_string id = Some key →
  put_topic now id b db = (resp, db') →
  (Http.status resp = 200 →
     (∀ k, topic_of db' k = Some key
           ↔ (topic_of db k = Some key ∧ k ∈ kept_modules ms)
             ∨ modules_seq db ≤ k < modules_seq db + minted ms)
     ∧ (∀ k, topic_of db k = Some key → k ∉ kept_modules ms →
             modules db' !! k = None)
     ∧ (∀ m vs mid v,
          m ∈ ms →
          is_placeholder (me_id m) = false →
          is_Some (numeric_id (me_id m)) →
          int4_param (me_id m) = Some (Some mid) →
          me_videos m = Some vs →
          v < videos_seq db →
          module_of db v = Some mid → v ∉ kept_videos vs →
          videos db' !! v = None))
  ∧ (Http.status resp ≠ 200 → modules db' = modules db ∧ videos db' = videos db).
Proof.
  intros Hms Hid Hput.
  destruct (put_topic_commit_or_keep exec_update minutes_of_hours
              now id b db ms resp db' Hms Hput) as (Hok & Hfail).
  split; [|done].
  intros H200. destruct (Hok H200) as (key' & topics' & Hid' & Hrec).
  assert (key' = key) as -> by congruence.
  destruct (reconcile_modules_of_topic _ _ _ _ _ Hrec) as (Hset & Hgone & _).
  split_and!; [exact Hset|exact Hgone|].
  intros m vs mid v. apply (reconcile_videos_struck _ _ _ _ _ Hrec).
Qed.

End PutChildren.

Lemma put_topic_reconciles_children_witness :
  ∃ resp db',
    TopicPut.put_topic (Samples.exec_title_slug 100) Samples.no_hours 100 "5"
      Samples.replace_children Samples.course = (resp, db')
    ∧ Http.status resp = 200
    ∧ (∀ k, TopicPut.topic_of db' k = Some 5 ↔ k = 5 ∨ k = 10)
    ∧ Db.modules db' !! 6 = None
    ∧ Db.videos db' !! 8 = None.
Proof.
  destruct (TopicPut.put_topic (Samples.exec_title_slug 100) Samples.no_hours
              100 "5" Samples.replace_children Samples.course)
    as [resp db'] eqn:Hput.
  exists resp, db'. split; [done|].
  assert (H200 : Http.status resp = 200).
  { replace resp with
      (TopicPut.put_topic (Samples.exec_title_slug 100) Samples.no_hours
         100 "5" Samples.replace_children Samples.course).1 by (by rewrite Hput).
    vm_compute. reflexivity. }
  split; [done|].
  destruct (put_topic_reconciles_children (Samples.exec_title_slug 100)
              Samples.no_hours 100 "5" Samples.replace_children Samples.course
              _ 5 resp db' eq_refl eq_refl Hput) as [Hok _].
  destruct (Hok H200) as (Hset & Hgone & Hvideos).
  split_and!.
  - intros k. rewrite Hset.
    change (TopicPut.minted _) with 1. change (Db.modules_seq _) with 10.
    change (TopicPut.kept_modules _) with [5].
    split.
    + intros [[_ ->%list_elem_of_singleton]|?]; [by left|right; lia].
    + intros [->| ->]; [left; split; [reflexivity|set_solver]|right; lia].
  - apply Hgone; [reflexivity|]. change (TopicPut.kept_modules _) with [5].
    set_solver.
  - eapply (Hvideos (Samples.module_entry_of (Js.JNum 5) "Risk management" _) _ 5 8);
      [by left|reflexivity|by eexists|reflexivity|reflexivity|reflexivity
      |reflexivity|].
    change (TopicPut.kept_videos _) with [7]. set_solver.
Defined.

(** The claim as the specification words it does not hold: a module id that
    the payload names and no row has is not persisted, and a body made of a
    modules array alone is turned away with 400 while the modules it leaves
    out stay. *)
Lemma put_topic_set_differs_from_payload :
  let named := TopicPut.put_topic (Samples.exec_title_slug 100) Samples.no_hours
                 100 "5" Samples.unknown_children Samples.course in
  let alone := TopicPut.put_topic (Samples.exec_title_slug 100) Samples.no_hours
                 100 "5" Samples.children_only Samples.course in
  Http.status named.1 = 200
  ∧ 999 ∈ TopicPut.kept_modules
            (default [] (TopicPut.modules_array Samples.unknown_children))
  ∧ Db.modules named.2 !! 999 = None
  ∧ Http.status alone.1 = 400
  ∧ TopicPut.modules_array Samples.children_only = Some []
  ∧ TopicPut.topic_of alone.2 6 = Some 5.
Proof.
  cbv zeta. split_and!; try (vm_compute; reflexivity).
  vm_compute. left.
Qed.


(** ** Durations *)

Section DurationFacts.
Import Db Tx Videos.

Lemma update_module_duration_ok (now module : Z) (s : store) :
  post (update_module_duration now module) s
    (λ _ s', module_duration_ok module s'
             ∧ videos s' = videos s ∧ topics s' = topics s).
Proof.
  unfold post, update_module_duration, module_duration_ok.
  destruct (modules s !! module) as [row|] eqn:Hrow; [|by rewrite Hrow].
  unfold int4_of_Z. destruct (int4_range _); [|done].
  simpl. rewrite lookup_insert_eq. done.
Qed.

Lemma update_topic_duration_ok (now topic : Z) (s : store) :
  post (update_topic_duration now topic) s
    (λ _ s', topic_duration_ok topic s'
             ∧ videos s' = videos s ∧ modules s' = modules s).
Proof.
  unfold post, update_topic_duration, topic_duration_ok.
  destruct (topics s !! topic) as [row|] eqn:Hrow; [|by rewrite Hrow].
  unfold int4_of_Z. destruct (int4_range _); [|done].
  simpl. rewrite lookup_insert_eq. done.
Qed.

(** The upload route recomputes both columns after its INSERT. *)
Lemma save_upload_recomputes (now topic module : Z)
    (title description url : string) (seconds order : Z) (s : store)
    (id : Z) (s' : store) :
  save_upload now topic module title description url seconds order s = Done id s' →
  module_duration_ok module s' ∧ topic_duration_ok topic s'.
Proof.
  unfold save_upload.
  intros (id' & s1 & _ & Hrest)%bind_done.
  apply bind_done in Hrest as ([] & s2 & Hmod & Hrest).
  apply bind_done in Hrest as ([] & s3 & Htop & [= _ <-]).
  pose proof (post_done _ _ _ _ _ Hmod (update_module_duration_ok _ _ _))
    as (Hm & _ & _).
  pose proof (post_done _ _ _ _ _ Htop (update_topic_duration_ok _ _ _))
    as (Ht & Hv & Hms).
  split; [|done].
  unfold module_duration_ok, module_minutes in *. by rewrite Hms, Hv.
Qed.

(** C3 at the inputs where the code departs from it.  On a store whose
    duration columns agree with its videos, POST .../videos with a
    two-minute clip answers 201, DELETE .../videos/8 answers 200 and the
    nested PUT answers 200, and after each of them module 5 still holds its
    old duration_minutes, which is no longer the sum of its videos' seconds
    over 60. *)
Theorem json_video_routes_leave_durations :
  let posted := post_video 100 "5" "5" Samples.clip Samples.course in
  let deleted := delete_video "5" "8" Samples.course in
  let put := TopicPut.put_topic (Samples.exec_title_slug 100) Samples.no_hours
               100 "5" Samples.replace_children Samples.course in
  (module_duration_ok 5 Samples.course ∧ topic_duration_ok 5 Samples.course)
  ∧ (Http.status posted.1 = 201
     ∧ m_duration_minutes <$> modules posted.2 !! 5 = Some 2
     ∧ module_minutes 5 posted.2 = 4
     ∧ ¬ module_duration_ok 5 posted.2)
  ∧ (Http.status deleted.1 = 200
     ∧ m_duration_minutes <$> modules deleted.2 !! 5 = Some 2
     ∧ module_minutes 5 deleted.2 = 1
     ∧ ¬ module_duration_ok 5 deleted.2)
  ∧ (Http.status put.1 = 200
     ∧ m_duration_minutes <$> modules put.2 !! 5 = Some 2
     ∧ module_minutes 5 put.2 = 30
     ∧ ¬ module_duration_ok 5 put.2).
Proof.
  cbv zeta. split_and!; try (vm_compute; reflexivity);
    vm_compute; discriminate.
Qed.

End DurationFacts.

(** ** Checks of the built-ins on sample inputs *)

Section BuiltinChecks.
Import Db TopicPut.

Example parseInt_samples :
  Js.parseInt_string "  -12abc" = Some (-12)
  ∧ Js.parseInt_string "0x1A" = Some 26
  ∧ Js.parseInt_string "new-1" = None
  ∧ Js.parseInt (Js.JNum 7) = Some 7
  ∧ Js.parseInt Js.JUndef = None.
Proof. split_and!; reflexivity. Qed.

Example int4_samples :
  int4_of_string " 42 " = Some 42
  ∧ int4_of_string "12abc" = None
  ∧ int4_of_string "search" = None
  ∧ int4_of_string "2147483648" = None
  ∧ int4_param (Js.JStr "0x10") = None.
Proof. split_and!; reflexivity. Qed.

Example id_branches :
  is_placeholder (Js.JStr "new-1700000000") = true
  ∧ is_placeholder (Js.JStr "5") = false
  ∧ numeric_id (Js.JStr "5") = Some 5
  ∧ numeric_id (Js.JNum 0) = None
  ∧ numeric_id (Js.JStr "abc") = None
  ∧ order_index Js.JUndef 2 = Some 3
  ∧ order_index (Js.JNum 7) 2 = Some 7
  ∧ durationSeconds (Js.JStr "15") = Some 900.
Proof. split_and!; reflexivity. Qed.

Example update_fields_sample :
  update_fields Samples.no_hours Samples.course
    [("title", Js.JStr "T"); ("isFree", Js.JBool true); ("modules", Js.JOther);
     ("featured", Js.JBool true); ("tags", Js.JOther); ("category", Js.JStr "7");
     ("subcategory", Js.JStr "no-such-name"); ("viewCount", Js.JNum 3)]
  = [("title", Raw (Js.JStr "T")); ("is_free", Raw (Js.JBool true));
     ("is_featured", Raw (Js.JBool true)); ("tags", Json Js.JOther);
     ("category_id", Raw (Js.JNum 7))].
Proof. reflexivity. Qed.

End BuiltinChecks.

(** ** PUT /api/topics/:id: the turn of each entry of the payload *)

Section PutTurnFacts.
Import Db Tx TopicPut PutTurns.















Variable exec_update :
  list (string * bound) → Z → gmap Z topic_row → option (gmap Z topic_row).
Variable minutes_of_hours : string → option Z.

Local Abbreviation put_topic := (put_topic exec_update minutes_of_hours).


End PutTurnFacts.


(* ===================================================================== *)
(** * Further properties of the handlers                                 *)
(* ===================================================================== *)

(** ** toggle-status, toggle-featured and archive *)

Section ToggleFacts.
Import Db TopicToggles.

Lemma next_status_valid (currentStatus : option string) :
  Topics.valid_topic_status (Some (next_status currentStatus)) = true.
Proof.
  unfold next_status. destruct currentStatus as [s|]; [|reflexivity].
  repeat (destruct (String.eqb s _); [reflexivity|]). reflexivity.
Qed.

Lemma publishes_from_draft (currentStatus : option string) :
  publishes (next_status currentStatus) currentStatus
  = bool_decide (currentStatus = Some "draft").
Proof.
  unfold publishes, next_status. destruct currentStatus as [s|]; [|reflexivity].
  destruct (String.eqb_spec s "draft") as [->|Hd]; [reflexivity|].
  rewrite (bool_decide_eq_false_2 (Some s = Some "draft")) by congruence.
  destruct (String.eqb_spec s "published") as [->|Hp]; [reflexivity|].
  destruct (String.eqb_spec s "archived") as [->|Ha]; reflexivity.
Qed.

(** X1.  POST /api/topics/:id/toggle-status on an existing topic answers
    200 and stores a status that passes the CHECK of the column whatever
    the old one was (a NULL status becomes 'draft'); published_at is
    written exactly when the old status was 'draft', and apart from
    updated_at no other column of the topic, no other topic, no module and
    no video changes. *)
Theorem toggle_status_step (now : Z) (id : string) (db : store) (key : Z)
    (row : topic_row) :
  int4_of_string id = Some key →
  topics db !! key = Some row →
  let r := toggle_status now id db in
  Http.status r.1 = 200
  ∧ (∃ row',
       topics r.2 !! key = Some row'
       ∧ t_status row' = Some (Http.message r.1)
       ∧ Topics.valid_topic_status (t_status row') = true
       ∧ t_published_at row'
         = (if bool_decide (t_status row = Some "draft") then Some now
            else t_published_at row)
       ∧ t_title row' = t_title row ∧ t_slug row' = t_slug row
       ∧ t_is_featured row' = t_is_featured row
       ∧ t_category_id row' = t_category_id row
       ∧ t_duration_minutes row' = t_duration_minutes row)
  ∧ (∀ other, other ≠ key → topics r.2 !! other = topics db !! other)
  ∧ modules r.2 = modules db ∧ videos r.2 = videos db.
Proof.
  intros Hid Hrow r. subst r. unfold toggle_status. rewrite Hid, Hrow.
  cbv zeta. rewrite publishes_from_draft. simpl.
  split_and!; [done| |by intros other Hother; rewrite lookup_insert_ne|done|done].
  eexists. rewrite lookup_insert_eq. split; [reflexivity|]. simpl.
  split_and!; try done. apply next_status_valid.
Qed.

Lemma toggle_status_step_witness :
  Http.message (toggle_status 42 "5" Samples.one_topic).1 = "published"
  ∧ t_published_at <$> topics (toggle_status 42 "5" Samples.one_topic).2 !! 5
    = Some (Some 42).
Proof.
  destruct (toggle_status_step 42 "5" Samples.one_topic 5 Samples.draft_topic
              eq_refl eq_refl) as (_ & (row' & Hrow' & Hst & _ & Hpub & _) & _).
  split; [reflexivity|]. rewrite Hrow'. simpl. by rewrite Hpub.
Defined.

(** X2.  Three toggle-status requests on a topic whose status is 'draft',
    'published' or 'archived' bring the status back to where it was, yet
    published_at is overwritten on the way: by the first request from
    'draft', the third from 'published', the second from 'archived'.  The
    other topics are left alone. *)
Theorem toggle_status_cycle (n1 n2 n3 : Z) (id : string) (db : store) (key : Z)
    (row : topic_row) :
  int4_of_string id = Some key →
  topics db !! key = Some row →
  t_status row ∈ [Some "draft"; Some "published"; Some "archived"] →
  let db3 :=
    (toggle_status n3 id (toggle_status n2 id (toggle_status n1 id db).2).2).2 in
  (∃ row3,
     topics db3 !! key = Some row3
     ∧ t_status row3 = t_status row
     ∧ t_published_at row3
       = Some (if bool_decide (t_status row = Some "draft") then n1
               else if bool_decide (t_status row = Some "published") then n3
               else n2))
  ∧ ∀ other, other ≠ key → topics db3 !! other = topics db !! other.
Proof.
  intros Hid Hrow Hst db3. subst db3. unfold toggle_status.
  rewrite Hid, Hrow. cbv zeta. simpl. rewrite lookup_insert_eq. simpl.
  rewrite lookup_insert_eq. simpl.
  split.
  - rewrite lookup_insert_eq. eexists. split; [reflexivity|]. simpl.
    rewrite !elem_of_cons, elem_of_nil in Hst.
    destruct Hst as [->|[->|[->|[]]]]; split; reflexivity.
  - intros other Hother. by rewrite !lookup_insert_ne.
Qed.

Lemma toggle_status_cycle_witness :
  ∃ row3,
    topics (toggle_status 3 "5"
              (toggle_status 2 "5" (toggle_status 1 "5" Samples.one_topic).2).2).2
      !! 5 = Some row3
    ∧ t_status row3 = Some "draft"
    ∧ t_published_at row3 = Some 1.
Proof.
  apply (toggle_status_cycle 1 2 3 "5" Samples.one_topic 5 Samples.draft_topic
           eq_refl eq_refl).
  by left.
Defined.

Lemma sql_not_involutive (b : option bool) :
  sql_not (sql_not b) = b.
Proof. destruct b as [[]|]; reflexivity. Qed.

(** X3.  Two toggle-featured requests on an existing topic both answer 200
    and leave is_featured as it was, be it true, false or NULL, with only
    updated_at moved; one request turns true into false and false into
    true and leaves a NULL as it is (NOT NULL is NULL); no other topic is
    touched. *)
Theorem toggle_featured_twice (n1 n2 : Z) (id : string)
    (tbl : gmap Z featured_row) (key : Z) (row : featured_row) :
  int4_of_string id = Some key →
  tbl !! key = Some row →
  let once := toggle_featured n1 id tbl in
  let twice := toggle_featured n2 id once.2 in
  Http.status once.1 = 200 ∧ Http.status twice.1 = 200
  ∧ once.2 = <[key := {| f_is_featured := sql_not (f_is_featured row);
                         f_updated_at := n1 |}]> tbl
  ∧ twice.2 = <[key := {| f_is_featured := f_is_featured row;
                          f_updated_at := n2 |}]> tbl
  ∧ (∀ b, f_is_featured row = Some b →
          f_is_featured <$> once.2 !! key = Some (Some (negb b)))
  ∧ (f_is_featured row = None → f_is_featured <$> once.2 !! key = Some None)
  ∧ (∀ other, other ≠ key → twice.2 !! other = tbl !! other).
Proof.
  intros Hid Hrow once twice. subst once twice. unfold toggle_featured.
  rewrite Hid, Hrow. simpl. rewrite lookup_insert_eq. simpl.
  rewrite sql_not_involutive, insert_insert_eq.
  split_and!; try done.
  - by intros b ->.
  - by intros ->.
  - intros other Hother. by rewrite lookup_insert_ne.
Qed.

Lemma toggle_featured_twice_witness :
  let tbl : gmap Z featured_row :=
    {[ 5 := {| f_is_featured := None; f_updated_at := 1 |};
       7 := {| f_is_featured := Some true; f_updated_at := 1 |} ]} in
  f_is_featured <$> (toggle_featured 2 "5" tbl).2 !! 5 = Some None
  ∧ f_is_featured <$> (toggle_featured 2 "7" tbl).2 !! 7 = Some (Some false)
  ∧ f_is_featured
      <$> (toggle_featured 3 "7" (toggle_featured 2 "7" tbl).2).2 !! 7
    = Some (Some true).
Proof.
  intros tbl.
  destruct (toggle_featured_twice 2 3 "5" tbl 5
              {| f_is_featured := None; f_updated_at := 1 |} eq_refl eq_refl)
    as (_ & _ & _ & _ & _ & Hnull & _).
  destruct (toggle_featured_twice 2 3 "7" tbl 7
              {| f_is_featured := Some true; f_updated_at := 1 |}
              eq_refl eq_refl) as (_ & _ & _ & Htwice & Hflip & _).
  split_and!.
  - by apply Hnull.
  - by apply (Hflip true).
  - simpl in Htwice. rewrite Htwice. by rewrite lookup_insert_eq.
Defined.

(** X4.  POST /api/topics/:id/archive on a topic whose status is a value
    other than 'archived' answers 200, stores 'archived' and keeps
    published_at and every other topic; a second request, and a request on
    a topic whose status is NULL, answer 404 and change nothing. *)
Theorem archive_once (now : Z) (id : string) (db : store) (key : Z)
    (row : topic_row) :
  int4_of_string id = Some key →
  topics db !! key = Some row →
  (∀ s, t_status row = Some s → s ≠ "archived" →
     ∃ db' row',
       archive now id db = (Http.ok "archived", db')
       ∧ topics db' !! key = Some row'
       ∧ t_status row' = Some "archived"
       ∧ t_published_at row' = t_published_at row
       ∧ t_title row' = t_title row ∧ t_slug row' = t_slug row
       ∧ (∀ other, other ≠ key → topics db' !! other = topics db !! other)
       ∧ ∀ later, archive later id db'
                  = (Http.fail 404 "Topic not found or already archived", db'))
  ∧ (t_status row = None ∨ t_status row = Some "archived" →
     archive now id db
     = (Http.fail 404 "Topic not found or already archived", db)).
Proof.
  intros Hid Hrow. unfold archive. rewrite Hid, Hrow. split.
  - intros s Hs Hne. rewrite Hs. simpl.
    rewrite (proj2 (String.eqb_neq s "archived") Hne). simpl.
    eexists _, _. split; [reflexivity|]. simpl.
    rewrite lookup_insert_eq. split_and!; try done.
    intros other Hother. by rewrite lookup_insert_ne.
  - intros [->| ->]; reflexivity.
Qed.

Lemma archive_once_witness :
  ∃ db' row',
    archive 42 "7" Samples.course = (Http.ok "archived", db')
    ∧ topics db' !! 7 = Some row'
    ∧ t_status row' = Some "archived"
    ∧ t_published_at row' = Some 1.
Proof.
  destruct (proj1 (archive_once 42 "7" Samples.course 7 Samples.other_topic
                     eq_refl eq_refl) "published" eq_refl ltac:(discriminate))
    as (db' & row' & H1 & H2 & H3 & H4 & _).
  exists db', row'. split_and!; done.
Defined.

End ToggleFacts.

(** ** The cascades of DELETE /api/topics/:id and of the module DELETE *)

Section CascadeFacts.
Import Db Tx Integrity.

(** X5.  DELETE /api/topics/:id that answers 200 removes the topic, every
    module of the topic and every video of the topic or of one of its
    modules, and leaves every other topic, module and video row as it was;
    if each module and video pointed at existing rows before, each still
    does afterwards.  Any other answer leaves the store as it was. *)
Theorem delete_topic_cascades (id : string) (db : store) (r : Http.response)
    (db' : store) :
  Router.delete_topic id db = (r, db') →
  (Http.status r ≠ 200 → db' = db)
  ∧ (Http.status r = 200 →
     ∃ key,
       int4_of_string id = Some key
       ∧ is_Some (topics db !! key)
       ∧ topics db' = delete key (topics db)
       ∧ (∀ k m, modules db' !! k = Some m
                 ↔ modules db !! k = Some m ∧ m_topic_id m ≠ key)
       ∧ (∀ k v, videos db' !! k = Some v
                 ↔ videos db !! k = Some v ∧ v_topic_id v ≠ key
                   ∧ TopicPut.topic_of db (v_module_id v) ≠ Some key)
       ∧ (references_ok db → references_ok db')).
Proof.
  unfold Router.delete_topic.
  destruct (int4_of_string id) as [key|]; [|by intros [= <- <-]].
  destruct (topics db !! key) as [row|] eqn:Hrow; [|by intros [= <- <-]].
  intros [= <- <-]. split; [done|]. intros _. exists key. simpl.
  split_and!; [done|by rewrite Hrow|done| | |].
  - intros k m. by rewrite map_lookup_filter_Some.
  - intros k v. by rewrite map_lookup_filter_Some.
  - intros [Hm Hv]. split; simpl.
    + intros k m [Hk Hne]%map_lookup_filter_Some. simpl in *.
      rewrite lookup_delete_ne by done. by apply (Hm k).
    + intros k v [Hk [Hne Hmod]]%map_lookup_filter_Some. simpl in *.
      destruct (Hv k v Hk) as [Ht [m Hmk]]. split.
      * by rewrite lookup_delete_ne.
      * exists m. apply map_lookup_filter_Some. split; [done|]. simpl.
        intros Heq. apply Hmod. by rewrite Hmk, <- Heq.
Qed.

Lemma delete_topic_cascades_witness :
  ∃ db',
    Router.delete_topic "5" Samples.course = (Http.ok "deleted", db')
    ∧ modules db' !! 5 = None ∧ videos db' !! 7 = None
    ∧ videos db' !! 3 = Some (Samples.video_row_of 7 9 "BGP")
    ∧ references_ok db'.
Proof.
  destruct (Router.delete_topic "5" Samples.course) as [r db'] eqn:Hdel.
  destruct (proj2 (delete_topic_cascades "5" Samples.course r db' Hdel))
    as (key & Hkey & _ & _ & Hmods & Hvids & Hrefs).
  { injection Hdel as <- _. reflexivity. }
  injection Hkey as <-.
  exists db'. split_and!.
  - injection Hdel as <- <-. reflexivity.
  - destruct (modules db' !! 5) as [m|] eqn:Hm; [|done].
    apply Hmods in Hm as [Hm Hne]. vm_compute in Hm. injection Hm as <-.
    by destruct Hne.
  - destruct (videos db' !! 7) as [v|] eqn:Hv; [|done].
    apply Hvids in Hv as (Hv & Hne & _). vm_compute in Hv. injection Hv as <-.
    by destruct Hne.
  - apply Hvids. split_and!; [reflexivity|done|]. vm_compute. discriminate.
  - apply Hrefs. apply (bool_decide_unpack _). vm_compute. exact I.
Defined.

(** X6.  DELETE /api/topics/:topicId/modules/:moduleId answers 200 only
    for a module of that topic; it then removes that module and exactly the
    videos of that module, leaves the topics alone (their duration_minutes
    included) and keeps every remaining row pointing at existing rows.  Any
    other answer leaves the store as it was. *)
Theorem delete_module_cascades (topicId moduleId : string) (db : store)
    (r : Http.response) (db' : store) :
  TopicModules.delete_route topicId moduleId db = (r, db') →
  (Http.status r ≠ 200 → db' = db)
  ∧ (Http.status r = 200 →
     ∃ module topic,
       int4_of_string moduleId = Some module
       ∧ int4_of_string topicId = Some topic
       ∧ TopicPut.topic_of db module = Some topic
       ∧ modules db' = delete module (modules db)
       ∧ (∀ k v, videos db' !! k = Some v
                 ↔ videos db !! k = Some v ∧ v_module_id v ≠ module)
       ∧ topics db' = topics db
       ∧ (references_ok db → references_ok db')).
Proof.
  unfold TopicModules.delete_route.
  destruct (int4_of_string moduleId) as [module|]; [|by intros [= <- <-]].
  destruct (int4_of_string topicId) as [topic|]; [|by intros [= <- <-]].
  unfold Videos.module_in_topic. case_bool_decide as Hin; [|by intros [= <- <-]].
  unfold TopicPut.delete_module. intros [= <- <-]. split; [done|]. intros _.
  exists module, topic. simpl. split_and!; try done.
  - intros k v. by rewrite map_lookup_filter_Some.
  - intros [Hm Hv]. split; simpl.
    + intros k m [Hne Hk]%lookup_delete_Some. by apply (Hm k).
    + intros k v [Hk Hne]%map_lookup_filter_Some. simpl in *.
      destruct (Hv k v Hk) as [Ht [m Hmk]]. split; [done|].
      exists m. by rewrite lookup_delete_ne.
Qed.

Lemma delete_module_cascades_witness :
  ∃ db',
    TopicModules.delete_route "5" "5" Samples.course = (Http.ok "deleted", db')
    ∧ modules db' !! 5 = None
    ∧ videos db' !! 3 = Some (Samples.video_row_of 7 9 "BGP")
    ∧ references_ok db'.
Proof.
  destruct (TopicModules.delete_route "5" "5" Samples.course) as [r db'] eqn:Hdel.
  destruct (proj2 (delete_module_cascades "5" "5" Samples.course r db' Hdel))
    as (module & topic & Hmodule & _ & _ & Hmods & Hvids & _ & Hrefs).
  { injection Hdel as <- _. reflexivity. }
  injection Hmodule as <-.
  exists db'. split_and!.
  - injection Hdel as <- <-. reflexivity.
  - rewrite Hmods. apply lookup_delete_eq.
  - apply Hvids. split; [reflexivity|done].
  - apply Hrefs. apply (bool_decide_unpack _). vm_compute. exact I.
Defined.

End CascadeFacts.

(** ** The JSON video routes *)

Section VideoRouteFacts.
Import Db Tx Videos.

Lemma foldr_max_bound (l : list Z) (x : Z) : x ∈ l → x ≤ foldr Z.max 0 l.
Proof.
  induction l as [|y l IH]; [by intros ?%elem_of_nil|].
  intros [->|Hx%IH]%elem_of_cons; simpl; lia.
Qed.

(** The default order is beyond every order in the module. *)
Lemma next_order_above (module : Z) (s : store) (k : Z) (v : video_row) :
  videos s !! k = Some v → v_module_id v = module →
  v_order_index v < next_order module s.
Proof.
  intros Hk Hmod. unfold next_order.
  assert (v_order_index v
          ∈ (λ kv : Z * video_row, v_order_index kv.2)
              <$> map_to_list (filter (λ kv, v_module_id kv.2 = module) (videos s))).
  { apply list_elem_of_fmap. exists (k, v). split; [done|].
    apply elem_of_map_to_list, map_lookup_filter_Some. done. }
  apply foldr_max_bound in H. lia.
Qed.

(** X7.  POST /api/topics/:topicId/modules/:moduleId/videos that answers
    201 adds one row under the next key of the sequence, for a module that
    belongs to the topic of the path, with the title trimmed and a video
    type of the four allowed ones, and changes no other row; when the body
    gives no orderIndex the new video's order_index is greater than that of
    every video already in the module. *)
Theorem post_video_appends (now : Z) (topicId moduleId : string) (b : post_body)
    (db : store) (r : Http.response) (db' : store) :
  post_video now topicId moduleId b db = (r, db') →
  Http.status r = 201 →
  ∃ topic module row,
    int4_of_string topicId = Some topic
    ∧ int4_of_string moduleId = Some module
    ∧ TopicPut.topic_of db module = Some topic
    ∧ videos db !! videos_seq db = None
    ∧ videos db' = <[videos_seq db := row]> (videos db)
    ∧ videos_seq db' = videos_seq db + 1
    ∧ modules db' = modules db ∧ topics db' = topics db
    ∧ v_topic_id row = topic ∧ v_module_id row = module
    ∧ v_title row = Js.trim (default "" (pb_title b))
    ∧ v_video_type row ∈ TopicPut.validVideoTypes
    ∧ (Js.truthy (pb_orderIndex b) = false →
       ∀ k old, videos db !! k = Some old → v_module_id old = module →
                v_order_index old < v_order_index row).
Proof.
  unfold post_video.
  destruct (Js.blank (pb_title b)); [by intros [= <- <-]|].
  destruct (int4_of_string moduleId) as [module|]; [|by intros [= <- <-]].
  destruct (int4_of_string topicId) as [topic|]; [|by intros [= <- <-]].
  unfold module_in_topic. case_bool_decide as Hin; [|by intros [= <- <-]].
  cbv zeta. case_bool_decide as Htype; [|by intros [= <- <-]].
  set (sec := match pb_durationSeconds b with Js.JUndef => _ | _ => _ end).
  destruct sec as [seconds|]; [|by intros [= <- <-]].
  destruct (if Js.truthy (pb_orderIndex b)
            then mjoin (int4_param (pb_orderIndex b))
            else int4_of_Z (next_order module db)) as [order|] eqn:Horder;
    [|by intros [= <- <-]].
  destruct (TopicPut.insert_video _ db) as [id s1|s1] eqn:Hins;
    [|by intros [= <- <-]].
  intros [= <- <-] _.
  apply insert_video_done in Hins as (-> & Hfresh & _ & _ & ->).
  exists topic, module. eexists. simpl.
  split_and!; try done.
  intros Hfalsy k old Hk Hmod. rewrite Hfalsy in Horder.
  unfold int4_of_Z in Horder. destruct (int4_range _); [|done].
  injection Horder as <-. by apply (next_order_above _ _ k).
Qed.

Lemma post_video_appends_witness :
  ∃ row,
    videos (post_video 100 "5" "5" Samples.clip Samples.course).2 !! 10 = Some row
    ∧ v_title row = "Clip" ∧ 1 < v_order_index row.
Proof.
  destruct (post_video 100 "5" "5" Samples.clip Samples.course) as [r db'] eqn:Hpost.
  destruct (post_video_appends 100 "5" "5" Samples.clip Samples.course r db' Hpost)
    as (topic & module & row & _ & Hmodule & _ & _ & Hvideos & _ & _ & _ & _ & _
        & Htitle & _ & Horder).
  { injection Hpost as <- _. reflexivity. }
  injection Hmodule as <-.
  exists row. simpl. rewrite Hvideos. split_and!.
  - apply lookup_insert_eq.
  - by rewrite Htitle.
  - apply (Horder eq_refl 7 (Samples.video_row_of 5 5 "Intro")); reflexivity.
Defined.

(** X8.  POST .../videos that does not answer 201 (400 for a blank title or
    a video type outside the four, 404 for a module that is not of the
    topic, 500) leaves every topic, module and video row as it was. *)
Theorem post_video_rejected_keeps_rows (now : Z) (topicId moduleId : string)
    (b : post_body) (db : store) (r : Http.response) (db' : store) :
  post_video now topicId moduleId b db = (r, db') →
  Http.status r ≠ 201 →
  topics db' = topics db ∧ modules db' = modules db ∧ videos db' = videos db
  ∧ (Http.status r = 400 ∨ Http.status r = 404 → db' = db).
Proof.
  unfold post_video.
  destruct (Js.blank (pb_title b)); [by intros [= <- <-]|].
  destruct (int4_of_string moduleId) as [module|]; [|by intros [= <- <-]].
  destruct (int4_of_string topicId) as [topic|]; [|by intros [= <- <-]].
  destruct (module_in_topic module topic db); [|by intros [= <- <-]].
  cbv zeta. case_bool_decide as Htype; [|by intros [= <- <-]].
  set (sec := match pb_durationSeconds b with Js.JUndef => _ | _ => _ end).
  destruct sec as [seconds|].
  2: { intros [= <- <-] _. split_and!; try done; intros [|]; done. }
  destruct (if Js.truthy (pb_orderIndex b)
            then mjoin (int4_param (pb_orderIndex b))
            else int4_of_Z (next_order module db)) as [order|].
  2: { intros [= <- <-] _. split_and!; try done; intros [|]; done. }
  unfold TopicPut.insert_video. destruct (_ && _); [by intros [= <- <-]|].
  intros [= <- <-] _. simpl. split_and!; try done; intros [|]; done.
Qed.

Lemma post_video_rejected_keeps_rows_witness :
  (post_video 100 "7" "5" Samples.clip Samples.course).2 = Samples.course.
Proof.
  destruct (post_video 100 "7" "5" Samples.clip Samples.course) as [r db'] eqn:Hpost.
  assert (Hr : r = Http.fail 404 "Module not found").
  { injection Hpost as <- _. reflexivity. }
  apply (post_video_rejected_keeps_rows 100 "7" "5" Samples.clip Samples.course
           r db' Hpost).
  - by rewrite Hr.
  - right. by rewrite Hr.
Defined.

(** X9.  DELETE /api/topics/:topicId/modules/:moduleId/videos/:videoId
    answers 200 only for a video that is in the module of the path; it then
    removes that row and no other, and touches no module and no topic (the
    topic id of the path is not looked at).  Any other answer leaves the
    store as it was. *)
Theorem delete_video_exact (moduleId videoId : string) (db : store)
    (r : Http.response) (db' : store) :
  delete_video moduleId videoId db = (r, db') →
  (Http.status r ≠ 200 → db' = db)
  ∧ (Http.status r = 200 →
     ∃ video module,
       int4_of_string videoId = Some video
       ∧ int4_of_string moduleId = Some module
       ∧ TopicPut.module_of db video = Some module
       ∧ videos db' = delete video (videos db)
       ∧ modules db' = modules db ∧ topics db' = topics db
       ∧ videos_seq db' = videos_seq db).
Proof.
  unfold delete_video.
  destruct (int4_of_string videoId) as [video|]; [|by intros [= <- <-]].
  destruct (int4_of_string moduleId) as [module|]; [|by intros [= <- <-]].
  case_bool_decide as Hin; [|by intros [= <- <-]].
  unfold TopicPut.delete_video. intros [= <- <-]. split; [done|]. intros _.
  exists video, module. done.
Qed.

Lemma delete_video_exact_witness :
  videos (delete_video "5" "8" Samples.course).2
  = delete 8 (videos Samples.course).
Proof.
  destruct (delete_video "5" "8" Samples.course) as [r db'] eqn:Hdel.
  destruct (proj2 (delete_video_exact "5" "8" Samples.course r db' Hdel))
    as (video & module & Hvideo & _ & _ & Hvideos & _).
  { injection Hdel as <- _. reflexivity. }
  injection Hvideo as <-. done.
Defined.

End VideoRouteFacts.

(** ** The reorder routes *)

Section ReorderFacts.
Import Db Tx.

Lemma rollback_same_sequences (begin raised : store) :
  topics_seq raised = topics_seq begin →
  modules_seq raised = modules_seq begin →
  videos_seq raised = videos_seq begin →
  rollback begin raised = begin.
Proof.
  unfold rollback. destruct begin; simpl. by intros -> -> ->.
Qed.

Lemma module_set_order_frame (now order : Z) (id : option Z) (topic : Z)
    (s : store) :
  ∃ s', TopicModules.set_order now order id topic s = Done () s'
        ∧ topics s' = topics s ∧ videos s' = videos s
        ∧ topics_seq s' = topics_seq s ∧ modules_seq s' = modules_seq s
        ∧ videos_seq s' = videos_seq s
        ∧ ∀ k, modules s' !! k
               = (λ row, if bool_decide (id = Some k ∧ m_topic_id row = topic)
                         then TopicModules.with_order order now row else row)
                   <$> modules s !! k.
Proof.
  unfold TopicModules.set_order.
  destruct id as [id|].
  2: { eexists. split; [done|]. split_and!; try done.
       intros k. destruct (modules s !! k); [|done]. cbn [fmap option_fmap option_map].
       rewrite bool_decide_eq_false_2; [done|]. by intros [? _]. }
  destruct (modules s !! id) as [row|] eqn:Hrow.
  2: { eexists. split; [done|]. split_and!; try done.
       intros k. destruct (modules s !! k) eqn:Hk; [|done]. cbn [fmap option_fmap option_map].
       rewrite bool_decide_eq_false_2; [done|]. intros [[= ->] _]. congruence. }
  case_bool_decide as Htopic.
  - eexists. split; [done|]. simpl. split_and!; try done.
    intros k. destruct (decide (k = id)) as [->|Hne].
    + rewrite lookup_insert_eq, Hrow. cbn [fmap option_fmap option_map].
      by rewrite bool_decide_eq_true_2.
    + rewrite lookup_insert_ne by done.
      destruct (modules s !! k); [|done]. cbn [fmap option_fmap option_map].
      rewrite bool_decide_eq_false_2; [done|]. intros [[= ->] _]. done.
  - eexists. split; [done|]. split_and!; try done.
    intros k. destruct (modules s !! k) eqn:Hk; [|done]. cbn [fmap option_fmap option_map].
    rewrite bool_decide_eq_false_2; [done|]. intros [[= ->] ?]. congruence.
Qed.

Lemma module_reorder_frame (now : Z) (topicId : string) (ids : list Js.value)
    (i : Z) (s : store) :
  let s' := TopicModules.final (TopicModules.reorder_loop now topicId i ids s) in
  topics s' = topics s ∧ videos s' = videos s
  ∧ topics_seq s' = topics_seq s ∧ modules_seq s' = modules_seq s
  ∧ videos_seq s' = videos_seq s.
Proof.
  revert i s. induction ids as [|v ids IH]; intros i s; [done|].
  cbn [TopicModules.reorder_loop VideoOrder.reorder_loop]. unfold bind.
  destruct (int4_of_Z (i + 1)) as [order|]; [|done].
  destruct (int4_param v) as [id|]; [|done].
  destruct (int4_of_string topicId) as [topic|]; [|done].
  cbn [coerce ret].
  destruct (module_set_order_frame now order id topic s)
    as (s1 & -> & <- & <- & <- & <- & <- & _).
  apply IH.
Qed.

Lemma module_reorder_rows (now : Z) (topicId : string) (ids : list Js.value)
    (i : Z) (s s' : store) :
  TopicModules.reorder_loop now topicId i ids s = Done () s' →
  ∀ k, modules s' !! k
       = (λ row, match TopicModules.last_position k i ids with
                 | Some p =>
                     if bool_decide (Some (m_topic_id row) = int4_of_string topicId)
                     then TopicModules.with_order p now row else row
                 | None => row
                 end) <$> modules s !! k.
Proof.
  revert i s. induction ids as [|v ids IH]; intros i s.
  - intros [= <-] k. simpl. by destruct (modules s !! k).
  - simpl.
    intros (order & s0 & [Horder ->]%coerce_done & Hrest)%bind_done.
    apply bind_done in Hrest as (id & s0 & [Hid ->]%coerce_done & Hrest).
    apply bind_done in Hrest as (topic & s0 & [Htopic ->]%coerce_done & Hrest).
    apply bind_done in Hrest as ([] & s1 & Hset & Hrest).
    destruct (module_set_order_frame now order id topic s)
      as (s1' & Hset' & _ & _ & _ & _ & _ & Hrows).
    rewrite Hset in Hset'. injection Hset' as <-.
    intros k. rewrite (IH _ _ Hrest k), Hrows, Htopic.
    unfold int4_of_Z in Horder. destruct (int4_range (i + 1)); [|done].
    injection Horder as <-.
    destruct (modules s !! k) as [row|]; [|done]. cbn [fmap option_fmap option_map]. f_equal.
    rewrite Hid.
    destruct (TopicModules.last_position k (i + 1) ids) as [p|].
    + destruct (bool_decide (id = Some k ∧ m_topic_id row = topic)) eqn:Hk; [|done].
      apply bool_decide_eq_true in Hk as [_ Hk]. simpl.
      by rewrite (bool_decide_eq_true_2 (Some (m_topic_id row) = Some topic))
        by congruence.
    + destruct (decide (id = Some k)) as [->|Hne].
      * rewrite (bool_decide_eq_true_2 (Some (Some k) = Some (Some k))) by done.
        destruct (decide (m_topic_id row = topic)) as [Ht|Ht].
        -- rewrite !bool_decide_eq_true_2; [done|congruence|done].
        -- rewrite !bool_decide_eq_false_2; [done|congruence|by intros [_ ?]].
      * rewrite (bool_decide_eq_false_2 (Some id = Some (Some k))) by congruence.
        rewrite bool_decide_eq_false_2; [done|]. by intros [? _].
Qed.

(** X10.  POST /api/topics/:topicId/modules/reorder with an array answers
    200 or 500.  On 200 each module of the topic that the array names has
    as order_index the position (from 1) of the last entry naming it, its
    other columns but updated_at are as before, and every module the array
    does not name, every module of another topic, every video and every
    topic is untouched; the answer counts the entries of the array, whether
    or not they named a module of the topic.  On any other answer the store
    is as it was: the UPDATEs already run are rolled back. *)
Theorem reorder_modules_positions (now : Z) (topicId : string)
    (moduleIds : option (list Js.value)) (db : store) (r : Http.response)
    (db' : store) :
  TopicModules.reorder now topicId moduleIds db = (r, db') →
  (Http.status r ≠ 200 → db' = db)
  ∧ (Http.status r = 200 →
     ∃ ids,
       moduleIds = Some ids
       ∧ Http.message r = Js.toString (Z.of_nat (length ids))
       ∧ topics db' = topics db ∧ videos db' = videos db
       ∧ ∀ k, modules db' !! k
              = (λ row,
                   match TopicModules.last_position k 0 ids with
                   | Some p =>
                       if bool_decide (Some (m_topic_id row) = int4_of_string topicId)
                       then TopicModules.with_order p now row else row
                   | None => row
                   end) <$> modules db !! k).
Proof.
  unfold TopicModules.reorder. destruct moduleIds as [ids|]; [|by intros [= <- <-]].
  pose proof (module_reorder_frame now topicId ids 0 db) as Hframe.
  destruct (TopicModules.reorder_loop now topicId 0 ids db) as [[] s|s] eqn:Hloop;
    simpl in Hframe; destruct Hframe as (Ht & Hv & Hts & Hms & Hvs);
    intros [= <- <-].
  - split; [done|]. intros _. exists ids. split_and!; try done.
    by apply module_reorder_rows.
  - split; [|done]. intros _. by apply rollback_same_sequences.
Qed.

Lemma reorder_modules_positions_witness :
  let ok := TopicModules.reorder 100 "5"
              (Some [Js.JNum 6; Js.JStr "5"; Js.JNum 9]) Samples.course in
  let bad := TopicModules.reorder 100 "5"
               (Some [Js.JNum 6; Js.JStr "five"]) Samples.course in
  (m_order_index <$> modules ok.2 !! 6 = Some 1
   ∧ m_order_index <$> modules ok.2 !! 5 = Some 2
   ∧ modules ok.2 !! 9 = modules Samples.course !! 9)
  ∧ bad.2 = Samples.course.
Proof.
  intros ok bad. split.
  - destruct ok as [r db'] eqn:Hok.
    destruct (proj2 (reorder_modules_positions _ _ _ _ _ _ Hok))
      as (ids & [= <-] & _ & _ & _ & Hrows).
    { subst ok. injection Hok as <- _. reflexivity. }
    simpl. rewrite !Hrows. split_and!; reflexivity.
  - destruct bad as [r db'] eqn:Hbad.
    apply (proj1 (reorder_modules_positions _ _ _ _ _ _ Hbad)).
    subst bad. injection Hbad as <- _. vm_compute. discriminate.
Defined.

Lemma video_set_order_frame (now order : Z) (id : option Z) (module : Z)
    (s : store) :
  ∃ s', VideoOrder.set_order now order id module s = Done () s'
        ∧ topics s' = topics s ∧ modules s' = modules s
        ∧ topics_seq s' = topics_seq s ∧ modules_seq s' = modules_seq s
        ∧ videos_seq s' = videos_seq s
        ∧ ∀ k, videos s' !! k
               = (λ row, if bool_decide (id = Some k ∧ v_module_id row = module)
                         then VideoOrder.with_order order now row else row)
                   <$> videos s !! k.
Proof.
  unfold VideoOrder.set_order.
  destruct id as [id|].
  2: { eexists. split; [done|]. split_and!; try done.
       intros k. destruct (videos s !! k); [|done]. cbn [fmap option_fmap option_map].
       rewrite bool_decide_eq_false_2; [done|]. by intros [? _]. }
  destruct (videos s !! id) as [row|] eqn:Hrow.
  2: { eexists. split; [done|]. split_and!; try done.
       intros k. destruct (videos s !! k) eqn:Hk; [|done]. cbn [fmap option_fmap option_map].
       rewrite bool_decide_eq_false_2; [done|]. intros [[= ->] _]. congruence. }
  case_bool_decide as Hmodule.
  - eexists. split; [done|]. simpl. split_and!; try done.
    intros k. destruct (decide (k = id)) as [->|Hne].
    + rewrite lookup_insert_eq, Hrow. cbn [fmap option_fmap option_map].
      by rewrite bool_decide_eq_true_2.
    + rewrite lookup_insert_ne by done.
      destruct (videos s !! k); [|done]. cbn [fmap option_fmap option_map].
      rewrite bool_decide_eq_false_2; [done|]. intros [[= ->] _]. done.
  - eexists. split; [done|]. split_and!; try done.
    intros k. destruct (videos s !! k) eqn:Hk; [|done]. cbn [fmap option_fmap option_map].
    rewrite bool_decide_eq_false_2; [done|]. intros [[= ->] ?]. congruence.
Qed.

Lemma video_reorder_frame (now : Z) (moduleId : string) (ids : list Js.value)
    (i : Z) (s : store) :
  let s' := TopicModules.final (VideoOrder.reorder_loop now moduleId i ids s) in
  topics s' = topics s ∧ modules s' = modules s
  ∧ topics_seq s' = topics_seq s ∧ modules_seq s' = modules_seq s
  ∧ videos_seq s' = videos_seq s.
Proof.
  revert i s. induction ids as [|v ids IH]; intros i s; [done|].
  cbn [TopicModules.reorder_loop VideoOrder.reorder_loop]. unfold bind.
  destruct (int4_of_Z (i + 1)) as [order|]; [|done].
  destruct (int4_param v) as [id|]; [|done].
  destruct (int4_of_string moduleId) as [module|]; [|done].
  cbn [coerce ret].
  destruct (video_set_order_frame now order id module s)
    as (s1 & -> & <- & <- & <- & <- & <- & _).
  apply IH.
Qed.

Lemma video_reorder_rows (now : Z) (moduleId : string) (ids : list Js.value)
    (i : Z) (s s' : store) :
  VideoOrder.reorder_loop now moduleId i ids s = Done () s' →
  ∀ k, videos s' !! k
       = (λ row, match TopicModules.last_position k i ids with
                 | Some p =>
                     if bool_decide (Some (v_module_id row) = int4_of_string moduleId)
                     then VideoOrder.with_order p now row else row
                 | None => row
                 end) <$> videos s !! k.
Proof.
  revert i s. induction ids as [|v ids IH]; intros i s.
  - intros [= <-] k. simpl. by destruct (videos s !! k).
  - simpl.
    intros (order & s0 & [Horder ->]%coerce_done & Hrest)%bind_done.
    apply bind_done in Hrest as (id & s0 & [Hid ->]%coerce_done & Hrest).
    apply bind_done in Hrest as (module & s0 & [Hmodule ->]%coerce_done & Hrest).
    apply bind_done in Hrest as ([] & s1 & Hset & Hrest).
    destruct (video_set_order_frame now order id module s)
      as (s1' & Hset' & _ & _ & _ & _ & _ & Hrows).
    rewrite Hset in Hset'. injection Hset' as <-.
    intros k. rewrite (IH _ _ Hrest k), Hrows, Hmodule.
    unfold int4_of_Z in Horder. destruct (int4_range (i + 1)); [|done].
    injection Horder as <-.
    destruct (videos s !! k) as [row|]; [|done]. cbn [fmap option_fmap option_map]. f_equal.
    rewrite Hid.
    destruct (TopicModules.last_position k (i + 1) ids) as [p|].
    + destruct (bool_decide (id = Some k ∧ v_module_id row = module)) eqn:Hk; [|done].
      apply bool_decide_eq_true in Hk as [_ Hk]. simpl.
      by rewrite (bool_decide_eq_true_2 (Some (v_module_id row) = Some module))
        by congruence.
    + destruct (decide (id = Some k)) as [->|Hne].
      * rewrite (bool_decide_eq_true_2 (Some (Some k) = Some (Some k))) by done.
        destruct (decide (v_module_id row = module)) as [Ht|Ht].
        -- rewrite !bool_decide_eq_true_2; [done|congruence|done].
        -- rewrite !bool_decide_eq_false_2; [done|congruence|by intros [_ ?]].
      * rewrite (bool_decide_eq_false_2 (Some id = Some (Some k))) by congruence.
        rewrite bool_decide_eq_false_2; [done|]. by intros [? _].
Qed.

(** X11.  POST /api/topics/:topicId/modules/:moduleId/videos/reorder with
    an array answers 200 or 500.  On 200 each video of the module that the
    array names has as order_index the position (from 1) of the last entry
    naming it, and every other video, every module and every topic is
    untouched; the topic id of the path plays no part.  On any other answer
    the store is as it was. *)
Theorem reorder_videos_positions (now : Z) (topicId moduleId : string)
    (videoIds : option (list Js.value)) (db : store) (r : Http.response)
    (db' : store) :
  VideoOrder.reorder now topicId moduleId videoIds db = (r, db') →
  (Http.status r ≠ 200 → db' = db)
  ∧ (Http.status r = 200 →
     ∃ ids,
       videoIds = Some ids
       ∧ Http.message r = Js.toString (Z.of_nat (length ids))
       ∧ topics db' = topics db ∧ modules db' = modules db
       ∧ ∀ k, videos db' !! k
              = (λ row,
                   match TopicModules.last_position k 0 ids with
                   | Some p =>
                       if bool_decide (Some (v_module_id row) = int4_of_string moduleId)
                       then VideoOrder.with_order p now row else row
                   | None => row
                   end) <$> videos db !! k).
Proof.
  unfold VideoOrder.reorder. destruct videoIds as [ids|]; [|by intros [= <- <-]].
  pose proof (video_reorder_frame now moduleId ids 0 db) as Hframe.
  destruct (VideoOrder.reorder_loop now moduleId 0 ids db) as [[] s|s] eqn:Hloop;
    simpl in Hframe; destruct Hframe as (Ht & Hv & Hts & Hms & Hvs);
    intros [= <- <-].
  - split; [done|]. intros _. exists ids. split_and!; try done.
    by apply video_reorder_rows.
  - split; [|done]. intros _. by apply rollback_same_sequences.
Qed.

Lemma reorder_videos_positions_witness :
  let ok := VideoOrder.reorder 100 "5" "5"
              (Some [Js.JNum 8; Js.JNum 7; Js.JNum 8]) Samples.course in
  v_order_index <$> videos ok.2 !! 8 = Some 3
  ∧ v_order_index <$> videos ok.2 !! 7 = Some 2
  ∧ videos ok.2 !! 3 = videos Samples.course !! 3.
Proof.
  intros ok. destruct ok as [r db'] eqn:Hok.
  destruct (proj2 (reorder_videos_positions _ _ _ _ _ _ _ Hok))
    as (ids & [= <-] & _ & _ & _ & Hrows).
  { subst ok. injection Hok as <- _. reflexivity. }
  simpl. rewrite !Hrows. split_and!; reflexivity.
Defined.

End ReorderFacts.

(** ** Slugs of slugs *)

Section SlugFixed.
Import Slug.
#[local] Arguments is_hyphen : simpl never.
#[local] Arguments slug_char : simpl never.
#[local] Arguments out_char : simpl never.

Lemma out_char_facts (c : ascii) :
  out_char c = true →
  Js.lower_char c = c ∧ slug_char c = true ∧ Js.is_space c = false.
Proof.
  destruct c as [[] [] [] [] [] [] [] []]; vm_compute; intros H;
    try discriminate H; split_and!; reflexivity.
Qed.

Lemma is_hyphen_eq (c : ascii) : is_hyphen c = true → c = "-"%char.
Proof. unfold is_hyphen. by intros ?%Ascii.eqb_eq. Qed.

Lemma toLowerCase_out_chars (s : string) :
  all_chars out_char s = true → Js.toLowerCase s = s.
Proof.
  induction s as [|c r IH]; simpl; [done|].
  intros [Hc Hr]%andb_true_iff.
  destruct (out_char_facts c Hc) as (-> & _ & _). by rewrite IH.
Qed.

Lemma strip_out_chars (s : string) :
  all_chars out_char s = true → strip s = s.
Proof.
  induction s as [|c r IH]; simpl; [done|].
  intros [Hc Hr]%andb_true_iff.
  destruct (out_char_facts c Hc) as (_ & -> & _). by rewrite IH.
Qed.

Lemma replace_spaces_out_chars_fixed (s : string) :
  all_chars out_char s = true → replace_runs Js.is_space "-" s = s.
Proof.
  induction s as [|c r IH]; simpl; [done|].
  intros [Hc Hr]%andb_true_iff.
  destruct (out_char_facts c Hc) as (_ & _ & ->). by rewrite IH.
Qed.

Lemma replace_hyphens_fixed (s : string) :
  no_double_hyphen s = true → replace_runs is_hyphen "-" s = s.
Proof.
  induction s as [|c r IH]; simpl; [done|].
  intros [Hc Hr]%andb_true_iff. rewrite (IH Hr).
  destruct (is_hyphen c) eqn:Hh; [|done].
  simpl in Hc. apply negb_true_iff in Hc. rewrite Hc.
  by rewrite (is_hyphen_eq c Hh).
Qed.

Lemma drop_leading_fixed (s : string) :
  starts_in is_hyphen s = false → drop_leading_hyphen s = s.
Proof. destruct s as [|c r]; simpl; [done|]. by intros ->. Qed.

Lemma drop_trailing_fixed (s : string) :
  ends_in is_hyphen s = false → drop_trailing_hyphen s = s.
Proof.
  induction s as [|c r IH]; [done|].
  destruct r as [|d r']; [simpl; by intros ->|].
  intros H.
  change (drop_trailing_hyphen (String c (String d r')))
    with (String c (drop_trailing_hyphen (String d r'))).
  by rewrite IH.
Qed.

(** A well-formed slug is its own slug. *)
Lemma generateSlug_fixed (s : string) : well_formed_slug s → generateSlug s = s.
Proof.
  intros (Hchars & Hnd & Hstart & Hend). unfold generateSlug, trim_hyphens.
  rewrite toLowerCase_out_chars, strip_out_chars,
    replace_spaces_out_chars_fixed, replace_hyphens_fixed,
    drop_leading_fixed, drop_trailing_fixed; done.
Qed.

(** X12.  [generateSlug] is idempotent: the slug of a slug is that slug, so
    a title that is already in slug form is kept as it is, and the slug of a
    title never depends on how often it went through the function. *)
Theorem generateSlug_idempotent (title : string) :
  generateSlug (generateSlug title) = generateSlug title.
Proof. apply generateSlug_fixed, generateSlug_well_formed. Qed.

End SlugFixed.

(** ** The columns PUT /api/topics/:id can assign *)

Section UpdateFieldFacts.
Import Db TopicPut TopicColumns.

Lemma lower_char_not_upper (c : ascii) : Js.is_upper (Js.lower_char c) = false.
Proof. destruct c as [[] [] [] [] [] [] [] []]; reflexivity. Qed.

Lemma lower_char_fixed (c : ascii) : Js.is_upper c = false → Js.lower_char c = c.
Proof. unfold Js.lower_char. by intros ->. Qed.

Lemma camel_to_snake_no_upper (key : string) :
  Slug.all_chars (λ c, negb (Js.is_upper c)) (camel_to_snake key) = true.
Proof.
  induction key as [|c r IH]; simpl; [done|].
  destruct (Js.is_upper c); simpl; by rewrite lower_char_not_upper, IH.
Qed.

Lemma camel_to_snake_fixed (key : string) :
  Slug.all_chars (λ c, negb (Js.is_upper c)) key = true →
  camel_to_snake key = key.
Proof.
  induction key as [|c r IH]; simpl; [done|].
  intros [Hc%negb_true_iff Hr]%andb_true_iff.
  by rewrite Hc, (lower_char_fixed c Hc), IH.
Qed.

(** X13.  The key-to-column mapping of the dynamic UPDATEs,
    [key.replace(/([A-Z])/g, '_$1').toLowerCase()], leaves no capital letter
    and is idempotent: a body key already written as a column name is taken
    as that column, so a body can name one column twice, in camelCase and in
    snake_case. *)
Theorem camel_to_snake_idempotent (key : string) :
  Slug.all_chars (λ c, negb (Js.is_upper c)) (camel_to_snake key) = true
  ∧ camel_to_snake (camel_to_snake key) = camel_to_snake key
  ∧ camel_to_snake "isFeatured" = camel_to_snake "is_featured".
Proof.
  split_and!; [apply camel_to_snake_no_upper| |reflexivity].
  apply camel_to_snake_fixed, camel_to_snake_no_upper.
Qed.

Lemma length_omap_le {A B : Type} (f : A → option B) (l : list A) :
  (length (omap f l) ≤ length l)%nat.
Proof.
  induction l as [|x l IH]; [done|].
  change (omap f (x :: l))
    with (match f x with Some y => y :: omap f l | None => omap f l end).
  destruct (f x); simpl; lia.
Qed.

(** X14.  Whatever the body of PUT /api/topics/:id holds, every column in
    the SET list of the dynamic UPDATE is on the allow-list and comes from a
    body key, either by the camelCase conversion or by one of the five
    renamings; id, the counters, published_at and the timestamps are never
    assigned from the body, and the list is no longer than the body. *)
Theorem update_fields_allowed (minutes_of_hours : string → option Z)
    (s : store) (fields : list (string * Js.value)) :
  (∀ column value,
     (column, value) ∈ update_fields minutes_of_hours s fields →
     column ∈ allowedFields
     ∧ (column ∉ protected_columns)
     ∧ ∃ key v, (key, v) ∈ fields
                ∧ (column = camel_to_snake key ∨ (key, column) ∈ renamed_keys))
  ∧ (length (update_fields minutes_of_hours s fields) ≤ length fields)%nat.
Proof.
  split.
  - intros column value Hin. unfold update_fields in Hin.
    apply list_elem_of_omap in Hin as ([key v] & Hkv & Hfield).
    assert (Hallowed : column ∈ allowedFields
                       ∧ (column = camel_to_snake key ∨ (key, column) ∈ renamed_keys)).
    { unfold update_field in Hfield.
      destruct (String.eqb_spec key "featured") as [->|_].
      { simpl in Hfield. injection Hfield as <- _.
        split; [|right]; apply (bool_decide_unpack _); vm_compute; exact I. }
      destruct (String.eqb_spec key "thumbnail") as [->|_].
      { simpl in Hfield. injection Hfield as <- _.
        split; [|right]; apply (bool_decide_unpack _); vm_compute; exact I. }
      destruct (String.eqb_spec key "category") as [->|_].
      { destruct (reference_value _ v); simpl in Hfield; [|done].
        injection Hfield as <- _.
        split; [|right]; apply (bool_decide_unpack _); vm_compute; exact I. }
      destruct (String.eqb_spec key "subcategory") as [->|_].
      { destruct (reference_value _ v); simpl in Hfield; [|done].
        injection Hfield as <- _.
        split; [|right]; apply (bool_decide_unpack _); vm_compute; exact I. }
      destruct (String.eqb_spec key "duration") as [->|_].
      { destruct v as [| | | |t|]; try destruct (minutes_of_hours t);
          simpl in Hfield; try discriminate Hfield.
        injection Hfield as <- _.
        split; [|right]; apply (bool_decide_unpack _); vm_compute; exact I. }
      cbn [mbind option_bind] in Hfield.
      case_bool_decide as Hok; [|done]. injection Hfield as <- _.
      split; [done|by left]. }
    destruct Hallowed as [Hallowed Hfrom]. split_and!; [done| |by exists key, v].
    intros Hprotected. clear Hfrom Hfield.
    unfold protected_columns in Hprotected.
    rewrite !elem_of_cons, elem_of_nil in Hprotected.
    destruct_or!; try done; rewrite Hprotected in Hallowed; revert Hallowed;
      apply (proj1 (bool_decide_eq_false _)); reflexivity.
  - unfold update_fields. apply length_omap_le.
Qed.

End UpdateFieldFacts.

Lemma update_fields_allowed_witness :
  TopicPut.update_fields Samples.no_hours Samples.course
    [("id", Js.JNum 9); ("isFeatured", Js.JBool true)]
  = [("is_featured", TopicPut.Raw (Js.JBool true))]
  ∧ "is_featured" ∈ TopicPut.allowedFields.
Proof.
  split; [reflexivity|].
  refine (proj1 (proj1 (update_fields_allowed Samples.no_hours Samples.course
                          [("id", Js.JNum 9); ("isFeatured", Js.JBool true)])
                   "is_featured" (TopicPut.Raw (Js.JBool true)) _)).
  change (("is_featured", TopicPut.Raw (Js.JBool true))
          ∈ [("is_featured", TopicPut.Raw (Js.JBool true))]).
  by left.
Defined.

(** ** Requests that reach their route *)

Section ReachFacts.
Import Router Reach.

(** X15.  POST /api/topics/<id>/toggle-status, toggle-featured, duplicate,
    publish and archive reach the handler of routes/topicsActions.js with
    the piece bound to [id], for every non-empty piece that holds no '%'
    (so that decoding leaves it as written): no route of an earlier router
    takes them. *)
Theorem topic_actions_reached (id action : string) :
  id ≠ "" →
  plain id = true →
  action ∈ ["toggle-status"; "toggle-featured"; "duplicate"; "publish"; "archive"] →
  dispatch_in app POST ["api"; "topics"; id; action]
  = Some ("topicsActions", on POST (String.append "/topics/:id/" action),
          [("id", id)]).
Proof.
  intros Hid _ Haction. destruct id as [|c id]; [done|].
  rewrite !elem_of_cons, elem_of_nil in Haction.
  destruct_or!; try done; subst action; reflexivity.
Qed.

Lemma topic_actions_reached_witness :
  dispatch POST "/api/topics/5/publish"
  = Some ("topicsActions", on POST "/topics/:id/publish", [("id", "5")]).
Proof.
  change (dispatch POST "/api/topics/5/publish")
    with (dispatch_in app POST ["api"; "topics"; "5"; "publish"]).
  apply (topic_actions_reached "5" "publish"); [done|reflexivity|].
  apply (bool_decide_unpack _). vm_compute. exact I.
Defined.

(** X16.  Of all the routes that app.js mounts up to the video router, the
    ten literal [/topics/<name>] routes of C8 are the only ones that the
    request made for them (each parameter filled with an id) does not
    reach: every other route answers its own request. *)
Theorem only_dedicated_routes_unreached (rt : router) (r : route) :
  rt ∈ app → r ∈ routes rt →
  reached "1" rt r = negb (is_dedicated r).
Proof.
  intros Hrt Hr.
  assert (Hall : forallb (λ rt, forallb (λ r, bool_decide
                                      (reached "1" rt r = negb (is_dedicated r)))
                                  (routes rt)) app = true)
    by (vm_compute; reflexivity).
  rewrite forallb_forall in Hall.
  specialize (Hall rt (proj1 (list_elem_of_In _ _) Hrt)).
  rewrite forallb_forall in Hall.
  specialize (Hall r (proj1 (list_elem_of_In _ _) Hr)).
  by apply bool_decide_eq_true in Hall.
Qed.

Lemma only_dedicated_routes_unreached_witness :
  reached "1"
    {| mount := "/api"; file := "topicsModules"; routes := topics_modules_routes |}
    (on POST "/topics/:topicId/modules/reorder") = true
  ∧ reached "1" {| mount := "/api"; file := "topics"; routes := topics_routes |}
      (on GET "/topics/search") = false.
Proof.
  split.
  - apply (only_dedicated_routes_unreached
             {| mount := "/api"; file := "topicsModules";
                routes := topics_modules_routes |}
             (on POST "/topics/:topicId/modules/reorder")).
    + apply list_elem_of_In. unfold app. simpl. intuition.
    + apply (bool_decide_unpack _). vm_compute. exact I.
  - apply (only_dedicated_routes_unreached
             {| mount := "/api"; file := "topics"; routes := topics_routes |}
             (on GET "/topics/search")).
    + apply list_elem_of_In. unfold app. simpl. intuition.
    + apply (bool_decide_unpack _). vm_compute. exact I.
Defined.

End ReachFacts.

(** ** GET /api/categories: the ORDER BY text and the page numbers *)

Section CategoryListFacts.
Import Db CategoryList.

(** X17.  Whatever [sortBy] and [sortOrder] the query string holds, the
    text that GET /api/categories splices after ORDER BY is the name of a
    column of [category] followed by ASC or DESC; and every column can be
    asked for by its own name. *)
Theorem sort_field_is_column (sortBy order : Js.value) :
  sortField sortBy ∈ columns
  ∧ sortOrder order ∈ ["ASC"; "DESC"]
  ∧ ∀ c, c ∈ columns → sortField (Js.JStr c) = c.
Proof.
  split_and!.
  - unfold sortField.
    destruct (Js.or_else sortBy (Js.JStr "id")) as [| | | |s|];
      try (apply (bool_decide_unpack _); vm_compute; exact I).
    case_bool_decide as Hs;
      [|apply (bool_decide_unpack _); vm_compute; exact I].
    unfold allowedSortFields in Hs. rewrite !elem_of_cons, elem_of_nil in Hs.
    destruct_or!; try done; subst s;
      apply (bool_decide_unpack _); vm_compute; exact I.
  - unfold sortOrder. destruct order as [| | | |s|];
      try (apply (bool_decide_unpack _); vm_compute; exact I).
    destruct (String.eqb s "desc");
      apply (bool_decide_unpack _); vm_compute; exact I.
  - intros c Hc. unfold columns in Hc. rewrite !elem_of_cons, elem_of_nil in Hc.
    destruct_or!; try done; subst c; reflexivity.
Qed.

Lemma sort_field_is_column_witness :
  sortField (Js.JStr "name; DROP TABLE category") = "id"
  ∧ sortField (Js.JStr "topics_count") = "topics_count".
Proof.
  split; [reflexivity|].
  apply (proj2 (proj2 (sort_field_is_column Js.JUndef Js.JUndef))).
  apply (bool_decide_unpack _). vm_compute. exact I.
Defined.

Lemma int_or_nonzero (v : Js.value) (d : Z) : d ≠ 0 → int_or v d ≠ 0.
Proof.
  unfold int_or. intros Hd. destruct (Js.parseInt v) as [n|]; [|done].
  destruct (Z.eqb_spec n 0); done.
Qed.

Lemma ceil_div_bounds (a b : Z) :
  0 < b → a ≤ b * ceil_div a b < a + b.
Proof.
  intros Hb. unfold ceil_div.
  pose proof (Z.mul_div_le (- a) b Hb).
  pose proof (Z.mul_succ_div_gt (- a) b Hb).
  lia.
Qed.

(** X18.  When GET /api/categories answers 200 the page and the limit it
    reports are at least 1 (a missing, unreadable or zero value takes the
    default, a negative one makes the query raise), [totalPages] is the
    least number of pages of that size that hold [total] rows, [hasNext]
    says exactly that rows remain after this page and [hasPrev] that the
    page is not the first. *)
Theorem pagination_bounds (pg lim : Js.value) (db : store) (p : pagination) :
  get_categories pg lim db = Some p →
  1 ≤ page p ∧ 1 ≤ limit p
  ∧ total p = Z.of_nat (size (categories db))
  ∧ total p ≤ limit p * totalPages p < total p + limit p
  ∧ (hasNext p = true ↔ page p * limit p < total p)
  ∧ (hasPrev p = true ↔ 1 < page p).
Proof.
  unfold get_categories, limit_offset_ok.
  pose proof (int_or_nonzero pg 1 ltac:(done)) as Hpage.
  pose proof (int_or_nonzero lim 10 ltac:(done)) as Hlimit.
  set (pg' := int_or pg 1) in *. set (lim' := int_or lim 10) in *.
  destruct (_ && _) eqn:Hok; [|done].
  intros [= <-]. simpl.
  apply andb_true_iff in Hok as [Hok Hoff%Z.leb_le].
  apply andb_true_iff in Hok as [_ Hlim%Z.leb_le].
  assert (1 ≤ lim') by lia. assert (1 ≤ pg') by nia.
  pose proof (ceil_div_bounds (Z.of_nat (size (categories db))) lim' ltac:(lia)).
  split_and!; try done; try lia; rewrite Z.ltb_lt; try done.
  split; intros; nia.
Qed.

Lemma pagination_bounds_witness :
  ∃ p,
    get_categories (Js.JStr "2") Js.JUndef Samples.sample_categories = Some p
    ∧ limit p = 10 ∧ hasNext p = false ∧ hasPrev p = true.
Proof.
  eexists. split; [reflexivity|].
  destruct (pagination_bounds (Js.JStr "2") Js.JUndef Samples.sample_categories _
              eq_refl) as (_ & _ & _ & _ & Hnext & Hprev).
  split; [reflexivity|]. split; [reflexivity|]. by apply Hprev.
Defined.

End CategoryListFacts.

(** ** POST /api/topics/import *)

Section ImportFacts.
Import Db Slug Topics TopicsImport.

Lemma imported_failed_cons (it : item) (items : list item) :
  (imported (it :: items) + failed (it :: items)
   = S (imported items + failed items))%nat.
Proof.
  unfold imported, failed. rewrite !filter_cons.
  destruct it; simpl; repeat case_decide; simpl; try done; lia.
Qed.

(** What one entry does to the topics: nothing, or one new row under a key
    and a slug that were free. *)
Lemma import_one_spec (now : Z) (index : nat) (e : entry) (db : store) :
  ∃ it db1,
    import_one now index e db = Some (it, db1)
    ∧ categories db1 = categories db ∧ subcategories db1 = subcategories db
    ∧ modules db1 = modules db ∧ videos db1 = videos db
    ∧ match it with
      | Imported i id slug =>
          i = index
          ∧ topics db !! id = None
          ∧ (slug ∉ slugs (topics db))
          ∧ ∃ title, ie_title e = Js.JStr title
                     ∧ topics db1
                       = <[id := imported_row now title slug (ie_status e)]>
                           (topics db)
      | Failed i => i = index ∧ topics db1 = topics db
      end.
Proof.
  unfold import_one. destruct (Js.truthy (ie_title e)); [|by eexists _, _].
  destruct (ie_title e) as [| | | |title|]; try by eexists _, _.
  destruct (unique_slug_total (topics db) (baseSlug title))
    as (k & _ & -> & Hfree & _).
  cbn [mbind option_bind]. unfold insert_topic.
  destruct (_ && _) eqn:Hok; [|by eexists _, _].
  eexists _, _. split; [reflexivity|]. simpl.
  apply andb_true_iff in Hok as [_ Hkey%bool_decide_eq_true].
  split_and!; try done.
  - by apply bool_decide_eq_false in Hfree.
  - by exists title.
Qed.

Lemma import_loop_spec (now : Z) (entries : list entry) (index : nat) (db : store) :
  ∃ items db',
    import_loop now index entries db = Some (items, db')
    ∧ length items = length entries
    ∧ (imported items + failed items = length entries)%nat
    ∧ categories db' = categories db ∧ subcategories db' = subcategories db
    ∧ modules db' = modules db ∧ videos db' = videos db
    ∧ topics db ⊆ topics db'
    ∧ (∀ i id slug,
         Imported i id slug ∈ items →
         topics db !! id = None
         ∧ (slug ∉ slugs (topics db))
         ∧ ∃ row, topics db' !! id = Some row ∧ t_slug row = slug)
    ∧ (NoDup (slugs (topics db)) → NoDup (slugs (topics db'))).
Proof.
  revert index db. induction entries as [|e entries IH]; intros index db.
  - exists [], db. split_and!; try done. by intros i id slug ?%elem_of_nil.
  - destruct (import_one_spec now index e db)
      as (it & db1 & Hone & Hc1 & Hs1 & Hm1 & Hv1 & Hit).
    destruct (IH (S index) db1)
      as (items & db' & Hloop & Hlen & Hcount & Hc & Hs & Hm & Hv & Hsub & Hnew & Hnd).
    exists (it :: items), db'. simpl. rewrite Hone. simpl. rewrite Hloop. simpl.
    assert (Hstep : topics db ⊆ topics db1
                    ∧ (∀ slug, slug ∈ slugs (topics db) → slug ∈ slugs (topics db1))
                    ∧ (NoDup (slugs (topics db)) → NoDup (slugs (topics db1)))).
    { destruct it as [i id slug|i].
      - destruct Hit as (_ & Hfresh & Hslug & title & _ & ->).
        split_and!.
        + by apply insert_subseteq.
        + intros s Hin. rewrite (slugs_insert _ _ _ Hfresh). by right.
        + intros Hnodup. rewrite (slugs_insert _ _ _ Hfresh).
          by apply NoDup_cons.
      - destruct Hit as [_ ->]. done. }
    destruct Hstep as (Hsub1 & Hslugs1 & Hnd1).
    split_and!; try done; try congruence.
    + by rewrite imported_failed_cons, Hcount.
    + by transitivity (topics db1).
    + intros i id slug [Heq|Hin]%elem_of_cons.
      * subst it. destruct Hit as (_ & Hfresh & Hslug & title & _ & Htbl).
        split_and!; [done..|].
        exists (imported_row now title slug (ie_status e)). split; [|done].
        apply (lookup_weaken (topics db1)); [|done].
        rewrite Htbl. apply lookup_insert_eq.
      * destruct (Hnew i id slug Hin) as (Hfresh & Hslug & row & Hrow & Hrs).
        split_and!.
        -- destruct (topics db !! id) as [old|] eqn:Hold; [|done].
           apply (lookup_weaken _ (topics db1)) in Hold; [|done].
           congruence.
        -- intros Hin'. by apply Hslug, Hslugs1.
        -- by exists row.
    + intros Hnodup. by apply Hnd, Hnd1.
Qed.

(** X19.  POST /api/topics/import with an array always comes back (each
    slug loop ends) with 200, and every entry is counted once: the number
    of imported entries plus the number of failed ones is the length of the
    array. *)
Theorem import_counts_every_entry (now : Z) (entries : list entry) (db : store) :
  ∃ items db',
    import now (Some entries) db = Some (Http.ok "imported", items, db')
    ∧ length items = length entries
    ∧ (imported items + failed items = length entries)%nat.
Proof.
  destruct (import_loop_spec now entries 0 db)
    as (items & db' & Hloop & Hlen & Hcount & _).
  exists items, db'. unfold import. rewrite Hloop. done.
Qed.

(** X20.  The import only adds: every topic that was there is still there
    unchanged, no category, module or video is touched, each imported entry
    is a row of the final table under a key and a slug that no topic had
    before, whatever the later entries did (there is no transaction to roll
    it back), and slugs that were pairwise distinct stay so. *)
Theorem import_only_adds (now : Z) (entries : list entry) (db : store)
    (r : Http.response) (items : list item) (db' : store) :
  import now (Some entries) db = Some (r, items, db') →
  topics db ⊆ topics db'
  ∧ categories db' = categories db ∧ modules db' = modules db
  ∧ videos db' = videos db
  ∧ (∀ i id slug,
       Imported i id slug ∈ items →
       topics db !! id = None
       ∧ (slug ∉ slugs (topics db))
       ∧ ∃ row, topics db' !! id = Some row ∧ t_slug row = slug)
  ∧ (NoDup (slugs (topics db)) → NoDup (slugs (topics db'))).
Proof.
  destruct (import_loop_spec now entries 0 db)
    as (items0 & db0 & Hloop & _ & _ & Hc & _ & Hm & Hv & Hsub & Hnew & Hnd).
  unfold import. rewrite Hloop. simpl. intros [= _ <- <-]. done.
Qed.

End ImportFacts.

Lemma import_only_adds_witness :
  let entries :=
    [{| TopicsImport.ie_title := Js.JStr "Basic Security";
        TopicsImport.ie_status := None |};
     {| TopicsImport.ie_title := Js.JNum 5; TopicsImport.ie_status := None |};
     {| TopicsImport.ie_title := Js.JStr "Intro";
        TopicsImport.ie_status := Some "hidden" |}] in
  ∃ r items db',
    TopicsImport.import 9 (Some entries) Samples.one_topic = Some (r, items, db')
    ∧ items = [TopicsImport.Imported 0 6 "basic-security-1";
               TopicsImport.Failed 1; TopicsImport.Failed 2]
    ∧ Db.topics db' !! 5 = Some Samples.draft_topic.
Proof.
  intros entries.
  destruct (TopicsImport.import 9 (Some entries) Samples.one_topic)
    as [[[r items] db']|] eqn:Himport; [|vm_compute in Himport; discriminate].
  exists r, items, db'. split; [done|].
  destruct (import_only_adds 9 entries Samples.one_topic r items db' Himport)
    as (Hsub & _).
  split.
  - vm_compute in Himport. by injection Himport as _ <- _.
  - eapply lookup_weaken; [|exact Hsub]. reflexivity.
Defined.

(** ** The upload route and the duration columns *)

Section UploadFacts.
Import Db Tx Videos.

(** X21.  The statements of POST .../videos/upload, when they all go
    through, store the video under the next key of the sequence with the
    seconds given, and leave the module's duration_minutes equal to the sum
    of its videos' seconds over 60 and the topic's equal to the sum of its
    modules' minutes: the recomputation that the JSON routes of C3 lack. *)
Theorem upload_recomputes_durations (now topic module : Z)
    (title description url : string) (seconds order : Z) (s : store)
    (id : Z) (s' : store) :
  save_upload now topic module title description url seconds order s = Done id s' →
  id = videos_seq s
  ∧ videos s !! id = None
  ∧ (∃ row, videos s' !! id = Some row
            ∧ v_module_id row = module ∧ v_topic_id row = topic
            ∧ v_duration_seconds row = seconds)
  ∧ (∀ k, k ≠ id → videos s' !! k = videos s !! k)
  ∧ module_duration_ok module s' ∧ topic_duration_ok topic s'.
Proof.
  intros Hsave.
  destruct (save_upload_recomputes _ _ _ _ _ _ _ _ _ _ _ Hsave) as [Hm Ht].
  unfold save_upload in Hsave.
  apply bind_done in Hsave as (id' & s1 & Hins & Hrest).
  apply bind_done in Hrest as ([] & s2 & Hmod & Hrest).
  apply bind_done in Hrest as ([] & s3 & Htop & [= -> <-]).
  apply insert_video_done in Hins as (-> & Hfresh & _ & _ & ->).
  pose proof (post_done _ _ _ _ _ Hmod (update_module_duration_ok _ _ _))
    as (_ & Hv2 & _).
  pose proof (post_done _ _ _ _ _ Htop (update_topic_duration_ok _ _ _))
    as (_ & Hv3 & _).
  rewrite Hv3, Hv2. simpl.
  split_and!; try done.
  - eexists. rewrite lookup_insert_eq. done.
  - intros k Hk. by rewrite lookup_insert_ne.
Qed.

Lemma upload_recomputes_durations_witness :
  ∃ s',
    save_upload 100 5 5 "Clip" "A clip" "/uploads/clip.mp4" 120 3 Samples.course
    = Done 10 s'
    ∧ m_duration_minutes <$> modules s' !! 5 = Some 4
    ∧ t_duration_minutes <$> topics s' !! 5 = Some 4
    ∧ module_duration_ok 5 s' ∧ topic_duration_ok 5 s'.
Proof.
  eexists. split; [vm_compute; reflexivity|].
  split; [reflexivity|]. split; [reflexivity|].
  eapply (upload_recomputes_durations 100 5 5 "Clip" "A clip" "/uploads/clip.mp4"
            120 3 Samples.course 10).
  vm_compute. reflexivity.
Defined.

End UploadFacts.
